(** * Offline-first task synchronisation: SyncService and TaskService

    A shallow embedding of [src/services/syncService.ts] and of the
    [TaskService] methods it calls ([getTask], [updateTask]).

    Conventions of the embedding.
    - A [Date] is its time value in milliseconds, and a date column holds that
      number for the ISO text written to it. Where the database compares two
      dates it compares their ISO text ([toISOString]), and a date that arrives
      in a JSON reply is that text, not a [Date] object ([DateValue]).
    - The SQLite database is two tables, each a list of rows in insertion
      order, plus the trace of the statements that were run on it.
    - The database calls ([db.run], [db.get], [db.all]) always succeed; the
      exceptions of the model are the ones the code raises itself and the
      rejected HTTP calls.
    - [ORDER BY created_at ASC] keeps rows of equal date in insertion order.
    - The [data] column holds the payload itself: [JSON.stringify] followed
      by [JSON.parse] is taken as the identity on it, a date of the payload
      standing for its ISO text.
    - The outer world ([new Date()], [uuidv4()], the remote server) is read
      through oracles indexed by the number of calls made so far.
    - [sync] takes the fuel of its batching loop, the one loop of the code
      that is not a traversal of a list; it yields [Diverge] when the fuel
      runs out.
    - [console.log] and [console.error] are not modelled. *)

From Stdlib Require Import ZArith List String Ascii Bool Lia.
Import ListNotations.
Open Scope Z_scope.
Open Scope list_scope.

(** ** JavaScript numbers, as far as the batching loop needs them *)

(** [parseInt] gives an integer or [NaN]. *)
Inductive number : Type :=
| Num (z : Z)
| NaN.

Definition num_lt (a b : number) : bool :=
  match a, b with
  | Num x, Num y => x <? y
  | _, _ => false
  end.

Definition num_add (a b : number) : number :=
  match a, b with
  | Num x, Num y => Num (x + y)
  | _, _ => NaN
  end.

Definition ToIntegerOrInfinity (n : number) : Z :=
  match n with
  | Num z => z
  | NaN => 0
  end.

(** The relative index of [Array.prototype.slice]. *)
Definition relative_index (len rel : Z) : Z :=
  if rel <? 0 then Z.max (len + rel) 0 else Z.min rel len.

(** [l.slice(start, end)] *)
Definition slice {A : Type} (l : list A) (start end_ : number) : list A :=
  let len := Z.of_nat (List.length l) in
  let k := relative_index len (ToIntegerOrInfinity start) in
  let final := relative_index len (ToIntegerOrInfinity end_) in
  firstn (Z.to_nat (final - k)) (skipn (Z.to_nat k) l).

(** [s || d] on an optional string: the empty string is falsy. *)
Definition truthy (s : option string) : option string :=
  match s with
  | Some x => if String.eqb x EmptyString then None else Some x
  | None => None
  end.

Definition or_default (s : option string) (d : string) : string :=
  match truthy s with
  | Some x => x
  | None => d
  end.

(** ** Data model ([src/types]) *)

Definition Date := Z.

(** *** Dates as text

    [Date.prototype.toISOString]: the text that is written to the date
    columns and that [JSON.stringify] gives for a [Date]. *)

Definition msPerDay : Z := 86400000.

(** Year, month and day of a day number (days since 1 January 1970) in the
    proleptic Gregorian calendar, counted in eras of 400 years from 1 March
    of year 0. *)
Definition civil_from_days (days : Z) : Z * Z * Z :=
  let z := days + 719468 in
  let era := z / 146097 in
  let doe := z - era * 146097 in
  let yoe := (doe - doe / 1460 + doe / 36524 - doe / 146096) / 365 in
  let doy := doe - (365 * yoe + yoe / 4 - yoe / 100) in
  let mp := (5 * doy + 2) / 153 in
  let d := doy - (153 * mp + 2) / 5 + 1 in
  let m := if mp <? 10 then mp + 3 else mp - 9 in
  let y := yoe + era * 400 in
  (if m <=? 2 then y + 1 else y, m, d).

Definition digit (d : Z) : ascii := ascii_of_nat (48 + Z.to_nat d).

(** The last [width] decimal digits of [n]. *)
Fixpoint digits (width : nat) (n : Z) : string :=
  match width with
  | O => EmptyString
  | S width' =>
      String.append (digits width' (n / 10)) (String (digit (n mod 10)) EmptyString)
  end.

(** Four digits for the years 0 to 9999, a sign and six digits otherwise. *)
Definition year_text (y : Z) : string :=
  if (0 <=? y) && (y <=? 9999) then digits 4 y
  else if y <? 0 then String.append "-" (digits 6 (- y))
  else String.append "+" (digits 6 y).

(** [t.toISOString()], for a time value in the range of [Date]. *)
Definition toISOString (t : Date) : string :=
  let '(y, m, d) := civil_from_days (t / msPerDay) in
  let r := t mod msPerDay in
  String.concat EmptyString
    [year_text y; "-"%string; digits 2 m; "-"%string; digits 2 d; "T"%string;
     digits 2 (r / 3600000); ":"%string; digits 2 (r / 60000 mod 60); ":"%string;
     digits 2 (r / 1000 mod 60); "."%string; digits 3 (r mod 1000); "Z"%string].

(** The order of two stored dates: that of their text, character by
    character (SQLite's [BINARY] collation, JavaScript's [<=] on strings). *)
Definition text_leb (a b : Date) : bool :=
  String.leb (toISOString a) (toISOString b).

Arguments toISOString : simpl never.
Arguments text_leb : simpl never.

(** A date as a JavaScript value: a [Date] object, or the ISO text of a date,
    which is what [JSON.parse] leaves where the sender had a [Date]. *)
Inductive DateValue : Type :=
| date_object (t : Date)
| date_text (t : Date).

(** [a > b]: two [Date] objects compare by time value and two strings as
    text; a [Date] against an ISO text compares the time value with
    [ToNumber] of the text, which is [NaN], so the answer is [false]. *)
Definition js_gt (a b : DateValue) : bool :=
  match a, b with
  | date_object x, date_object y => x >? y
  | date_text x, date_text y => String.ltb (toISOString y) (toISOString x)
  | _, _ => false
  end.

Module SyncStatus.
Inductive t : Type := pending | synced | error.
End SyncStatus.

Module Operation.
Inductive t : Type := create | update | delete.
End Operation.

Module Status.
Inductive t : Type := success | conflict | error.
End Status.

Module JsError.
Record t : Type := mk { message : string }.
End JsError.

Module Task.
Record t : Type := mk {
  id : string;
  title : string;
  description : string;
  completed : bool;
  created_at : Date;
  updated_at : Date;
  is_deleted : bool;
  sync_status : SyncStatus.t;
  server_id : option string;
  last_synced_at : option Date
}.
End Task.

(** A [Task] object at run time.  The interface types its dates as [Date];
    a task built in the process ([mapRowToTask], the routes) holds [Date]
    objects, a task parsed from a JSON reply holds their ISO text. *)
Module TaskObject.
Inductive t : Type :=
| held (x : Task.t)
| parsed (x : Task.t).

Definition fields (v : t) : Task.t :=
  match v with
  | held x | parsed x => x
  end.

Definition updated_at (v : t) : DateValue :=
  match v with
  | held x => date_object (Task.updated_at x)
  | parsed x => date_text (Task.updated_at x)
  end.
End TaskObject.

(** [Partial<Task>]: a field is [None] when the key is absent. *)
Module PartialTask.
Record t : Type := mk {
  id : option string;
  title : option string;
  description : option string;
  completed : option bool;
  created_at : option Date;
  updated_at : option Date;
  is_deleted : option bool;
  sync_status : option SyncStatus.t;
  server_id : option string;
  last_synced_at : option Date
}.

Definition of_Task (x : Task.t) : t :=
  {| id := Some (Task.id x);
     title := Some (Task.title x);
     description := Some (Task.description x);
     completed := Some (Task.completed x);
     created_at := Some (Task.created_at x);
     updated_at := Some (Task.updated_at x);
     is_deleted := Some (Task.is_deleted x);
     sync_status := Some (Task.sync_status x);
     server_id := Task.server_id x;
     last_synced_at := Task.last_synced_at x |}.
End PartialTask.

Module SyncQueueItem.
Record t : Type := mk {
  id : string;
  task_id : string;
  operation : Operation.t;
  data : PartialTask.t;
  created_at : Date;
  retry_count : Z;
  error_message : option string
}.
End SyncQueueItem.

Module SyncError.
Record t : Type := mk {
  task_id : string;
  operation : string;
  error : string;
  timestamp : Date
}.
End SyncError.

Module SyncResult.
Record t : Type := mk {
  success : bool;
  synced_items : Z;
  failed_items : Z;
  errors : list SyncError.t
}.
End SyncResult.

Module BatchSyncRequest.
Record t : Type := mk {
  items : list SyncQueueItem.t;
  client_timestamp : Date
}.
End BatchSyncRequest.

(** One element of [processed_items], as parsed from the reply:
    [resolved_data] lists the fields of the JSON object, its dates being the
    dates whose ISO text the object holds. *)
Module ProcessedItem.
Record t : Type := mk {
  client_id : string;
  server_id : option string;
  status : Status.t;
  resolved_data : option Task.t;
  error : option string
}.
End ProcessedItem.

Module BatchSyncResponse.
Record t : Type := mk {
  processed_items : list ProcessedItem.t;
  server_timestamp : Date
}.
End BatchSyncResponse.

(** ** The database and the world around it *)

(** The SQL statements of the two services. *)
Inductive Stmt : Type :=
| SelectSyncQueue
| InsertSyncQueue (id task_id : string)
| UpdateRetryCount (id : string) (error_message : string)
| SelectRetryCount (id : string)
| DeleteSyncQueueById (id : string)
| DeleteSyncQueueByTask (task_id : string)
| UpdateSyncStatus (task_id : string)
| SelectTask (id : string)
| UpdateTask (id : string).

Record World : Type := mkWorld {
  tasks : list Task.t;
  sync_queue : list SyncQueueItem.t;
  trace : list Stmt;
  dates : nat;
  uuids : nat;
  requests : nat
}.

Definition set_tasks (ts : list Task.t) (w : World) : World :=
  mkWorld ts (sync_queue w) (trace w) (dates w) (uuids w) (requests w).

Definition set_sync_queue (q : list SyncQueueItem.t) (w : World) : World :=
  mkWorld (tasks w) q (trace w) (dates w) (uuids w) (requests w).

Definition record_stmt (s : Stmt) (w : World) : World :=
  mkWorld (tasks w) (sync_queue w) (trace w ++ [s]) (dates w) (uuids w) (requests w).

(** ** A state and exception monad *)

Inductive Res (A : Type) : Type :=
| Ok (a : A)
| Throw (e : JsError.t)
| Diverge.
Arguments Ok {A} a.
Arguments Throw {A} e.
Arguments Diverge {A}.

Definition M (A : Type) : Type := World -> Res A * World.

Definition ret {A : Type} (a : A) : M A := fun w => (Ok a, w).

Definition bind {A B : Type} (m : M A) (k : A -> M B) : M B :=
  fun w =>
    match m w with
    | (Ok a, w') => k a w'
    | (Throw e, w') => (Throw e, w')
    | (Diverge, w') => (Diverge, w')
    end.

Definition throw {A : Type} (e : JsError.t) : M A := fun w => (Throw e, w).

Definition try_catch {A : Type} (m : M A) (handler : JsError.t -> M A) : M A :=
  fun w =>
    match m w with
    | (Throw e, w') => handler e w'
    | r => r
    end.

Definition modify (f : World -> World) : M unit := fun w => (Ok tt, f w).
Definition gets {A : Type} (f : World -> A) : M A := fun w => (Ok (f w), w).

Notation "x <- m ;; k" := (bind m (fun x => k))
  (at level 61, m at next level, right associativity).
Notation "m ;;; k" := (bind m (fun _ => k))
  (at level 61, right associativity).

(** [for (const x of xs) { await body(x) }] *)
Fixpoint for_each {A : Type} (xs : list A) (body : A -> M unit) : M unit :=
  match xs with
  | [] => ret tt
  | x :: xs' => body x ;;; for_each xs' body
  end.

(** ** Database statements *)

(** [ORDER BY created_at ASC] on the text of the column, rows of equal date in
    insertion order. *)
Fixpoint insert_by_created_at (x : SyncQueueItem.t) (l : list SyncQueueItem.t)
  : list SyncQueueItem.t :=
  match l with
  | [] => [x]
  | y :: l' =>
      if text_leb (SyncQueueItem.created_at x) (SyncQueueItem.created_at y)
      then x :: y :: l'
      else y :: insert_by_created_at x l'
  end.

Definition order_by_created_at (l : list SyncQueueItem.t) : list SyncQueueItem.t :=
  fold_right insert_by_created_at [] l.

Definition queue_id_is (i : string) (r : SyncQueueItem.t) : bool :=
  String.eqb (SyncQueueItem.id r) i.

Definition queue_task_is (i : string) (r : SyncQueueItem.t) : bool :=
  String.eqb (SyncQueueItem.task_id r) i.

Definition task_id_is (i : string) (r : Task.t) : bool :=
  String.eqb (Task.id r) i.

(** [SELECT * FROM sync_queue ORDER BY created_at ASC] *)
Definition select_sync_queue : M (list SyncQueueItem.t) :=
  modify (record_stmt SelectSyncQueue) ;;;
  gets (fun w => order_by_created_at (sync_queue w)).

(** [INSERT INTO sync_queue (id, task_id, operation, data, created_at, retry_count)] *)
Definition insert_sync_queue (item : SyncQueueItem.t) : M unit :=
  modify (record_stmt (InsertSyncQueue (SyncQueueItem.id item) (SyncQueueItem.task_id item))) ;;;
  modify (fun w => set_sync_queue
    (sync_queue w ++
       [SyncQueueItem.mk (SyncQueueItem.id item) (SyncQueueItem.task_id item)
          (SyncQueueItem.operation item) (SyncQueueItem.data item)
          (SyncQueueItem.created_at item) 0 None]) w).

Definition bump_retry (msg : string) (r : SyncQueueItem.t) : SyncQueueItem.t :=
  SyncQueueItem.mk (SyncQueueItem.id r) (SyncQueueItem.task_id r)
    (SyncQueueItem.operation r) (SyncQueueItem.data r)
    (SyncQueueItem.created_at r) (SyncQueueItem.retry_count r + 1) (Some msg).

(** [UPDATE sync_queue SET retry_count = retry_count + 1, error_message = ? WHERE id = ?] *)
Definition update_retry_count (msg i : string) : M unit :=
  modify (record_stmt (UpdateRetryCount i msg)) ;;;
  modify (fun w => set_sync_queue
    (map (fun r => if queue_id_is i r then bump_retry msg r else r) (sync_queue w)) w).

(** [SELECT retry_count FROM sync_queue WHERE id = ?], first row *)
Definition select_retry_count (i : string) : M (option Z) :=
  modify (record_stmt (SelectRetryCount i)) ;;;
  gets (fun w => option_map SyncQueueItem.retry_count (find (queue_id_is i) (sync_queue w))).

(** [DELETE FROM sync_queue WHERE id = ?] *)
Definition delete_sync_queue_by_id (i : string) : M unit :=
  modify (record_stmt (DeleteSyncQueueById i)) ;;;
  modify (fun w => set_sync_queue
    (filter (fun r => negb (queue_id_is i r)) (sync_queue w)) w).

(** [DELETE FROM sync_queue WHERE task_id = ?] *)
Definition delete_sync_queue_by_task (i : string) : M unit :=
  modify (record_stmt (DeleteSyncQueueByTask i)) ;;;
  modify (fun w => set_sync_queue
    (filter (fun r => negb (queue_task_is i r)) (sync_queue w)) w).

Definition coalesce {A : Type} (a b : option A) : option A :=
  match a with
  | Some _ => a
  | None => b
  end.

Definition settle_row (status : SyncStatus.t) (sid : option string) (now : Date)
  (r : Task.t) : Task.t :=
  Task.mk (Task.id r) (Task.title r) (Task.description r) (Task.completed r)
    (Task.created_at r) (Task.updated_at r) (Task.is_deleted r)
    status (coalesce sid (Task.server_id r)) (Some now).

(** [UPDATE tasks SET sync_status = ?, server_id = COALESCE(?, server_id),
    last_synced_at = ? WHERE id = ?] *)
Definition update_sync_status (status : SyncStatus.t) (sid : option string)
  (now : Date) (i : string) : M unit :=
  modify (record_stmt (UpdateSyncStatus i)) ;;;
  modify (fun w => set_tasks
    (map (fun r => if task_id_is i r then settle_row status sid now r else r) (tasks w)) w).

(** [SELECT * FROM tasks WHERE id=?], first row *)
Definition select_task (i : string) : M (option Task.t) :=
  modify (record_stmt (SelectTask i)) ;;;
  gets (fun w => find (task_id_is i) (tasks w)).

Definition write_row (u : Task.t) (r : Task.t) : Task.t :=
  Task.mk (Task.id r) (Task.title u) (Task.description u) (Task.completed u)
    (Task.created_at r) (Task.updated_at u) (Task.is_deleted u)
    (Task.sync_status u) (Task.server_id r) (Task.last_synced_at r).

(** [UPDATE tasks SET title = ?, description = ?, completed = ?, updated_at = ?,
    is_deleted = ?, sync_status = ? WHERE id = ?] *)
Definition update_task_row (u : Task.t) (i : string) : M unit :=
  modify (record_stmt (UpdateTask i)) ;;;
  modify (fun w => set_tasks
    (map (fun r => if task_id_is i r then write_row u r else r) (tasks w)) w).

(** ** The services *)

(** The local variables of [sync] that the batch loop updates. *)
Record Totals : Type := mkTotals {
  totalSynced : Z;
  totalFailed : Z;
  errors : list SyncError.t
}.

(** [resolveConflict]: [localTask.updated_at > serverTask.updated_at ?
    localTask : serverTask], on the values the two objects hold. *)
Definition resolveConflict (localTask serverTask : TaskObject.t) : TaskObject.t :=
  if js_gt (TaskObject.updated_at localTask) (TaskObject.updated_at serverTask)
  then localTask
  else serverTask.

(** [mapRowToTask] *)
Definition mapRowToTask (row : Task.t) : Task.t :=
  Task.mk (Task.id row) (Task.title row) (Task.description row)
    (Task.completed row) (Task.created_at row) (Task.updated_at row)
    (Task.is_deleted row) (Task.sync_status row)
    (truthy (Task.server_id row)) (Task.last_synced_at row).

(** The row mapping at the head of [sync]. *)
Definition mapRowToQueueItem (r : SyncQueueItem.t) : SyncQueueItem.t :=
  SyncQueueItem.mk (SyncQueueItem.id r) (SyncQueueItem.task_id r)
    (SyncQueueItem.operation r) (SyncQueueItem.data r)
    (SyncQueueItem.created_at r) (SyncQueueItem.retry_count r)
    (truthy (SyncQueueItem.error_message r)).

Definition from_option {A : Type} (o : option A) (d : A) : A :=
  match o with
  | Some a => a
  | None => d
  end.

(** [{...existing, ...updates, updated_at: now, sync_status: 'pending'}] *)
Definition merge_updates (existing : Task.t) (updates : PartialTask.t) (now : Date)
  : Task.t :=
  Task.mk
    (from_option (PartialTask.id updates) (Task.id existing))
    (from_option (PartialTask.title updates) (Task.title existing))
    (from_option (PartialTask.description updates) (Task.description existing))
    (from_option (PartialTask.completed updates) (Task.completed existing))
    (from_option (PartialTask.created_at updates) (Task.created_at existing))
    now
    (from_option (PartialTask.is_deleted updates) (Task.is_deleted existing))
    SyncStatus.pending
    (coalesce (PartialTask.server_id updates) (Task.server_id existing))
    (coalesce (PartialTask.last_synced_at updates) (Task.last_synced_at existing)).

(** [serverData?.server_id || null] *)
Definition provided_server_id (serverData : option PartialTask.t) : option string :=
  truthy (match serverData with
          | Some d => PartialTask.server_id d
          | None => None
          end).

(** The maximum of [handleSyncError], written as a literal in the code. *)
Definition maxRetries : Z := 3.

(** [handleSyncError] *)
Definition handleSyncError (item : SyncQueueItem.t) (error : JsError.t) : M unit :=
  update_retry_count (JsError.message error) (SyncQueueItem.id item) ;;;
  updated <- select_retry_count (SyncQueueItem.id item) ;;
  match updated with
  | Some retry_count =>
      if retry_count >? maxRetries
      then delete_sync_queue_by_id (SyncQueueItem.id item)
      else ret tt
  | None => ret tt
  end.

Section Services.

(** [new Date()], [uuidv4()] and the remote server, by call number. *)
Variable clock : nat -> Date.
Variable uuid : nat -> string.
Variable health : nat -> bool.
Variable remote : nat -> BatchSyncRequest.t -> JsError.t + BatchSyncResponse.t.

(** [this.batchSize], parsed from [SYNC_BATCH_SIZE]. *)
Variable batchSize : number.

Definition new_Date : M Date :=
  fun w => (Ok (clock (dates w)),
            mkWorld (tasks w) (sync_queue w) (trace w) (S (dates w)) (uuids w) (requests w)).

Definition uuidv4 : M string :=
  fun w => (Ok (uuid (uuids w)),
            mkWorld (tasks w) (sync_queue w) (trace w) (dates w) (S (uuids w)) (requests w)).

Definition next_request (w : World) : World :=
  mkWorld (tasks w) (sync_queue w) (trace w) (dates w) (uuids w) (S (requests w)).

(** [checkConnectivity] *)
Definition checkConnectivity : M bool :=
  fun w => (Ok (health (requests w)), next_request w).

(** [processBatch] *)
Definition processBatch (items : list SyncQueueItem.t) : M BatchSyncResponse.t :=
  client_timestamp <- new_Date ;;
  fun w =>
    match remote (requests w) (BatchSyncRequest.mk items client_timestamp) with
    | inl err => (Throw err, next_request w)
    | inr data => (Ok data, next_request w)
    end.

(** [addToSyncQueue] *)
Definition addToSyncQueue (taskId : string) (operation : Operation.t)
  (data : PartialTask.t) : M unit :=
  id <- uuidv4 ;;
  created_at <- new_Date ;;
  insert_sync_queue (SyncQueueItem.mk id taskId operation data created_at 0 None).

(** [TaskService.getTask] *)
Definition getTask (id : string) : M (option Task.t) :=
  row <- select_task id ;;
  match row with
  | None => ret None
  | Some r => if Task.is_deleted r then ret None else ret (Some (mapRowToTask r))
  end.

(** [TaskService.updateTask] *)
Definition updateTask (id : string) (updates : PartialTask.t) : M (option Task.t) :=
  existing <- getTask id ;;
  match existing with
  | None => ret None
  | Some e =>
      now <- new_Date ;;
      let updatedTask := merge_updates e updates now in
      update_task_row updatedTask id ;;;
      addToSyncQueue (Task.id updatedTask) Operation.update updates ;;;
      ret (Some updatedTask)
  end.

(** [updateSyncStatus] *)
Definition updateSyncStatus (taskId : string) (status : SyncStatus.t)
  (serverData : option PartialTask.t) : M unit :=
  now <- new_Date ;;
  update_sync_status status (provided_server_id serverData) now taskId ;;;
  match status with
  | SyncStatus.synced => delete_sync_queue_by_task taskId
  | _ => ret tt
  end.

(** The loop [for (let i = 0; i < queueItems.length; i += this.batchSize)]
    from the state [(i, batches)]; [None] when the fuel runs out. *)
Fixpoint batch_loop (fuel : nat) (queueItems : list SyncQueueItem.t)
  (i : number) (batches : list (list SyncQueueItem.t))
  : option (list (list SyncQueueItem.t)) :=
  match fuel with
  | O => None
  | S fuel' =>
      if num_lt i (Num (Z.of_nat (List.length queueItems)))
      then batch_loop fuel' queueItems (num_add i batchSize)
             (batches ++ [slice queueItems i (num_add i batchSize)])
      else Some batches
  end.

Definition make_batches (fuel : nat) (queueItems : list SyncQueueItem.t)
  : M (list (list SyncQueueItem.t)) :=
  fun w =>
    match batch_loop fuel queueItems (Num 0) [] with
    | Some batches => (Ok batches, w)
    | None => (Diverge, w)
    end.

(** The conflict branch up to the settle: look the local task up and, when
    there is one, write the resolved task back.  The local task comes from
    [getTask], the other one from the reply. *)
Definition persist_resolution (client_id : string) (resolved_data : Task.t) : M unit :=
  localTask <- getTask client_id ;;
  match localTask with
  | Some l =>
      let resolved :=
        resolveConflict (TaskObject.held l) (TaskObject.parsed resolved_data) in
      updateTask (Task.id l) (PartialTask.of_Task (TaskObject.fields resolved)) ;;; ret tt
  | None => ret tt
  end.

(** The body of [for (const result of response.processed_items)]. *)
Definition process_result (batch : list SyncQueueItem.t) (result : ProcessedItem.t)
  (acc : Totals) : M Totals :=
  match ProcessedItem.status result, ProcessedItem.resolved_data result with
  | Status.success, resolved_data =>
      updateSyncStatus (ProcessedItem.client_id result) SyncStatus.synced
        (option_map PartialTask.of_Task resolved_data) ;;;
      ret (mkTotals (totalSynced acc + 1) (totalFailed acc) (errors acc))
  | Status.conflict, Some resolved_data =>
      persist_resolution (ProcessedItem.client_id result) resolved_data ;;;
      updateSyncStatus (ProcessedItem.client_id result) SyncStatus.synced
        (Some (PartialTask.of_Task resolved_data)) ;;;
      ret acc
  | Status.conflict, None => ret acc
  | Status.error, _ =>
      timestamp <- new_Date ;;
      let acc' :=
        mkTotals (totalSynced acc) (totalFailed acc + 1)
          (errors acc ++
             [SyncError.mk (ProcessedItem.client_id result) "unknown"
                (or_default (ProcessedItem.error result) "Sync failed") timestamp]) in
      match find (queue_id_is (ProcessedItem.client_id result)) batch with
      | Some failedItem =>
          handleSyncError failedItem
            (JsError.mk (or_default (ProcessedItem.error result) "Sync error")) ;;;
          ret acc'
      | None => ret acc'
      end
  end.

Fixpoint process_results (batch : list SyncQueueItem.t)
  (results : list ProcessedItem.t) (acc : Totals) : M Totals :=
  match results with
  | [] => ret acc
  | result :: rest =>
      acc' <- process_result batch result acc ;;
      process_results batch rest acc'
  end.

(** The body of [for (const batch of batches)], with its [try]/[catch]. *)
Definition process_batch (batch : list SyncQueueItem.t) (acc : Totals) : M Totals :=
  try_catch
    (response <- processBatch batch ;;
     process_results batch (BatchSyncResponse.processed_items response) acc)
    (fun err =>
       for_each batch (fun item => handleSyncError item err) ;;;
       ret (mkTotals (totalSynced acc)
              (totalFailed acc + Z.of_nat (List.length batch)) (errors acc))).

Fixpoint process_batches (batches : list (list SyncQueueItem.t)) (acc : Totals)
  : M Totals :=
  match batches with
  | [] => ret acc
  | batch :: rest =>
      acc' <- process_batch batch acc ;;
      process_batches rest acc'
  end.

(** [sync]; [fuel] bounds the iterations of the batching loop. *)
Definition sync (fuel : nat) : M SyncResult.t :=
  try_catch
    (connectivity <- checkConnectivity ;;
     if negb connectivity
     then throw (JsError.mk "Server not reachable")
     else
       items <- select_sync_queue ;;
       match items with
       | [] => ret (SyncResult.mk true 0 0 [])
       | _ :: _ =>
           let queueItems := map mapRowToQueueItem items in
           batches <- make_batches fuel queueItems ;;
           acc <- process_batches batches (mkTotals 0 0 []) ;;
           ret (SyncResult.mk (totalFailed acc =? 0) (totalSynced acc)
                  (totalFailed acc) (errors acc))
       end)
    (fun err =>
       timestamp <- new_Date ;;
       ret (SyncResult.mk false 0 0
              [SyncError.mk "global" "sync" (JsError.message err) timestamp])).

End Services.

From Stdlib Require Import Permutation.

(** ** The record store and the routes

    The remaining methods of [TaskService] and the handlers of
    [routes/tasks.ts] and [routes/sync.ts].  Their statements on the [tasks]
    table change the table as the SQL says; [trace] keeps listing the
    statements of the sync cycle only, so these are not recorded in it. *)

(** [INSERT INTO tasks(id,title,description,completed,created_at,updated_at,
    is_deleted,sync_status)]: the other two columns are [NULL]. *)
Definition insert_task (t : Task.t) : M unit :=
  modify (fun w => set_tasks
    (tasks w ++
       [Task.mk (Task.id t) (Task.title t) (Task.description t) (Task.completed t)
          (Task.created_at t) (Task.updated_at t) (Task.is_deleted t)
          (Task.sync_status t) None None]) w).

Definition soft_delete_row (now : Date) (r : Task.t) : Task.t :=
  Task.mk (Task.id r) (Task.title r) (Task.description r) (Task.completed r)
    (Task.created_at r) now true SyncStatus.pending
    (Task.server_id r) (Task.last_synced_at r).

(** [UPDATE tasks SET is_deleted = 1, updated_at = ?, sync_status = 'pending'
    WHERE id = ?] *)
Definition soft_delete_task (now : Date) (i : string) : M unit :=
  modify (fun w => set_tasks
    (map (fun r => if task_id_is i r then soft_delete_row now r else r) (tasks w)) w).

(** [SELECT * FROM tasks WHERE is_deleted=0] *)
Definition select_active_tasks : M (list Task.t) :=
  gets (fun w => filter (fun r => negb (Task.is_deleted r)) (tasks w)).

Definition needs_sync (r : Task.t) : bool :=
  match Task.sync_status r with
  | SyncStatus.pending | SyncStatus.error => true
  | SyncStatus.synced => false
  end.

(** [SELECT * FROM tasks WHERE sync_status IN ('pending', 'error')] *)
Definition select_tasks_needing_sync : M (list Task.t) :=
  gets (fun w => filter needs_sync (tasks w)).

(** The later of two stored dates, by their text. *)
Definition max_date (a : option Date) (b : option Date) : option Date :=
  match a, b with
  | Some x, Some y => Some (if text_leb x y then y else x)
  | Some x, None => Some x
  | None, _ => b
  end.

(** [SELECT MAX(last_synced_at) as last_sync FROM tasks]: the column is
    text and is compared as text; [NULL] is skipped, and is the answer when
    no row has a date. *)
Definition select_max_last_synced_at : M (option Date) :=
  gets (fun w => fold_right max_date None (map Task.last_synced_at (tasks w))).

(** The answers of the routers. *)
Module Response.
Inductive body : Type :=
| error_body (error : string) (details : option string)
| task (t : Task.t)
| task_or_null (t : option Task.t)
| task_list (l : list Task.t)
| success_true
| sync_result (r : SyncResult.t)
| sync_status (pending : Z) (last_synced_at : option Date) (online : bool)
    (status : string)
| batch (r : BatchSyncResponse.t)
| health (timestamp : Date).

Record t : Type := mk { status : Z; json : body }.
End Response.

(** The body of [POST /] and [PUT /:id] of the task router. *)
Module TaskBody.
Record t : Type := mk {
  title : option string;
  description : option string;
  completed : option bool
}.
End TaskBody.

(** [`srv-${item.task_id || Math.random().toString(36).slice(2)}`]; [random]
    is the string [Math.random] gives. *)
Definition batch_server_id (random : string) (item : SyncQueueItem.t) : string :=
  String.append "srv-"
    (or_default (Some (SyncQueueItem.task_id item)) random).

(** The [processed_items] of [POST /batch]; [random k] is the random string
    drawn for the item at position [k]. *)
Fixpoint batch_processed_items (random : nat -> string) (k : nat)
  (items : list SyncQueueItem.t) : list ProcessedItem.t :=
  match items with
  | [] => []
  | item :: rest =>
      ProcessedItem.mk (SyncQueueItem.id item)
        (Some (batch_server_id (random k) item)) Status.success None None
      :: batch_processed_items random (S k) rest
  end.

Section Application.

Variable clock : nat -> Date.
Variable uuid : nat -> string.
Variable health : nat -> bool.
Variable remote : nat -> BatchSyncRequest.t -> JsError.t + BatchSyncResponse.t.
Variable batchSize : number.
Variable random : nat -> string.

(** [TaskService.createTask] *)
Definition createTask (taskData : PartialTask.t) : M Task.t :=
  id <- uuidv4 uuid ;;
  now <- new_Date clock ;;
  let newTask :=
    Task.mk id
      (or_default (PartialTask.title taskData) "Untitled Task")
      (or_default (PartialTask.description taskData) EmptyString)
      false now now false SyncStatus.pending None None in
  insert_task newTask ;;;
  addToSyncQueue clock uuid (Task.id newTask) Operation.create
    (PartialTask.of_Task newTask) ;;;
  ret newTask.

(** [TaskService.deleteTask] *)
Definition deleteTask (id : string) : M bool :=
  task <- getTask id ;;
  match task with
  | None => ret false
  | Some _ =>
      now <- new_Date clock ;;
      soft_delete_task now id ;;;
      addToSyncQueue clock uuid id Operation.delete
        (PartialTask.mk (Some id) None None None None None None None None None) ;;;
      ret true
  end.

(** [TaskService.getAllTasks] *)
Definition getAllTasks : M (list Task.t) :=
  rows <- select_active_tasks ;;
  ret (map mapRowToTask rows).

(** [TaskService.getTasksNeedingSync] *)
Definition getTasksNeedingSync : M (list Task.t) :=
  rows <- select_tasks_needing_sync ;;
  ret (map mapRowToTask rows).

(** [router.post('/')] of [createTaskRouter] *)
Definition post_task (body : TaskBody.t) : M Response.t :=
  try_catch
    (match truthy (TaskBody.title body) with
     | None => ret (Response.mk 400 (Response.error_body "Title is required" None))
     | Some title =>
         now <- new_Date clock ;;
         id <- uuidv4 uuid ;;
         let newTask :=
           Task.mk id title
             (from_option (TaskBody.description body) EmptyString)
             (from_option (TaskBody.completed body) false)
             now now false SyncStatus.pending None None in
         createTask (PartialTask.of_Task newTask) ;;;
         addToSyncQueue clock uuid (Task.id newTask) Operation.create
           (PartialTask.of_Task newTask) ;;;
         ret (Response.mk 201 (Response.task newTask))
     end)
    (fun error =>
       ret (Response.mk 500
              (Response.error_body "Failed to create task"
                 (Some (JsError.message error))))).

(** [router.get('/')] of [createTaskRouter] *)
Definition get_tasks : M Response.t :=
  try_catch
    (tasks <- getAllTasks ;;
     ret (Response.mk 200 (Response.task_list tasks)))
    (fun error =>
       ret (Response.mk 500 (Response.error_body "Failed to fetch tasks" None))).

(** [router.get('/:id')] of [createTaskRouter] *)
Definition get_task (id : string) : M Response.t :=
  try_catch
    (task <- getTask id ;;
     match task with
     | None => ret (Response.mk 404 (Response.error_body "Task not found" None))
     | Some t => ret (Response.mk 200 (Response.task t))
     end)
    (fun error =>
       ret (Response.mk 500 (Response.error_body "Failed to fetch task" None))).

(** The [updates] object of [router.put('/:id')]: [a ?? b] keeps [a] unless
    it is absent. *)
Definition put_updates (body : TaskBody.t) (existing : Task.t) (now : Date)
  : PartialTask.t :=
  PartialTask.mk None
    (Some (from_option (TaskBody.title body) (Task.title existing)))
    (Some (from_option (TaskBody.description body) (Task.description existing)))
    (Some (from_option (TaskBody.completed body) (Task.completed existing)))
    None (Some now) None (Some SyncStatus.pending) None None.

(** [router.put('/:id')] of [createTaskRouter] *)
Definition put_task (id : string) (body : TaskBody.t) : M Response.t :=
  try_catch
    (existing <- getTask id ;;
     match existing with
     | None => ret (Response.mk 404 (Response.error_body "Task not found" None))
     | Some e =>
         now <- new_Date clock ;;
         let updates := put_updates body e now in
         updatedTask <- updateTask clock uuid id updates ;;
         addToSyncQueue clock uuid id Operation.update updates ;;;
         ret (Response.mk 200 (Response.task_or_null updatedTask))
     end)
    (fun error =>
       ret (Response.mk 500
              (Response.error_body "Failed to update task"
                 (Some (JsError.message error))))).

(** The [updates] object of [router.delete('/:id')]. *)
Definition delete_updates (now : Date) : PartialTask.t :=
  PartialTask.mk None None None None None (Some now) (Some true)
    (Some SyncStatus.pending) None None.

(** [router.delete('/:id')] of [createTaskRouter] *)
Definition delete_task (id : string) : M Response.t :=
  try_catch
    (existing <- getTask id ;;
     match existing with
     | None => ret (Response.mk 404 (Response.error_body "Task not found" None))
     | Some _ =>
         now <- new_Date clock ;;
         let updates := delete_updates now in
         updateTask clock uuid id updates ;;;
         addToSyncQueue clock uuid id Operation.delete updates ;;;
         ret (Response.mk 200 Response.success_true)
     end)
    (fun error =>
       ret (Response.mk 500
              (Response.error_body "Failed to delete task"
                 (Some (JsError.message error))))).

(** [router.post('/sync')] of [createSyncRouter] *)
Definition post_sync (fuel : nat) : M Response.t :=
  try_catch
    (isOnline <- checkConnectivity health ;;
     if negb isOnline
     then ret (Response.mk 503
                 (Response.error_body "Server not reachable. Try again later." None))
     else
       result <- sync clock uuid health remote batchSize fuel ;;
       ret (Response.mk 200
              (Response.sync_result
                 (SyncResult.mk (SyncResult.success result)
                    (SyncResult.synced_items result)
                    (SyncResult.failed_items result)
                    (SyncResult.errors result)))))
    (fun error =>
       ret (Response.mk 500
              (Response.error_body "Sync failed" (Some (JsError.message error))))).

(** [router.get('/status')] of [createSyncRouter] *)
Definition get_status : M Response.t :=
  try_catch
    (pendingTasks <- getTasksNeedingSync ;;
     let pendingCount := Z.of_nat (List.length pendingTasks) in
     lastSync <- select_max_last_synced_at ;;
     isOnline <- checkConnectivity health ;;
     ret (Response.mk 200
            (Response.sync_status pendingCount lastSync isOnline
               (if isOnline
                then if pendingCount >? 0 then "sync_pending" else "up_to_date"
                else "offline"))))
    (fun error =>
       ret (Response.mk 500
              (Response.error_body "Failed to fetch sync status"
                 (Some (JsError.message error))))).

(** [router.post('/batch')] of [createSyncRouter]; [items] is [None] when the
    body has no [items] or they are not an array. *)
Definition post_batch (items : option (list SyncQueueItem.t)) : M Response.t :=
  try_catch
    (match items with
     | None =>
         ret (Response.mk 400
                (Response.error_body
                   "Invalid batch request: items missing or invalid" None))
     | Some l =>
         let processed_items := batch_processed_items random 0 l in
         server_timestamp <- new_Date clock ;;
         ret (Response.mk 200
                (Response.batch
                   (BatchSyncResponse.mk processed_items server_timestamp)))
     end)
    (fun error =>
       ret (Response.mk 500
              (Response.error_body "Batch processing failed"
                 (Some (JsError.message error))))).

(** [router.get('/health')] of [createSyncRouter] *)
Definition get_health : M Response.t :=
  timestamp <- new_Date clock ;;
  ret (Response.mk 200 (Response.health timestamp)).

End Application.

(** The batch endpoint as the server that [sync] talks to: the answer to a
    request is the body that [post_batch] sends for its items. *)
Definition batch_endpoint (random : nat -> string) (server_clock : nat -> Date)
  (n : nat) (request : BatchSyncRequest.t) : JsError.t + BatchSyncResponse.t :=
  inr (BatchSyncResponse.mk
         (batch_processed_items random 0 (BatchSyncRequest.items request))
         (server_clock n)).

(** * Vocabulary of the properties and sample data *)

(** ** Running a computation *)

(** The result and the final world of a run. *)
Definition result_of {A : Type} (r : Res A * World) : Res A := fst r.
Definition world_of {A : Type} (r : Res A * World) : World := snd r.

(** [m] returns a value from every world: it neither throws nor diverges. *)
Definition returns {A : Type} (m : M A) : Prop :=
  forall w, exists a w', m w = (Ok a, w').

(** [m] returns [b] from every world. *)
Definition yields {A : Type} (b : A) (m : M A) : Prop :=
  forall w, exists w', m w = (Ok b, w').

(** ** Settling *)

(** The queue after [DELETE FROM sync_queue WHERE task_id = taskId]. *)
Definition settled_queue (taskId : string) (q : list SyncQueueItem.t)
  : list SyncQueueItem.t :=
  filter (fun r => negb (queue_task_is taskId r)) q.

(** The records after the update of [updateSyncStatus] with status [synced]. *)
Definition settled_tasks (taskId : string) (sid : option string) (now : Date)
  (ts : list Task.t) : list Task.t :=
  map (fun r => if task_id_is taskId r
                then settle_row SyncStatus.synced sid now r else r) ts.

(** ** The retry ledger *)

(** The queue after [UPDATE ... SET retry_count = retry_count + 1 ... WHERE id = i]. *)
Definition bumped_queue (msg i : string) (q : list SyncQueueItem.t)
  : list SyncQueueItem.t :=
  map (fun r => if queue_id_is i r then bump_retry msg r else r) q.

(** No row of [q] has the id [i]. *)
Definition absent (i : string) (q : list SyncQueueItem.t) : Prop :=
  forall x, In x q -> SyncQueueItem.id x <> i.

(** The world after the failures [errs] of [item] were recorded, in order. *)
Definition record_failures (item : SyncQueueItem.t) (errs : list JsError.t)
  (w : World) : World :=
  fold_left (fun w err => world_of (handleSyncError item err w)) errs w.

(** The row after the failures [errs] were written on it. *)
Definition bumped_row (errs : list JsError.t) (r : SyncQueueItem.t) : SyncQueueItem.t :=
  fold_left (fun r err => bump_retry (JsError.message err) r) errs r.

(** The retry updates among the statements [tr]: entry id and error text. *)
Definition retry_updates (tr : list Stmt) : list (string * string) :=
  flat_map (fun s => match s with
                     | UpdateRetryCount i msg => [(i, msg)]
                     | _ => []
                     end) tr.

(** ** The batching loop and the cycle *)

(** The number of batches still to come when the loop is at index [i]. *)
Definition batches_left (N B i : Z) : Z :=
  if i <? N then (N - i + B - 1) / B else 0.

(** The value of [i] after [k] rounds of [i += this.batchSize]. *)
(** The batch sizes with which the batching loop ends: the integers from 1
    on, and [NaN]. *)
Definition positive_or_NaN (batchSize : number) : Prop :=
  match batchSize with
  | Num B => 1 <= B
  | NaN => True
  end.

Definition loop_index (batchSize : number) (k : nat) : number :=
  Nat.iter k (fun i => num_add i batchSize) (Num 0).

(** The rows [sync] reads from a world, mapped to queue items. *)
Definition snapshot (w : World) : list SyncQueueItem.t :=
  map mapRowToQueueItem (order_by_created_at (sync_queue w)).

(** The world in which the batches of a cycle are processed. *)
Definition world_after_snapshot (w : World) : World :=
  record_stmt SelectSyncQueue (next_request w).

(** ** Conflict outcomes *)

Definition is_conflict (result : ProcessedItem.t) : Prop :=
  ProcessedItem.status result = Status.conflict.

(** The server answers every request, and with conflict outcomes only. *)
Definition answers_conflicts
  (remote : nat -> BatchSyncRequest.t -> JsError.t + BatchSyncResponse.t) : Prop :=
  forall n request, exists response,
    remote n request = inr response /\
    Forall is_conflict (BatchSyncResponse.processed_items response).

(** The task that [updateTask] builds from the local task [l] and the
    resolved task, stamped [now]. *)
Definition persisted_task (l remote_task : Task.t) (now : Date) : Task.t :=
  merge_updates l
    (PartialTask.of_Task
       (TaskObject.fields
          (resolveConflict (TaskObject.held l) (TaskObject.parsed remote_task)))) now.

(** The queue entry that [updateTask] adds for the resolved task. *)
Definition resolution_entry (uuid : nat -> string) (clock : nat -> Date)
  (l remote_task : Task.t) (w : World) : SyncQueueItem.t :=
  let resolved :=
    TaskObject.fields
      (resolveConflict (TaskObject.held l) (TaskObject.parsed remote_task)) in
  SyncQueueItem.mk (uuid (uuids w)) (Task.id resolved)
    Operation.update (PartialTask.of_Task resolved)
    (clock (S (dates w))) 0 None.

(** The outcome [result] with its status replaced by [success]. *)
Definition as_success (result : ProcessedItem.t) : ProcessedItem.t :=
  ProcessedItem.mk (ProcessedItem.client_id result) (ProcessedItem.server_id result)
    Status.success (ProcessedItem.resolved_data result) (ProcessedItem.error result).

(** ** Sample data *)

(** A clock that starts at 1000 and ticks once per reading, a fixed uuid,
    and the two answers of the health probe. *)
Definition sample_clock (n : nat) : Date := 1000 + Z.of_nat n.
Definition sample_uuid (n : nat) : string := "7d0c1a52".
Definition online (n : nat) : bool := true.
Definition offline (n : nat) : bool := false.

(** The record [t1] as stored, the copy of it the server holds, which is
    newer, and the stored record after a later local edit. *)
Definition local_row : Task.t :=
  Task.mk "t1" "milk" EmptyString false 10 50 false SyncStatus.pending None None.

Definition server_copy : Task.t :=
  Task.mk "t1" "oat milk" EmptyString true 10 80 false SyncStatus.synced
    (Some "srv-t1"%string) None.

Definition late_local_row : Task.t :=
  Task.mk "t1" "milk" EmptyString false 10 90 false SyncStatus.pending None None.

(** The record [t1] soft-deleted, and a copy of [t1] on the server that
    differs from the stored record in every date. *)
Definition deleted_local_row : Task.t :=
  Task.mk "t1" "milk" EmptyString false 10 50 true SyncStatus.pending None None.

Definition server_rewrite : Task.t :=
  Task.mk "t1" "oat milk" EmptyString true 12 80 false SyncStatus.synced
    (Some "srv-t1"%string) (Some 85).

(** Three queue entries that never failed. *)
Definition fresh_entry : SyncQueueItem.t :=
  SyncQueueItem.mk "q1" "t1" Operation.update
    (PartialTask.mk None (Some "milk"%string) None None None None None None None None)
    100 0 None.

Definition other_entry : SyncQueueItem.t :=
  SyncQueueItem.mk "q2" "t2" Operation.create
    (PartialTask.mk None (Some "eggs"%string) None None None None None None None None)
    200 0 None.

Definition third_entry : SyncQueueItem.t :=
  SyncQueueItem.mk "q3" "t1" Operation.delete
    (PartialTask.mk (Some "t1"%string) None None None None None None None None None)
    300 0 None.

Definition timeout_error : JsError.t := JsError.mk "timeout of 8000ms exceeded".

(** Two queued entries and no record; two queued entries and the record [t1]. *)
Definition two_entries : World :=
  mkWorld [] [fresh_entry; other_entry] [] 0 0 0.

Definition conflict_world : World :=
  mkWorld [local_row] [fresh_entry; other_entry] [] 0 0 0.

(** A conflict outcome for the record [t1] without resolved data. *)
Definition bare_conflict : ProcessedItem.t :=
  ProcessedItem.mk "t1" None Status.conflict None None.

(** A conflict outcome for the record [t1] with resolved data. *)
Definition data_conflict : ProcessedItem.t :=
  ProcessedItem.mk "t1" None Status.conflict (Some server_copy) None.

Definition rewrite_conflict : ProcessedItem.t :=
  ProcessedItem.mk "t1" None Status.conflict (Some server_rewrite) None.

(** Two queued entries and the soft-deleted record [t1]. *)
Definition deleted_world : World :=
  mkWorld [deleted_local_row] [fresh_entry; other_entry] [] 0 0 0.

(** A server that reports a conflict with resolved data for every entry. *)
Definition conflict_server (n : nat) (request : BatchSyncRequest.t)
  : JsError.t + BatchSyncResponse.t :=
  inr (BatchSyncResponse.mk
         (map (fun item => ProcessedItem.mk (SyncQueueItem.task_id item) None
                             Status.conflict (Some server_copy) None)
            (BatchSyncRequest.items request))
         2000).

(** A server that cannot be reached for a batch. *)
Definition failing_server (n : nat) (request : BatchSyncRequest.t)
  : JsError.t + BatchSyncResponse.t :=
  inl timeout_error.

(** ** Invariants of a run *)

(** [m] keeps the relation [R] between the world it starts from and the
    world it ends in, whatever its result. *)
Definition keeps (R : World -> World -> Prop) {A : Type} (m : M A) : Prop :=
  forall w, R w (snd (m w)).

(** No record is added or removed, and no id or creation date changes. *)
Definition same_records (w w' : World) : Prop :=
  map Task.id (tasks w') = map Task.id (tasks w) /\
  map Task.created_at (tasks w') = map Task.created_at (tasks w).

(** The counts are not negative and every listed error was counted. *)
Definition totals_ok (acc : Totals) : Prop :=
  0 <= totalSynced acc /\ 0 <= totalFailed acc /\
  Z.of_nat (List.length (errors acc)) <= totalFailed acc.

(** ** Steps of a cycle *)

(** The world once a batch was sent: one date read, one request made. *)
Definition after_dispatch (w : World) : World :=
  mkWorld (tasks w) (sync_queue w) (trace w) (S (dates w)) (uuids w) (S (requests w)).

(** The world once a date was read. *)
Definition after_date (w : World) : World :=
  mkWorld (tasks w) (sync_queue w) (trace w) (S (dates w)) (uuids w) (requests w).

(** The totals after an error outcome [result] read at the date [now]. *)
Definition failed_totals (result : ProcessedItem.t) (now : Date) (acc : Totals) : Totals :=
  mkTotals (totalSynced acc) (totalFailed acc + 1)
    (errors acc ++
       [SyncError.mk (ProcessedItem.client_id result) "unknown"
          (or_default (ProcessedItem.error result) "Sync failed") now]).

(** The error that an error outcome records on its queue entry. *)
Definition ledger_error (result : ProcessedItem.t) : JsError.t :=
  JsError.mk (or_default (ProcessedItem.error result) "Sync error").

(** ** Settled records *)

(** [i] is one of the ids [S]. *)
Definition id_in (S : list string) (i : string) : bool :=
  existsb (String.eqb i) S.

(** The queue without the entries of the records [S]. *)
Definition queue_without (S : list string) (q : list SyncQueueItem.t)
  : list SyncQueueItem.t :=
  filter (fun x => negb (id_in S (SyncQueueItem.task_id x))) q.

(** From [w] to [w'] exactly the records [S] were settled: their queue
    entries are gone and their rows are synced, the other rows are as they
    were. *)
Definition settled_between (S : list string) (w w' : World) : Prop :=
  sync_queue w' = queue_without S (sync_queue w) /\
  List.length (tasks w') = List.length (tasks w) /\
  forall n row, nth_error (tasks w) n = Some row ->
    exists row', nth_error (tasks w') n = Some row' /\
      Task.id row' = Task.id row /\
      (id_in S (Task.id row) = true -> Task.sync_status row' = SyncStatus.synced) /\
      (id_in S (Task.id row) = false -> row' = row).

(** The server answers every entry of every request with a success outcome,
    and the client id of the outcome is the [key] of the entry. *)
Definition answers_success (key : SyncQueueItem.t -> string)
  (remote : nat -> BatchSyncRequest.t -> JsError.t + BatchSyncResponse.t) : Prop :=
  forall n request, exists response,
    remote n request = inr response /\
    Forall (fun result => ProcessedItem.status result = Status.success)
      (BatchSyncResponse.processed_items response) /\
    map ProcessedItem.client_id (BatchSyncResponse.processed_items response) =
    map key (BatchSyncRequest.items request).

(** A server that reports success for the record of every entry. *)
Definition success_server (n : nat) (request : BatchSyncRequest.t)
  : JsError.t + BatchSyncResponse.t :=
  inr (BatchSyncResponse.mk
         (map (fun item => ProcessedItem.mk (SyncQueueItem.task_id item) None
                             Status.success None None)
            (BatchSyncRequest.items request))
         2000).

Definition sample_random (k : nat) : string := "k3x9".

(** ** Failed dispatches *)

(** The queue after one call of [handleSyncError] on the entry [i] with the
    error text [msg]. *)
Definition fail_queue (i msg : string) (q : list SyncQueueItem.t)
  : list SyncQueueItem.t :=
  match find (queue_id_is i) (bumped_queue msg i q) with
  | Some x =>
      if SyncQueueItem.retry_count x >? maxRetries
      then filter (fun r => negb (queue_id_is i r)) (bumped_queue msg i q)
      else bumped_queue msg i q
  | None => bumped_queue msg i q
  end.

(** The queue after the failures [steps], entry id and error text, in order. *)
Definition fail_queue_all (steps : list (string * string)) (q : list SyncQueueItem.t)
  : list SyncQueueItem.t :=
  fold_left (fun q p => fail_queue (fst p) (snd p) q) steps q.

(** [r] is the only row of [q] with its id. *)
Definition only_row (r : SyncQueueItem.t) (q : list SyncQueueItem.t) : Prop :=
  In r q /\ forall x, In x q -> SyncQueueItem.id x = SyncQueueItem.id r -> x = r.

(** The server rejects every request. *)
Definition rejects_all
  (remote : nat -> BatchSyncRequest.t -> JsError.t + BatchSyncResponse.t) : Prop :=
  forall n request, exists err, remote n request = inl err.

(** ** The requests of a cycle *)

(** No request was made between [w] and [w']. *)
Definition no_request (w w' : World) : Prop := requests w' = requests w.

(** * Properties *)

Lemma truthy_Some (s : option string) (x : string) :
  truthy s = Some x <-> s = Some x /\ x <> EmptyString.
Proof.
  unfold truthy. destruct s as [y|].
  - destruct (String.eqb_spec y EmptyString) as [E|E]; split.
    + discriminate.
    + intros [H1 H2]. inversion H1; subst. contradiction.
    + intros H; inversion H; subst. split; [reflexivity | assumption].
    + intros [H1 _]. exact H1.
  - split; [discriminate | intros [H _]; discriminate].
Qed.

Lemma truthy_None (s : option string) :
  truthy s = None <-> s = None \/ s = Some EmptyString.
Proof.
  unfold truthy. destruct s as [y|].
  - destruct (String.eqb_spec y EmptyString) as [E|E]; split; intros H.
    + right. now subst.
    + reflexivity.
    + discriminate.
    + destruct H as [H|H]; [discriminate | inversion H; contradiction].
  - split; auto.
Qed.

(** ** The conflict resolver *)


(** Between two tasks that both hold [Date] objects the later write wins,
    the second argument on a tie. *)
Remark resolveConflict_of_Date_objects (localTask serverTask : Task.t) :
  resolveConflict (TaskObject.held localTask) (TaskObject.held serverTask) =
  if Task.updated_at localTask >? Task.updated_at serverTask
  then TaskObject.held localTask
  else TaskObject.held serverTask.
Proof. reflexivity. Qed.

(** C1. The stored record [t1] was edited at 90, the copy in the reply at
    80, and the resolver still returns the copy of the reply: the remote
    record arrives as parsed JSON, its [updated_at] is text, and the
    comparison of a [Date] with it is false whatever the two dates are.
    Last write wins only between two tasks that hold [Date] objects. *)
Theorem resolveConflict_newer_local_record_loses :
  Task.updated_at late_local_row > Task.updated_at server_copy /\
  resolveConflict (TaskObject.held (mapRowToTask late_local_row))
    (TaskObject.parsed server_copy) = TaskObject.parsed server_copy /\
  (forall localTask serverTask : Task.t,
     resolveConflict (TaskObject.held localTask) (TaskObject.parsed serverTask) =
     TaskObject.parsed serverTask) /\
  (forall localTask serverTask : Task.t,
     (Task.updated_at localTask > Task.updated_at serverTask ->
      resolveConflict (TaskObject.held localTask) (TaskObject.held serverTask) =
      TaskObject.held localTask) /\
     (Task.updated_at localTask <= Task.updated_at serverTask ->
      resolveConflict (TaskObject.held localTask) (TaskObject.held serverTask) =
      TaskObject.held serverTask)).
Proof.
  split; [cbn; lia|]. split; [reflexivity|]. split; [reflexivity|].
  intros localTask serverTask. unfold resolveConflict.
  cbn [TaskObject.updated_at js_gt].
  destruct (Z.gtb_spec (Task.updated_at localTask) (Task.updated_at serverTask));
    split; intros; try reflexivity; lia.
Qed.

(** ** The connectivity gate *)

(** C3. When the probe reports the server unreachable, [sync] returns
    [success = false], zero counts and exactly one error entry, tagged
    [global]; no statement is run on the database, and the queue and the
    records are as before. *)
Theorem sync_unreachable_leaves_database
  (clock : nat -> Date) (uuid : nat -> string) (health : nat -> bool)
  (remote : nat -> BatchSyncRequest.t -> JsError.t + BatchSyncResponse.t)
  (batchSize : number) (fuel : nat) (w : World) :
  health (requests w) = false ->
  let r := sync clock uuid health remote batchSize fuel w in
  result_of r =
    Ok (SyncResult.mk false 0 0
          [SyncError.mk "global" "sync" "Server not reachable" (clock (dates w))]) /\
  sync_queue (world_of r) = sync_queue w /\
  tasks (world_of r) = tasks w /\
  trace (world_of r) = trace w.
Proof.
  intros H r. subst r.
  unfold sync, try_catch, bind, checkConnectivity.
  rewrite H. cbn. repeat split.
Qed.

(** ** Settling a record *)

Lemma updateSyncStatus_synced_run
  (clock : nat -> Date) (taskId : string) (serverData : option PartialTask.t)
  (w : World) :
  updateSyncStatus clock taskId SyncStatus.synced serverData w =
  (Ok tt,
   mkWorld
     (settled_tasks taskId (provided_server_id serverData) (clock (dates w)) (tasks w))
     (settled_queue taskId (sync_queue w))
     ((trace w ++ [UpdateSyncStatus taskId]) ++ [DeleteSyncQueueByTask taskId])
     (S (dates w)) (uuids w) (requests w)).
Proof. reflexivity. Qed.

Lemma settled_queue_In (taskId : string) (q : list SyncQueueItem.t)
  (x : SyncQueueItem.t) :
  In x (settled_queue taskId q) <-> In x q /\ SyncQueueItem.task_id x <> taskId.
Proof.
  unfold settled_queue, queue_task_is. rewrite filter_In.
  destruct (String.eqb_spec (SyncQueueItem.task_id x) taskId); cbn;
    intuition congruence.
Qed.

Lemma settled_queue_idem (taskId : string) (q : list SyncQueueItem.t) :
  settled_queue taskId (settled_queue taskId q) = settled_queue taskId q.
Proof.
  unfold settled_queue. induction q as [|x q IH]; cbn; [reflexivity|].
  destruct (negb (queue_task_is taskId x)) eqn:E; cbn.
  - rewrite E. now rewrite IH.
  - exact IH.
Qed.

Lemma settled_tasks_nth (taskId : string) (sid : option string) (now : Date)
  (ts : list Task.t) (n : nat) :
  nth_error (settled_tasks taskId sid now ts) n =
  option_map (fun r => if task_id_is taskId r
                       then settle_row SyncStatus.synced sid now r else r)
    (nth_error ts n).
Proof. unfold settled_tasks. apply nth_error_map. Qed.

Lemma process_result_success_run (clock : nat -> Date) (uuid : nat -> string)
  (batch : list SyncQueueItem.t) (result : ProcessedItem.t) (acc : Totals)
  (w : World) :
  ProcessedItem.status result = Status.success ->
  process_result clock uuid batch result acc w =
    (Ok (mkTotals (totalSynced acc + 1) (totalFailed acc) (errors acc)),
     world_of (updateSyncStatus clock (ProcessedItem.client_id result)
                 SyncStatus.synced
                 (option_map PartialTask.of_Task (ProcessedItem.resolved_data result))
                 w)).
Proof.
  intros Hs. unfold process_result. rewrite Hs. unfold bind.
  rewrite updateSyncStatus_synced_run. reflexivity.
Qed.

(** C5. Settling a record as synced sets the synchronisation state of the
    record to [synced], sets its [server_id] when the server data carries a
    non-empty one and keeps the stored one otherwise, stamps
    [last_synced_at] with the current date, keeps every other field and every
    other record, and removes from the queue exactly the entries whose
    [task_id] is that record.  A success outcome of the cycle settles in this
    way, with its client id and its resolved data. *)
Theorem updateSyncStatus_synced_settles
  (clock : nat -> Date) (uuid : nat -> string) (taskId : string)
  (serverData : option PartialTask.t) (w : World) :
  let r := updateSyncStatus clock taskId SyncStatus.synced serverData w in
  let sent := match serverData with
              | Some d => PartialTask.server_id d
              | None => None
              end in
  result_of r = Ok tt /\
  List.length (tasks (world_of r)) = List.length (tasks w) /\
  (forall n row, nth_error (tasks w) n = Some row -> Task.id row = taskId ->
     exists row', nth_error (tasks (world_of r)) n = Some row' /\
       Task.sync_status row' = SyncStatus.synced /\
       Task.last_synced_at row' = Some (clock (dates w)) /\
       (forall s, sent = Some s -> s <> EmptyString -> Task.server_id row' = Some s) /\
       (sent = None \/ sent = Some EmptyString ->
        Task.server_id row' = Task.server_id row) /\
       Task.id row' = Task.id row /\ Task.title row' = Task.title row /\
       Task.description row' = Task.description row /\
       Task.completed row' = Task.completed row /\
       Task.created_at row' = Task.created_at row /\
       Task.updated_at row' = Task.updated_at row /\
       Task.is_deleted row' = Task.is_deleted row) /\
  (forall n row, nth_error (tasks w) n = Some row -> Task.id row <> taskId ->
     nth_error (tasks (world_of r)) n = Some row) /\
  (forall q, In q (sync_queue (world_of r)) <->
     In q (sync_queue w) /\ SyncQueueItem.task_id q <> taskId) /\
  (forall batch result acc,
     ProcessedItem.status result = Status.success ->
     ProcessedItem.client_id result = taskId ->
     option_map PartialTask.of_Task (ProcessedItem.resolved_data result) = serverData ->
     world_of (process_result clock uuid batch result acc w) = world_of r /\
     result_of (process_result clock uuid batch result acc w) =
       Ok (mkTotals (totalSynced acc + 1) (totalFailed acc) (errors acc))).
Proof.
  intros r sent. subst r.
  assert (Hcycle : forall batch result acc,
     ProcessedItem.status result = Status.success ->
     ProcessedItem.client_id result = taskId ->
     option_map PartialTask.of_Task (ProcessedItem.resolved_data result) = serverData ->
     world_of (process_result clock uuid batch result acc w) =
       world_of (updateSyncStatus clock taskId SyncStatus.synced serverData w) /\
     result_of (process_result clock uuid batch result acc w) =
       Ok (mkTotals (totalSynced acc + 1) (totalFailed acc) (errors acc))).
  { intros batch result acc Hs Hc Hd.
    rewrite (process_result_success_run clock uuid batch result acc w Hs), Hc, Hd.
    split; reflexivity. }
  rewrite updateSyncStatus_synced_run in *.
  unfold result_of, world_of in *. cbn [fst snd tasks sync_queue] in *.
  split; [reflexivity|].
  split; [unfold settled_tasks; apply length_map|].
  split.
  { intros n row Hn Hid. rewrite settled_tasks_nth, Hn. cbn.
    unfold task_id_is. rewrite (proj2 (String.eqb_eq _ _) Hid).
    eexists. split; [reflexivity|]. cbn.
    split; [reflexivity|]. split; [reflexivity|].
    split.
    { intros s Hs Hne. unfold provided_server_id. fold sent.
      rewrite (proj2 (truthy_Some sent s) (conj Hs Hne)). reflexivity. }
    split.
    { intros Hs. unfold provided_server_id. fold sent.
      rewrite (proj2 (truthy_None sent) Hs). reflexivity. }
    repeat split. }
  split.
  { intros n row Hn Hid. rewrite settled_tasks_nth, Hn. cbn.
    unfold task_id_is. rewrite (proj2 (String.eqb_neq _ _) Hid). reflexivity. }
  split; [intros q; apply settled_queue_In | exact Hcycle].
Qed.

Lemma coalesce_idem {A : Type} (a b : option A) :
  coalesce a (coalesce a b) = coalesce a b.
Proof. destruct a; reflexivity. Qed.

(** C6. Settling the same record as synced twice in a row: after the second
    settle every row of that record is [synced] and the queue holds no entry
    for it; the second settle leaves the queue as the first one left it and
    changes no field of any row but [last_synced_at] (stamped again), and
    [server_id] only when the second outcome carries another one. *)
Theorem updateSyncStatus_synced_twice
  (clock : nat -> Date) (taskId : string)
  (serverData1 serverData2 : option PartialTask.t) (w : World) :
  let r1 := updateSyncStatus clock taskId SyncStatus.synced serverData1 w in
  let r2 := updateSyncStatus clock taskId SyncStatus.synced serverData2 (world_of r1) in
  result_of r1 = Ok tt /\ result_of r2 = Ok tt /\
  (forall row, In row (tasks w) -> Task.id row = taskId ->
     exists row', In row' (tasks (world_of r2)) /\ Task.id row' = taskId) /\
  (forall row, In row (tasks (world_of r2)) -> Task.id row = taskId ->
     Task.sync_status row = SyncStatus.synced) /\
  (forall q, In q (sync_queue (world_of r2)) -> SyncQueueItem.task_id q <> taskId) /\
  sync_queue (world_of r2) = sync_queue (world_of r1) /\
  (forall n row1, nth_error (tasks (world_of r1)) n = Some row1 ->
     exists row2, nth_error (tasks (world_of r2)) n = Some row2 /\
       Task.sync_status row2 = Task.sync_status row1 /\
       Task.id row2 = Task.id row1 /\ Task.title row2 = Task.title row1 /\
       Task.description row2 = Task.description row1 /\
       Task.completed row2 = Task.completed row1 /\
       Task.created_at row2 = Task.created_at row1 /\
       Task.updated_at row2 = Task.updated_at row1 /\
       Task.is_deleted row2 = Task.is_deleted row1 /\
       (provided_server_id serverData2 = provided_server_id serverData1 ->
        Task.server_id row2 = Task.server_id row1)).
Proof.
  intros r1 r2. subst r1 r2. rewrite !updateSyncStatus_synced_run.
  unfold result_of, world_of. cbn [fst snd tasks sync_queue dates].
  split; [reflexivity|]. split; [reflexivity|].
  split.
  { intros row Hin Hid. eexists. split.
    - unfold settled_tasks. apply in_map, in_map. exact Hin.
    - unfold task_id_is. rewrite (proj2 (String.eqb_eq _ _) Hid). cbn.
      rewrite (proj2 (String.eqb_eq _ _) Hid). cbn. exact Hid. }
  split.
  { intros row Hin Hid. unfold settled_tasks in Hin at 1.
    apply in_map_iff in Hin. destruct Hin as [x [Hx _]]. subst row.
    unfold task_id_is in *.
    destruct (String.eqb_spec (Task.id x) taskId) as [E|E]; [reflexivity|].
    contradiction. }
  split.
  { intros q Hin. apply settled_queue_In in Hin. tauto. }
  split; [apply settled_queue_idem|].
  intros n row1 Hn. rewrite settled_tasks_nth, Hn. cbn.
  eexists. split; [reflexivity|].
  rewrite settled_tasks_nth in Hn.
  destruct (nth_error (tasks w) n) as [row0|]; [|discriminate].
  cbn in Hn. inversion Hn; subst row1; clear Hn.
  unfold task_id_is.
  destruct (String.eqb_spec (Task.id row0) taskId) as [E|E]; cbn.
  - rewrite (proj2 (String.eqb_eq _ _) E). cbn. repeat split.
    intros Hs. rewrite Hs. apply coalesce_idem.
  - rewrite (proj2 (String.eqb_neq _ _) E). repeat split.
Qed.

(** ** The retry ledger *)

Lemma find_absent (i : string) (q : list SyncQueueItem.t) :
  find (queue_id_is i) q = None <-> absent i q.
Proof.
  unfold absent, queue_id_is. induction q as [|y q IH]; cbn.
  - split; [intros _ x []|reflexivity].
  - destruct (String.eqb_spec (SyncQueueItem.id y) i) as [E|E].
    + split; [discriminate|]. intros H. exfalso. apply (H y); auto.
    + rewrite IH. split.
      * intros H x [Hx|Hx]; [now subst x|auto].
      * intros H x Hx. apply H. now right.
Qed.

Lemma find_bumped (msg i : string) (q : list SyncQueueItem.t) :
  find (queue_id_is i) (bumped_queue msg i q) =
  option_map (bump_retry msg) (find (queue_id_is i) q).
Proof.
  unfold bumped_queue. induction q as [|y q IH]; cbn; [reflexivity|].
  destruct (queue_id_is i y) eqn:E.
  - unfold queue_id_is in *. cbn. rewrite E. reflexivity.
  - rewrite E. exact IH.
Qed.

Lemma bumped_absent (msg i : string) (q : list SyncQueueItem.t) :
  absent i q -> bumped_queue msg i q = q.
Proof.
  unfold absent, bumped_queue. induction q as [|y q IH]; cbn; intros H.
  - reflexivity.
  - unfold queue_id_is at 1.
    rewrite (proj2 (String.eqb_neq _ _) (H y (or_introl eq_refl))).
    f_equal. apply IH. intros x Hx. apply H. now right.
Qed.

Lemma bumped_other (msg i : string) (q : list SyncQueueItem.t) (x : SyncQueueItem.t) :
  SyncQueueItem.id x <> i -> (In x (bumped_queue msg i q) <-> In x q).
Proof.
  intros Hx. unfold bumped_queue. rewrite in_map_iff. split.
  - intros [y [Hy Hin]]. unfold queue_id_is in Hy.
    destruct (String.eqb_spec (SyncQueueItem.id y) i) as [E|E].
    + subst x. cbn in Hx. contradiction.
    + now subst y.
  - intros Hin. exists x. split; [|assumption].
    unfold queue_id_is. now rewrite (proj2 (String.eqb_neq _ _) Hx).
Qed.

Lemma deleted_absent (i : string) (q : list SyncQueueItem.t) :
  absent i (filter (fun r => negb (queue_id_is i r)) q).
Proof.
  intros x Hx. apply filter_In in Hx. destruct Hx as [_ Hx].
  unfold queue_id_is in Hx. intros E.
  rewrite (proj2 (String.eqb_eq _ _) E) in Hx. discriminate.
Qed.

Lemma deleted_other (i : string) (q : list SyncQueueItem.t) (x : SyncQueueItem.t) :
  SyncQueueItem.id x <> i ->
  (In x (filter (fun r => negb (queue_id_is i r)) q) <-> In x q).
Proof.
  intros Hx. rewrite filter_In. unfold queue_id_is.
  rewrite (proj2 (String.eqb_neq _ _) Hx). cbn. tauto.
Qed.

(** The queue that one call of [handleSyncError] leaves. *)
Lemma handleSyncError_queue (item : SyncQueueItem.t) (err : JsError.t) (w : World) :
  let i := SyncQueueItem.id item in
  let q1 := bumped_queue (JsError.message err) i (sync_queue w) in
  result_of (handleSyncError item err w) = Ok tt /\
  sync_queue (world_of (handleSyncError item err w)) =
  match find (queue_id_is i) q1 with
  | Some x =>
      if SyncQueueItem.retry_count x >? maxRetries
      then filter (fun r => negb (queue_id_is i r)) q1
      else q1
  | None => q1
  end /\
  tasks (world_of (handleSyncError item err w)) = tasks w.
Proof.
  intros i q1. subst i q1.
  unfold handleSyncError, update_retry_count, select_retry_count,
    delete_sync_queue_by_id, bind, modify, gets, ret, result_of, world_of.
  cbn. fold (bumped_queue (JsError.message err) (SyncQueueItem.id item) (sync_queue w)).
  destruct (find (queue_id_is (SyncQueueItem.id item))
              (bumped_queue (JsError.message err) (SyncQueueItem.id item) (sync_queue w)))
    as [x|]; cbn.
  - destruct (SyncQueueItem.retry_count x >? maxRetries); cbn; repeat split.
  - repeat split.
Qed.

Lemma record_failures_absent (item : SyncQueueItem.t) (errs : list JsError.t) :
  forall w, absent (SyncQueueItem.id item) (sync_queue w) ->
  sync_queue (record_failures item errs w) = sync_queue w.
Proof.
  induction errs as [|e errs IH]; intros w H; [reflexivity|].
  change (record_failures item (e :: errs) w)
    with (record_failures item errs (world_of (handleSyncError item e w))).
  destruct (handleSyncError_queue item e w) as [_ [Hq _]].
  cbn zeta in Hq. rewrite (bumped_absent _ _ _ H) in Hq.
  rewrite (proj2 (find_absent _ _) H) in Hq.
  rewrite IH; rewrite Hq; [reflexivity | assumption].
Qed.

Lemma record_failures_present (item : SyncQueueItem.t) (errs : list JsError.t) :
  forall (w : World) (r : SyncQueueItem.t),
  find (queue_id_is (SyncQueueItem.id item)) (sync_queue w) = Some r ->
  SyncQueueItem.retry_count r <= maxRetries ->
  let w' := record_failures item errs w in
  (SyncQueueItem.retry_count r + Z.of_nat (List.length errs) <= maxRetries ->
   find (queue_id_is (SyncQueueItem.id item)) (sync_queue w') = Some (bumped_row errs r)) /\
  (SyncQueueItem.retry_count r + Z.of_nat (List.length errs) > maxRetries ->
   absent (SyncQueueItem.id item) (sync_queue w')).
Proof.
  induction errs as [|e errs IH]; intros w r Hf Hc w'; subst w'.
  - cbn. split; [intros _; exact Hf | intros H; lia].
  - cbn [record_failures fold_left bumped_row List.length].
    rewrite Nat2Z.inj_succ.
    destruct (handleSyncError_queue item e w) as [_ [Hq _]]. cbn zeta in Hq.
    rewrite find_bumped, Hf in Hq. cbn [option_map] in Hq.
    change (SyncQueueItem.retry_count (bump_retry (JsError.message e) r))
      with (SyncQueueItem.retry_count r + 1) in Hq.
    destruct (Z.gtb_spec (SyncQueueItem.retry_count r + 1) maxRetries) as [G|G].
    + assert (Ha : absent (SyncQueueItem.id item)
                     (sync_queue (world_of (handleSyncError item e w)))).
      { rewrite Hq. apply deleted_absent. }
      split; intros H.
      * lia.
      * fold (record_failures item errs (world_of (handleSyncError item e w))).
        rewrite record_failures_absent by exact Ha. exact Ha.
    + assert (Hf' : find (queue_id_is (SyncQueueItem.id item))
                      (sync_queue (world_of (handleSyncError item e w))) =
                    Some (bump_retry (JsError.message e) r)).
      { rewrite Hq, find_bumped, Hf. reflexivity. }
      specialize (IH _ _ Hf').
      change (SyncQueueItem.retry_count (bump_retry (JsError.message e) r))
        with (SyncQueueItem.retry_count r + 1) in IH.
      cbn zeta in IH. destruct IH as [IH1 IH2]; [lia|].
      split; intros H; [apply IH1 | apply IH2]; lia.
Qed.

Lemma record_failures_other (item : SyncQueueItem.t) (errs : list JsError.t)
  (x : SyncQueueItem.t) :
  SyncQueueItem.id x <> SyncQueueItem.id item ->
  forall w, In x (sync_queue (record_failures item errs w)) <-> In x (sync_queue w).
Proof.
  intros Hx. induction errs as [|e errs IH]; intros w; [cbn; tauto|].
  change (record_failures item (e :: errs) w)
    with (record_failures item errs (world_of (handleSyncError item e w))).
  rewrite IH. destruct (handleSyncError_queue item e w) as [_ [Hq _]].
  cbn zeta in Hq. rewrite Hq.
  destruct (find _ _) as [y|]; [destruct (_ >? _)|];
    rewrite ?deleted_other by exact Hx; apply bumped_other; exact Hx.
Qed.

Lemma bumped_row_snoc (errs : list JsError.t) (e : JsError.t) (r : SyncQueueItem.t) :
  bumped_row (errs ++ [e]) r = bump_retry (JsError.message e) (bumped_row errs r).
Proof. unfold bumped_row. now rewrite fold_left_app. Qed.

Lemma bumped_row_fields (errs : list JsError.t) :
  forall r,
  SyncQueueItem.retry_count (bumped_row errs r) =
    SyncQueueItem.retry_count r + Z.of_nat (List.length errs) /\
  SyncQueueItem.id (bumped_row errs r) = SyncQueueItem.id r /\
  SyncQueueItem.task_id (bumped_row errs r) = SyncQueueItem.task_id r /\
  SyncQueueItem.operation (bumped_row errs r) = SyncQueueItem.operation r /\
  SyncQueueItem.data (bumped_row errs r) = SyncQueueItem.data r /\
  SyncQueueItem.created_at (bumped_row errs r) = SyncQueueItem.created_at r.
Proof.
  induction errs as [|e errs IH]; intros r.
  - cbn. repeat split. lia.
  - change (bumped_row (e :: errs) r)
      with (bumped_row errs (bump_retry (JsError.message e) r)).
    destruct (IH (bump_retry (JsError.message e) r)) as (H1 & H2 & H3 & H4 & H5 & H6).
    rewrite H1, H2, H3, H4, H5, H6. cbn [List.length]. rewrite Nat2Z.inj_succ.
    cbn. repeat split. lia.
Qed.

Lemma insert_by_created_at_In (x y : SyncQueueItem.t) (l : list SyncQueueItem.t) :
  In y (insert_by_created_at x l) <-> y = x \/ In y l.
Proof.
  induction l as [|z l IH]; cbn [insert_by_created_at In].
  - intuition.
  - destruct (text_leb _ _); cbn [In]; [intuition|]. rewrite IH. intuition.
Qed.

Lemma order_by_created_at_In (y : SyncQueueItem.t) (l : list SyncQueueItem.t) :
  In y (order_by_created_at l) <-> In y l.
Proof.
  unfold order_by_created_at. induction l as [|z l IH]; cbn; [tauto|].
  rewrite insert_by_created_at_In, IH. intuition.
Qed.

Lemma find_In_queue (i : string) (q : list SyncQueueItem.t) (r : SyncQueueItem.t) :
  find (queue_id_is i) q = Some r -> In r q /\ SyncQueueItem.id r = i.
Proof.
  intros H. apply find_some in H. destruct H as [H1 H2]. split; [assumption|].
  now apply String.eqb_eq.
Qed.

(** C4. Each recorded failure adds one to the retry count of the entry and
    stores the text of the error.  An entry whose count plus the number of
    recorded failures stays within [maxRetries] (3) is still in the queue,
    and in the snapshot, with the count raised by that number and the text
    of the last error; once the count exceeds [maxRetries] (for a fresh
    entry: after exactly [maxRetries + 1] failures) no entry with that id is
    in the queue or in a snapshot taken afterwards.  The entries with another
    id are not touched. *)
Theorem handleSyncError_retry_expiry
  (item r : SyncQueueItem.t) (errs : list JsError.t) (w : World) :
  find (queue_id_is (SyncQueueItem.id item)) (sync_queue w) = Some r ->
  SyncQueueItem.retry_count r <= maxRetries ->
  let n := Z.of_nat (List.length errs) in
  let w' := record_failures item errs w in
  maxRetries = 3 /\
  (SyncQueueItem.retry_count r + n <= maxRetries ->
   exists r',
     find (queue_id_is (SyncQueueItem.id item)) (sync_queue w') = Some r' /\
     SyncQueueItem.retry_count r' = SyncQueueItem.retry_count r + n /\
     (forall errs0 e, errs = errs0 ++ [e] ->
        SyncQueueItem.error_message r' = Some (JsError.message e)) /\
     SyncQueueItem.id r' = SyncQueueItem.id r /\
     SyncQueueItem.task_id r' = SyncQueueItem.task_id r /\
     SyncQueueItem.operation r' = SyncQueueItem.operation r /\
     SyncQueueItem.data r' = SyncQueueItem.data r /\
     SyncQueueItem.created_at r' = SyncQueueItem.created_at r /\
     (forall items, result_of (select_sync_queue w') = Ok items -> In r' items)) /\
  (SyncQueueItem.retry_count r + n > maxRetries ->
   absent (SyncQueueItem.id item) (sync_queue w') /\
   exists items, result_of (select_sync_queue w') = Ok items /\
     absent (SyncQueueItem.id item) items) /\
  (SyncQueueItem.retry_count r = 0 -> n = maxRetries + 1 ->
   absent (SyncQueueItem.id item) (sync_queue w')) /\
  (forall x, SyncQueueItem.id x <> SyncQueueItem.id item ->
     (In x (sync_queue w') <-> In x (sync_queue w))).
Proof.
  intros Hf Hc n w'. subst n w'.
  destruct (record_failures_present item errs w r Hf Hc) as [Hp Ha].
  split; [reflexivity|]. split; [|split; [|split]].
  - intros H. specialize (Hp H). exists (bumped_row errs r).
    destruct (bumped_row_fields errs r) as (H1 & H2 & H3 & H4 & H5 & H6).
    split; [exact Hp|]. split; [exact H1|]. split.
    { intros errs0 e ->. rewrite bumped_row_snoc. reflexivity. }
    repeat (split; [assumption|]).
    intros items Hi. cbn in Hi. inversion Hi; subst items.
    apply order_by_created_at_In. apply find_In_queue in Hp. tauto.
  - intros H. specialize (Ha H). split; [exact Ha|].
    eexists. split; [reflexivity|].
    intros x Hx. apply (Ha x). apply order_by_created_at_In. exact Hx.
  - intros H0 Hn. apply Ha. lia.
  - intros x Hx. now apply record_failures_other.
Qed.

(** A fresh entry is gone after four failures, the other entry stays. *)
Lemma handleSyncError_retry_expiry_witness :
  absent "q1"
    (sync_queue (record_failures fresh_entry
                   [timeout_error; timeout_error; timeout_error; timeout_error]
                   two_entries)) /\
  sync_queue (record_failures fresh_entry
                [timeout_error; timeout_error; timeout_error; timeout_error]
                two_entries) = [other_entry].
Proof.
  split.
  - refine (proj1 (proj2 (proj2 (proj2
      (handleSyncError_retry_expiry fresh_entry fresh_entry
         [timeout_error; timeout_error; timeout_error; timeout_error]
         two_entries _ _)))) _ _).
    + reflexivity.
    + unfold maxRetries. cbn. lia.
    + reflexivity.
    + reflexivity.
  - reflexivity.
Defined.

(** ** The batching loop *)

Lemma slice_step {A : Type} (l : list A) (i B : Z) :
  0 <= i < Z.of_nat (List.length l) -> 1 <= B ->
  slice l (Num i) (num_add (Num i) (Num B)) =
  firstn (Z.to_nat (Z.min B (Z.of_nat (List.length l) - i))) (skipn (Z.to_nat i) l).
Proof.
  intros Hi HB. unfold slice, num_add, ToIntegerOrInfinity, relative_index.
  destruct (Z.ltb_spec i 0); [lia|].
  destruct (Z.ltb_spec (i + B) 0); [lia|].
  f_equal; [lia | f_equal; lia].
Qed.

Lemma skipn_split {A : Type} (l : list A) (a b : nat) :
  firstn b (skipn a l) ++ skipn (a + b) l = skipn a l.
Proof.
  rewrite Nat.add_comm, <- skipn_skipn. apply firstn_skipn.
Qed.

Lemma batches_left_step (N B i : Z) :
  1 <= B -> i < N -> batches_left N B i = 1 + batches_left N B (i + B).
Proof.
  intros HB Hi. unfold batches_left.
  destruct (Z.ltb_spec i N); [|lia].
  destruct (Z.ltb_spec (i + B) N).
  - replace (N - i + B - 1) with ((N - (i + B) + B - 1) + 1 * B) by lia.
    rewrite Z.div_add by lia. lia.
  - symmetry. apply Z.div_unique with (r := N - i - 1); lia.
Qed.

Lemma batch_loop_from (B : Z) (items : list SyncQueueItem.t) :
  1 <= B ->
  let N := Z.of_nat (List.length items) in
  forall (fuel : nat) (i : Z) (acc : list (list SyncQueueItem.t)),
  0 <= i -> Z.max 0 (N - i) < Z.of_nat fuel ->
  exists bs,
    batch_loop (Num B) fuel items (Num i) acc = Some (acc ++ bs) /\
    List.concat bs = skipn (Z.to_nat i) items /\
    Z.of_nat (List.length bs) = batches_left N B i /\
    (forall b, In b bs -> 1 <= Z.of_nat (List.length b) <= B) /\
    (forall k b, nth_error bs k = Some b -> (S k < List.length bs)%nat ->
       Z.of_nat (List.length b) = B).
Proof.
  intros HB N. induction fuel as [|fuel IH]; intros i acc Hi Hfuel.
  - lia.
  - cbn [batch_loop]. unfold num_lt. fold N.
    destruct (Z.ltb_spec i N) as [Hlt|Hge].
    + destruct (IH (i + B) (acc ++ [slice items (Num i) (num_add (Num i) (Num B))]))
        as (bs & Hrun & Hcat & Hlen & Hsize & Hfull); [lia|lia|].
      set (b := slice items (Num i) (num_add (Num i) (Num B))) in *.
      assert (Hb : b = firstn (Z.to_nat (Z.min B (N - i))) (skipn (Z.to_nat i) items)).
      { unfold b. apply slice_step; lia. }
      assert (Hbl : Z.of_nat (List.length b) = Z.min B (N - i)).
      { rewrite Hb, length_firstn, length_skipn. unfold N. lia. }
      exists (b :: bs). split; [|split; [|split; [|split]]].
      * cbn [num_add]. rewrite Hrun, <- app_assoc. reflexivity.
      * cbn [List.concat]. rewrite Hcat, Hb.
        destruct (Z.le_ge_cases B (N - i)) as [Hle|Hle'].
        -- rewrite Z.min_l by lia. rewrite Z2Nat.inj_add by lia. apply skipn_split.
        -- rewrite Z.min_r by lia.
           rewrite (skipn_all2 (n := Z.to_nat (i + B))) by (unfold N in *; lia).
           rewrite app_nil_r. apply firstn_all2. rewrite length_skipn.
           unfold N. lia.
      * cbn [List.length]. rewrite Nat2Z.inj_succ, Hlen.
        rewrite (batches_left_step N B i) by lia. lia.
      * intros b' [<-|Hin]; [lia | now apply Hsize].
      * intros k b' Hk Hlast. destruct k as [|k]; cbn in Hk.
        -- inversion Hk; subst b'. cbn [List.length] in Hlast.
           assert (0 < batches_left N B (i + B)) by lia.
           unfold batches_left in H.
           destruct (Z.ltb_spec (i + B) N); lia.
        -- apply (Hfull k b' Hk). cbn [List.length] in Hlast. lia.
    + exists []. rewrite app_nil_r. split; [reflexivity|]. split; [|split; [|split]].
      * cbn. symmetry. apply skipn_all2. unfold N in *. lia.
      * unfold batches_left. destruct (Z.ltb_spec i N); [lia|reflexivity].
      * intros b [].
      * intros k b Hk. destruct k; discriminate.
Qed.

Lemma batch_loop_returns (B : Z) (items : list SyncQueueItem.t) (fuel : nat) :
  1 <= B ->
  (List.length items < fuel)%nat ->
  exists batches, batch_loop (Num B) fuel items (Num 0) [] = Some batches.
Proof.
  intros HB Hfuel.
  destruct (batch_loop_from B items HB fuel 0 []) as (bs & Hrun & _); [lia | lia |].
  exists bs. exact Hrun.
Qed.

(** C7. For a positive batch size [B] and [N] queue entries the batching loop
    returns [ceil (N / B)] batches; every batch but possibly the last has
    exactly [B] entries, no batch is empty or larger than [B], and the
    batches concatenated in order are the input list. *)
Theorem batch_loop_partition (B : Z) (items : list SyncQueueItem.t) (fuel : nat) :
  1 <= B ->
  (List.length items < fuel)%nat ->
  let N := Z.of_nat (List.length items) in
  exists batches,
    batch_loop (Num B) fuel items (Num 0) [] = Some batches /\
    List.concat batches = items /\
    B * (Z.of_nat (List.length batches) - 1) < N <= B * Z.of_nat (List.length batches) /\
    Z.of_nat (List.length batches) = (N + B - 1) / B /\
    (forall k b, nth_error batches k = Some b -> (S k < List.length batches)%nat ->
       Z.of_nat (List.length b) = B) /\
    (forall b, In b batches -> 1 <= Z.of_nat (List.length b) <= B).
Proof.
  intros HB Hfuel N.
  destruct (batch_loop_from B items HB fuel 0 []) as (bs & Hrun & Hcat & Hlen & Hsize & Hfull);
    [lia | lia |].
  fold N in Hlen. exists bs. cbn in Hrun, Hcat.
  assert (Hc : Z.of_nat (List.length bs) = (N + B - 1) / B).
  { rewrite Hlen. unfold batches_left. destruct (Z.ltb_spec 0 N) as [H|H].
    - f_equal. lia.
    - assert (N = 0) by lia. subst N. rewrite H0. symmetry.
      apply Z.div_small. lia. }
  repeat split; try assumption.
  - rewrite Hc. pose proof (Z.mul_div_le (N + B - 1) B).
    pose proof (Z.mod_pos_bound (N + B - 1) B).
    pose proof (Z.div_mod (N + B - 1) B). lia.
  - rewrite Hc. pose proof (Z.mod_pos_bound (N + B - 1) B).
    pose proof (Z.div_mod (N + B - 1) B). lia.
  - now apply Hsize.
  - now apply Hsize.
Qed.

(** ** Computations that return *)

Create HintDb returns.

Lemma returns_ret {A : Type} (a : A) : returns (ret a).
Proof. intros w. now exists a, w. Qed.

Lemma returns_bind {A B : Type} (m : M A) (k : A -> M B) :
  returns m -> (forall a, returns (k a)) -> returns (bind m k).
Proof.
  intros Hm Hk w. destruct (Hm w) as (a & w1 & E).
  destruct (Hk a w1) as (b & w2 & E2).
  exists b, w2. unfold bind. now rewrite E.
Qed.

Lemma returns_modify (f : World -> World) : returns (modify f).
Proof. intros w. now exists tt, (f w). Qed.

Lemma returns_gets {A : Type} (f : World -> A) : returns (gets f).
Proof. intros w. now exists (f w), w. Qed.

Lemma returns_new_Date (clock : nat -> Date) : returns (new_Date clock).
Proof. intros w. eexists _, _. reflexivity. Qed.

Lemma returns_uuidv4 (uuid : nat -> string) : returns (uuidv4 uuid).
Proof. intros w. eexists _, _. reflexivity. Qed.

Lemma returns_if {A : Type} (b : bool) (m1 m2 : M A) :
  returns m1 -> returns m2 -> returns (if b then m1 else m2).
Proof. now destruct b. Qed.

#[export] Hint Resolve returns_ret returns_modify returns_gets returns_new_Date
  returns_uuidv4 returns_if : returns.

Ltac returns_step :=
  lazymatch goal with
  | |- returns (bind _ _) => apply returns_bind; [|intros ?]
  | |- returns (match ?x with _ => _ end) => destruct x
  | |- forall _, _ => intros ?
  | |- returns _ => solve [auto with returns]
  end.

Ltac returns_auto := repeat returns_step.

Lemma returns_handleSyncError (item : SyncQueueItem.t) (err : JsError.t) :
  returns (handleSyncError item err).
Proof.
  unfold handleSyncError, update_retry_count, select_retry_count,
    delete_sync_queue_by_id. returns_auto.
Qed.

Lemma returns_updateSyncStatus (clock : nat -> Date) (taskId : string)
  (status : SyncStatus.t) (serverData : option PartialTask.t) :
  returns (updateSyncStatus clock taskId status serverData).
Proof.
  unfold updateSyncStatus, update_sync_status, delete_sync_queue_by_task.
  returns_auto.
Qed.

Lemma returns_getTask (id : string) : returns (getTask id).
Proof. unfold getTask, select_task. returns_auto. Qed.

Lemma returns_addToSyncQueue (clock : nat -> Date) (uuid : nat -> string)
  (taskId : string) (operation : Operation.t) (data : PartialTask.t) :
  returns (addToSyncQueue clock uuid taskId operation data).
Proof. unfold addToSyncQueue, insert_sync_queue. returns_auto. Qed.

#[export] Hint Resolve returns_handleSyncError returns_updateSyncStatus
  returns_getTask returns_addToSyncQueue : returns.

Lemma returns_updateTask (clock : nat -> Date) (uuid : nat -> string)
  (id : string) (updates : PartialTask.t) :
  returns (updateTask clock uuid id updates).
Proof. unfold updateTask, update_task_row. returns_auto. Qed.

#[export] Hint Resolve returns_updateTask : returns.

Lemma returns_for_each {A : Type} (xs : list A) (body : A -> M unit) :
  (forall x, returns (body x)) -> returns (for_each xs body).
Proof.
  intros H. induction xs as [|x xs IH]; cbn [for_each].
  - apply returns_ret.
  - apply returns_bind; [apply H | intros _; apply IH].
Qed.

Lemma returns_persist_resolution (clock : nat -> Date) (uuid : nat -> string)
  (client_id : string) (resolved_data : Task.t) :
  returns (persist_resolution clock uuid client_id resolved_data).
Proof. unfold persist_resolution. returns_auto. Qed.

#[export] Hint Resolve returns_persist_resolution : returns.

Lemma returns_process_result (clock : nat -> Date) (uuid : nat -> string)
  (batch : list SyncQueueItem.t) (result : ProcessedItem.t) (acc : Totals) :
  returns (process_result clock uuid batch result acc).
Proof. unfold process_result. returns_auto. Qed.

Lemma returns_process_results (clock : nat -> Date) (uuid : nat -> string)
  (batch : list SyncQueueItem.t) (results : list ProcessedItem.t) :
  forall acc, returns (process_results clock uuid batch results acc).
Proof.
  induction results as [|r results IH]; intros acc; cbn [process_results].
  - returns_auto.
  - apply returns_bind; [apply returns_process_result | intros a; apply IH].
Qed.

(** A batch never leaves its [try]/[catch] with an exception: after the
    dispatch nothing in the [try] block throws, and the handler returns. *)
Lemma returns_process_batch (clock : nat -> Date) (uuid : nat -> string)
  (remote : nat -> BatchSyncRequest.t -> JsError.t + BatchSyncResponse.t)
  (batch : list SyncQueueItem.t) (acc : Totals) :
  returns (process_batch clock uuid remote batch acc).
Proof.
  intros w. unfold process_batch, try_catch, bind at 1, processBatch, bind at 1.
  cbn [new_Date].
  destruct (remote _ _) as [err|data]; cbn [requests].
  - destruct (returns_for_each batch (fun item => handleSyncError item err)
                (fun x => returns_handleSyncError x err) (next_request
                   (mkWorld (tasks w) (sync_queue w) (trace w) (S (dates w))
                      (uuids w) (requests w)))) as (u & w' & E).
    unfold bind. rewrite E. eexists _, _. reflexivity.
  - destruct (returns_process_results clock uuid batch
                (BatchSyncResponse.processed_items data) acc
                (next_request
                   (mkWorld (tasks w) (sync_queue w) (trace w) (S (dates w))
                      (uuids w) (requests w)))) as (a & w' & E).
    rewrite E. eexists _, _. reflexivity.
Qed.

Lemma returns_process_batches (clock : nat -> Date) (uuid : nat -> string)
  (remote : nat -> BatchSyncRequest.t -> JsError.t + BatchSyncResponse.t)
  (batches : list (list SyncQueueItem.t)) :
  forall acc, returns (process_batches clock uuid remote batches acc).
Proof.
  induction batches as [|b batches IH]; intros acc; cbn [process_batches].
  - returns_auto.
  - apply returns_bind; [apply returns_process_batch | intros a; apply IH].
Qed.

(** ** Termination of the batching loop *)

Lemma loop_index_Num (B : Z) (k : nat) :
  loop_index (Num B) k = Num (Z.of_nat k * B).
Proof.
  induction k as [|k IH]; [reflexivity|].
  change (loop_index (Num B) (S k)) with (num_add (loop_index (Num B) k) (Num B)).
  rewrite IH. cbn [num_add]. f_equal. lia.
Qed.

Lemma batch_loop_stuck (B : Z) (items : list SyncQueueItem.t) :
  B <= 0 -> items <> [] ->
  forall (fuel : nat) (i : Z) (acc : list (list SyncQueueItem.t)),
  i <= 0 -> batch_loop (Num B) fuel items (Num i) acc = None.
Proof.
  intros HB Hne. induction fuel as [|fuel IH]; intros i acc Hi; [reflexivity|].
  cbn [batch_loop num_lt num_add].
  destruct (Z.ltb_spec i (Z.of_nat (List.length items))) as [_|H].
  - apply IH. lia.
  - destruct items; [contradiction | cbn [List.length] in H; lia].
Qed.

(** A batch size that is not a number: one round, one empty batch. *)
Remark batch_loop_NaN (items : list SyncQueueItem.t) (fuel : nat) :
  items <> [] ->
  batch_loop NaN (S (S fuel)) items (Num 0) [] = Some [[]].
Proof.
  intros Hne. cbn [batch_loop num_lt num_add].
  destruct items as [|x items]; [contradiction|]. reflexivity.
Qed.

Lemma length_insert_by_created_at (x : SyncQueueItem.t) (l : list SyncQueueItem.t) :
  List.length (insert_by_created_at x l) = S (List.length l).
Proof.
  induction l as [|y l IH]; cbn; [reflexivity|].
  destruct (text_leb _ _); cbn; [reflexivity | now rewrite IH].
Qed.

Lemma length_order_by_created_at (l : list SyncQueueItem.t) :
  List.length (order_by_created_at l) = List.length l.
Proof.
  unfold order_by_created_at. induction l as [|y l IH]; cbn; [reflexivity|].
  now rewrite length_insert_by_created_at, IH.
Qed.

Lemma length_snapshot (w : World) :
  List.length (snapshot w) = List.length (sync_queue w).
Proof. unfold snapshot. now rewrite length_map, length_order_by_created_at. Qed.

(** [sync] once the gate is open and the snapshot is not empty. *)
Lemma sync_online_run
  (clock : nat -> Date) (uuid : nat -> string) (health : nat -> bool)
  (remote : nat -> BatchSyncRequest.t -> JsError.t + BatchSyncResponse.t)
  (batchSize : number) (fuel : nat) (w : World) :
  health (requests w) = true -> sync_queue w <> [] ->
  match batch_loop batchSize fuel (snapshot w) (Num 0) [] with
  | None => result_of (sync clock uuid health remote batchSize fuel w) = Diverge
  | Some batches =>
      exists acc w',
        process_batches clock uuid remote batches (mkTotals 0 0 [])
          (world_after_snapshot w) = (Ok acc, w') /\
        sync clock uuid health remote batchSize fuel w =
        (Ok (SyncResult.mk (totalFailed acc =? 0) (totalSynced acc)
               (totalFailed acc) (errors acc)), w')
  end.
Proof.
  intros Hh Hq.
  assert (Hs : exists x l, order_by_created_at (sync_queue w) = x :: l).
  { pose proof (length_order_by_created_at (sync_queue w)) as HL.
    destruct (order_by_created_at (sync_queue w)) as [|x l].
    - destruct (sync_queue w); [contradiction | discriminate].
    - now exists x, l. }
  destruct Hs as (x & l & Hs).
  unfold sync, try_catch, checkConnectivity, select_sync_queue, make_batches,
    modify, gets, snapshot, world_after_snapshot, bind.
  rewrite Hh. cbn [negb next_request record_stmt sync_queue tasks trace dates uuids requests].
  rewrite Hs.
  destruct (batch_loop batchSize fuel (map mapRowToQueueItem (x :: l)) (Num 0) [])
    as [batches|]; [|reflexivity].
  destruct (returns_process_batches clock uuid remote batches (mkTotals 0 0 [])
              (world_after_snapshot w)) as (acc & w' & E).
  exists acc, w'. split; [exact E|].
  unfold world_after_snapshot in E. rewrite E. reflexivity.
Qed.

(** C9. The batching loop returns for every snapshot exactly when the parsed
    batch size is at least 1 or is [NaN], which is what [parseInt] gives for
    a text that is no number; [sync] then returns too.  With [NaN] the loop
    runs once and builds one empty batch.  With a batch size of zero or less
    and a snapshot that is not empty the index never rises above 0, the
    loop returns for no amount of fuel, and [sync] does not return. *)
Theorem batch_loop_terminates_iff_positive_or_NaN
  (clock : nat -> Date) (uuid : nat -> string) (health : nat -> bool)
  (remote : nat -> BatchSyncRequest.t -> JsError.t + BatchSyncResponse.t)
  (batchSize : number) :
  ((forall items, exists fuel batches,
      batch_loop batchSize fuel items (Num 0) [] = Some batches) <->
   positive_or_NaN batchSize) /\
  (positive_or_NaN batchSize ->
   (forall items, exists batches,
      batch_loop batchSize (S (List.length items)) items (Num 0) [] = Some batches) /\
   (forall w, health (requests w) = true ->
      exists res,
        result_of (sync clock uuid health remote batchSize
                     (S (List.length (sync_queue w))) w) = Ok res)) /\
  (batchSize = NaN ->
   forall items fuel, items <> [] ->
     batch_loop batchSize (S (S fuel)) items (Num 0) [] = Some [[]]) /\
  (forall B, batchSize = Num B -> B <= 0 ->
   (forall k, exists z, loop_index batchSize k = Num z /\ z <= 0) /\
   (forall items fuel, items <> [] ->
      batch_loop batchSize fuel items (Num 0) [] = None) /\
   (forall w fuel, health (requests w) = true -> sync_queue w <> [] ->
      result_of (sync clock uuid health remote batchSize fuel w) = Diverge)).
Proof.
  assert (Hloop : positive_or_NaN batchSize ->
            forall items, exists batches,
              batch_loop batchSize (S (List.length items)) items (Num 0) [] =
              Some batches).
  { intros Hfine items. destruct batchSize as [B|].
    - apply batch_loop_returns; [exact Hfine | lia].
    - destruct items as [|x items]; [now exists []|].
      exists [[]]. now apply batch_loop_NaN. }
  split; [|split; [|split]].
  - split.
    + intros Hall. destruct batchSize as [B|]; [|exact I]. cbn.
      destruct (Z.le_gt_cases 1 B) as [H|H]; [exact H|].
      destruct (Hall [fresh_entry]) as (fuel & batches & E).
      rewrite (batch_loop_stuck B [fresh_entry]) in E; [discriminate|lia|discriminate|lia].
    + intros Hfine items. destruct (Hloop Hfine items) as (batches & E).
      now exists (S (List.length items)), batches.
  - intros Hfine. split; [exact (Hloop Hfine)|].
    intros w Hh. destruct (sync_queue w) as [|x q] eqn:Hq.
    + unfold sync, try_catch, bind at 1, checkConnectivity. rewrite Hh.
      cbn [negb]. unfold bind at 1, select_sync_queue, bind at 1, modify, gets.
      cbn [sync_queue next_request record_stmt]. rewrite Hq.
      eexists. reflexivity.
    + assert (Hne : sync_queue w <> []) by (rewrite Hq; discriminate).
      pose proof (sync_online_run clock uuid health remote batchSize
                    (S (List.length (x :: q))) w Hh Hne) as Hrun.
      destruct (Hloop Hfine (snapshot w)) as (batches & H).
      rewrite length_snapshot, Hq in H. rewrite H in Hrun.
      destruct Hrun as (acc & w' & _ & E). rewrite E. eexists. reflexivity.
  - intros -> items fuel Hne. now apply batch_loop_NaN.
  - intros B -> HB. split; [|split].
    + intros k. rewrite loop_index_Num. eexists. split; [reflexivity|]. nia.
    + intros items fuel Hne. apply batch_loop_stuck; [assumption..|lia].
    + intros w fuel Hh Hne.
      pose proof (sync_online_run clock uuid health remote (Num B) fuel w Hh Hne) as Hrun.
      rewrite (batch_loop_stuck B (snapshot w)) in Hrun; try assumption; try lia.
      intros E. apply (f_equal (@List.length _)) in E.
      rewrite length_snapshot in E. destruct (sync_queue w); [contradiction|discriminate].
Qed.

(** ** A batch whose dispatch fails *)

Lemma retry_updates_app (a b : list Stmt) :
  retry_updates (a ++ b) = retry_updates a ++ retry_updates b.
Proof. apply flat_map_app. Qed.

(** One call of [handleSyncError] runs one retry update, on its entry. *)
Lemma handleSyncError_trace (item : SyncQueueItem.t) (err : JsError.t) (w : World) :
  exists w' tr,
    handleSyncError item err w = (Ok tt, w') /\
    trace w' = trace w ++ tr /\
    retry_updates tr = [(SyncQueueItem.id item, JsError.message err)] /\
    tasks w' = tasks w.
Proof.
  unfold handleSyncError, update_retry_count, select_retry_count,
    delete_sync_queue_by_id, modify, gets, ret, bind.
  cbn [record_stmt set_sync_queue tasks sync_queue trace dates uuids requests].
  destruct (find _ _) as [x|]; cbn [option_map].
  - destruct (SyncQueueItem.retry_count x >? maxRetries).
    + eexists _, [_; _; _]. split; [reflexivity|].
      cbn. rewrite <- !app_assoc. repeat split.
    + eexists _, [_; _]. split; [reflexivity|].
      cbn. rewrite <- !app_assoc. repeat split.
  - eexists _, [_; _]. split; [reflexivity|].
    cbn. rewrite <- !app_assoc. repeat split.
Qed.

Lemma for_each_handleSyncError (err : JsError.t) (batch : list SyncQueueItem.t) :
  forall w, exists w' tr,
    for_each batch (fun item => handleSyncError item err) w = (Ok tt, w') /\
    trace w' = trace w ++ tr /\
    retry_updates tr =
      map (fun item => (SyncQueueItem.id item, JsError.message err)) batch /\
    tasks w' = tasks w.
Proof.
  induction batch as [|item batch IH]; intros w.
  - exists w, []. cbn. rewrite app_nil_r. repeat split.
  - destruct (handleSyncError_trace item err w) as (w1 & tr1 & E1 & T1 & R1 & K1).
    destruct (IH w1) as (w2 & tr2 & E2 & T2 & R2 & K2).
    exists w2, (tr1 ++ tr2). cbn [for_each]. unfold bind. rewrite E1, E2.
    split; [reflexivity|]. split; [|split].
    + rewrite T2, T1. apply eq_sym, app_assoc.
    + rewrite retry_updates_app, R1, R2. reflexivity.
    + congruence.
Qed.

(** ** Conflict outcomes and the counts *)

Lemma yields_ret {A : Type} (b : A) : yields b (ret b).
Proof. intros w. now exists w. Qed.

Lemma yields_bind {A B : Type} (b : B) (m : M A) (k : A -> M B) :
  returns m -> (forall a, yields b (k a)) -> yields b (bind m k).
Proof.
  intros Hm Hk w. destruct (Hm w) as (a & w1 & E).
  destruct (Hk a w1) as (w2 & E2). exists w2. unfold bind. now rewrite E.
Qed.

Lemma process_result_conflict (clock : nat -> Date) (uuid : nat -> string)
  (batch : list SyncQueueItem.t) (result : ProcessedItem.t) (acc : Totals) :
  is_conflict result ->
  yields acc (process_result clock uuid batch result acc).
Proof.
  unfold is_conflict, process_result. intros ->.
  destruct (ProcessedItem.resolved_data result) as [remote_task|].
  - apply yields_bind; [auto with returns|]. intros _.
    apply yields_bind; [auto with returns|]. intros _. apply yields_ret.
  - apply yields_ret.
Qed.

Lemma process_results_conflict (clock : nat -> Date) (uuid : nat -> string)
  (batch : list SyncQueueItem.t) (results : list ProcessedItem.t) (acc : Totals) :
  Forall is_conflict results ->
  yields acc (process_results clock uuid batch results acc).
Proof.
  induction 1 as [|r results Hr _ IH]; cbn [process_results].
  - apply yields_ret.
  - intros w. destruct (process_result_conflict clock uuid batch r acc Hr w) as (w1 & E1).
    destruct (IH w1) as (w2 & E2). exists w2. unfold bind. now rewrite E1.
Qed.

Lemma process_batch_conflict (clock : nat -> Date) (uuid : nat -> string)
  (remote : nat -> BatchSyncRequest.t -> JsError.t + BatchSyncResponse.t)
  (batch : list SyncQueueItem.t) (acc : Totals) :
  answers_conflicts remote ->
  yields acc (process_batch clock uuid remote batch acc).
Proof.
  intros Hr w. unfold process_batch, try_catch, processBatch, new_Date, bind.
  cbn [requests].
  destruct (Hr (requests w) (BatchSyncRequest.mk batch (clock (dates w))))
    as (response & E & Hc).
  rewrite E.
  destruct (process_results_conflict clock uuid batch _ acc Hc
              (next_request (mkWorld (tasks w) (sync_queue w) (trace w)
                               (S (dates w)) (uuids w) (requests w))))
    as (w' & E').
  fold (process_results clock uuid batch). rewrite E'. now exists w'.
Qed.

Lemma process_batches_conflict (clock : nat -> Date) (uuid : nat -> string)
  (remote : nat -> BatchSyncRequest.t -> JsError.t + BatchSyncResponse.t)
  (batches : list (list SyncQueueItem.t)) (acc : Totals) :
  answers_conflicts remote ->
  yields acc (process_batches clock uuid remote batches acc).
Proof.
  intros Hr. induction batches as [|b batches IH]; cbn [process_batches].
  - apply yields_ret.
  - intros w. destruct (process_batch_conflict clock uuid remote b acc Hr w) as (w1 & E1).
    destruct (IH w1) as (w2 & E2). exists w2. unfold bind. now rewrite E1.
Qed.

(** C10. A conflict outcome leaves the synced count, the failed count and the
    error list as they were; so a cycle with an open gate, a positive batch
    size and a server that answers every batch with conflict outcomes only
    returns [success = true], [synced_items = 0], [failed_items = 0] and no
    error, however many entries the snapshot holds. *)
Theorem conflict_outcomes_are_not_counted
  (clock : nat -> Date) (uuid : nat -> string) (health : nat -> bool)
  (remote : nat -> BatchSyncRequest.t -> JsError.t + BatchSyncResponse.t)
  (B : Z) (fuel : nat) (w : World) :
  (forall batch result acc w0,
     ProcessedItem.status result = Status.conflict ->
     result_of (process_result clock uuid batch result acc w0) = Ok acc) /\
  (health (requests w) = true ->
   1 <= B ->
   (List.length (sync_queue w) < fuel)%nat ->
   (forall n request, exists response,
      remote n request = inr response /\
      Forall (fun result =>
                ProcessedItem.status result = Status.conflict /\
                ProcessedItem.resolved_data result <> None)
        (BatchSyncResponse.processed_items response)) ->
   result_of (sync clock uuid health remote (Num B) fuel w) =
     Ok (SyncResult.mk true 0 0 []) /\
   List.length (snapshot w) = List.length (sync_queue w)).
Proof.
  split.
  - intros batch result acc w0 Hc.
    destruct (process_result_conflict clock uuid batch result acc Hc w0) as (w' & E).
    now rewrite E.
  - intros Hh HB Hfuel Hr. split; [|apply length_snapshot].
    assert (Hr' : answers_conflicts remote).
    { intros n request. destruct (Hr n request) as (response & E & Hc).
      exists response. split; [exact E|].
      eapply Forall_impl; [|exact Hc]. intros a [Ha _]. exact Ha. }
    destruct (sync_queue w) as [|x q] eqn:Hq.
    + unfold sync, try_catch, bind at 1, checkConnectivity. rewrite Hh.
      cbn [negb]. unfold bind at 1, select_sync_queue, bind at 1, modify, gets.
      cbn [sync_queue next_request record_stmt]. rewrite Hq. reflexivity.
    + assert (Hne : sync_queue w <> []) by (rewrite Hq; discriminate).
      pose proof (sync_online_run clock uuid health remote (Num B) fuel w Hh Hne) as Hrun.
      destruct (batch_loop_returns B (snapshot w) fuel HB) as (batches & H).
      { rewrite length_snapshot, Hq. exact Hfuel. }
      rewrite H in Hrun. destruct Hrun as (acc & w' & E & Es).
      destruct (process_batches_conflict clock uuid remote batches (mkTotals 0 0 [])
                  Hr' (world_after_snapshot w)) as (w2 & E2).
      rewrite E2 in E. inversion E; subst acc w'.
      rewrite Es. reflexivity.
Qed.

(** ** Conflict outcomes and the record *)

Lemma find_task_id (i : string) (ts : list Task.t) (row : Task.t) :
  find (task_id_is i) ts = Some row -> Task.id row = i.
Proof. intros H. apply find_some in H. now apply String.eqb_eq. Qed.

(** The persist step when an active local task is found. *)
Lemma persist_resolution_active (clock : nat -> Date) (uuid : nat -> string)
  (client_id : string) (remote_task row : Task.t) (w : World) :
  find (task_id_is client_id) (tasks w) = Some row ->
  Task.is_deleted row = false ->
  exists w',
    persist_resolution clock uuid client_id remote_task w = (Ok tt, w') /\
    tasks w' =
      map (fun r => if task_id_is client_id r
                    then write_row (persisted_task (mapRowToTask row) remote_task
                                      (clock (dates w))) r
                    else r) (tasks w) /\
    sync_queue w' =
      sync_queue w ++ [resolution_entry uuid clock (mapRowToTask row) remote_task w] /\
    dates w' = S (S (dates w)).
Proof.
  intros Hf Hd. pose proof (find_task_id _ _ _ Hf) as Hid.
  unfold persist_resolution, updateTask, getTask, select_task, update_task_row,
    addToSyncQueue, insert_sync_queue, uuidv4, new_Date, modify, gets, ret, bind.
  cbn [record_stmt set_tasks set_sync_queue tasks sync_queue trace dates uuids requests].
  rewrite Hf, Hd.
  cbn [mapRowToTask Task.id record_stmt set_tasks set_sync_queue tasks sync_queue
         trace dates uuids requests].
  rewrite Hid, Hf, Hd.
  cbn [record_stmt set_tasks set_sync_queue tasks sync_queue trace dates uuids requests].
  eexists. split; [reflexivity|].
  cbn [tasks sync_queue dates]. repeat split.
Qed.

(** The persist step when no active local task is found. *)
Lemma persist_resolution_missing (clock : nat -> Date) (uuid : nat -> string)
  (client_id : string) (remote_task : Task.t) (w : World) :
  (forall row, find (task_id_is client_id) (tasks w) = Some row ->
     Task.is_deleted row = true) ->
  persist_resolution clock uuid client_id remote_task w =
    (Ok tt, record_stmt (SelectTask client_id) w).
Proof.
  intros H.
  unfold persist_resolution, getTask, select_task, modify, gets, ret, bind.
  cbn [record_stmt tasks].
  destruct (find (task_id_is client_id) (tasks w)) as [row|] eqn:Hf.
  - rewrite (H row eq_refl). reflexivity.
  - reflexivity.
Qed.

Lemma process_result_conflict_run (clock : nat -> Date) (uuid : nat -> string)
  (batch : list SyncQueueItem.t) (result : ProcessedItem.t) (remote_task : Task.t)
  (acc : Totals) (w w_p : World) :
  ProcessedItem.status result = Status.conflict ->
  ProcessedItem.resolved_data result = Some remote_task ->
  persist_resolution clock uuid (ProcessedItem.client_id result) remote_task w =
    (Ok tt, w_p) ->
  process_result clock uuid batch result acc w =
    (Ok acc,
     world_of (updateSyncStatus clock (ProcessedItem.client_id result)
                 SyncStatus.synced (Some (PartialTask.of_Task remote_task)) w_p)).
Proof.
  intros Hs Hd Hp. unfold process_result. rewrite Hs, Hd.
  unfold bind at 1. rewrite Hp. unfold bind.
  rewrite updateSyncStatus_synced_run. reflexivity.
Qed.

(** C2, as the code has it.  For a conflict outcome that carries resolved
    data the cycle first runs the persist step: when an active local record
    with the client id of the outcome exists, the resolver is applied to it
    and the remote record, and the title, description, completion flag and
    soft-delete flag of the winner are written to the record, with
    [updated_at] stamped anew; when none exists nothing is written.  It then
    settles exactly as a success outcome with the same data does from that
    world: every row of the record is [synced] and stamped, no queue entry
    for the record is left, the other records are as before, and the counts
    are not changed.  A conflict outcome without resolved data changes
    nothing at all. *)
Theorem process_result_conflict_settles
  (clock : nat -> Date) (uuid : nat -> string)
  (batch : list SyncQueueItem.t) (result : ProcessedItem.t)
  (acc : Totals) (w : World) :
  ProcessedItem.status result = Status.conflict ->
  let cid := ProcessedItem.client_id result in
  let r := process_result clock uuid batch result acc w in
  (ProcessedItem.resolved_data result = None -> r = (Ok acc, w)) /\
  forall remote_task,
  ProcessedItem.resolved_data result = Some remote_task ->
  exists w_p,
    persist_resolution clock uuid cid remote_task w = (Ok tt, w_p) /\
    result_of r = Ok acc /\
    world_of r = world_of (process_result clock uuid batch (as_success result) acc w_p) /\
    (forall row, In row (tasks (world_of r)) -> Task.id row = cid ->
       Task.sync_status row = SyncStatus.synced /\
       Task.last_synced_at row = Some (clock (dates w_p))) /\
    (forall q, In q (sync_queue (world_of r)) -> SyncQueueItem.task_id q <> cid) /\
    (forall row0, find (task_id_is cid) (tasks w) = Some row0 ->
       Task.is_deleted row0 = false ->
       let winner :=
         TaskObject.fields
           (resolveConflict (TaskObject.held (mapRowToTask row0))
              (TaskObject.parsed remote_task)) in
       forall n row, nth_error (tasks w) n = Some row -> Task.id row = cid ->
         exists row', nth_error (tasks (world_of r)) n = Some row' /\
           Task.title row' = Task.title winner /\
           Task.description row' = Task.description winner /\
           Task.completed row' = Task.completed winner /\
           Task.is_deleted row' = Task.is_deleted winner /\
           Task.updated_at row' = clock (dates w) /\
           Task.id row' = cid /\
           Task.created_at row' = Task.created_at row) /\
    ((forall row0, find (task_id_is cid) (tasks w) = Some row0 ->
        Task.is_deleted row0 = true) ->
     tasks w_p = tasks w /\ sync_queue w_p = sync_queue w) /\
    (forall n row, nth_error (tasks w) n = Some row -> Task.id row <> cid ->
       nth_error (tasks (world_of r)) n = Some row).
Proof.
  intros Hs cid r. split.
  { intros Hd. subst r. unfold process_result. rewrite Hs, Hd. reflexivity. }
  intros remote_task Hd.
  destruct (returns_persist_resolution clock uuid cid remote_task w) as ([] & w_p & Hp).
  exists w_p. split; [exact Hp|].
  subst r. rewrite (process_result_conflict_run _ _ _ _ _ _ _ _ Hs Hd Hp).
  rewrite process_result_success_run by reflexivity.
  cbn [as_success ProcessedItem.client_id ProcessedItem.resolved_data].
  rewrite Hd. cbn [option_map]. fold cid.
  rewrite updateSyncStatus_synced_run.
  unfold result_of, world_of. cbn [fst snd tasks sync_queue].
  split; [reflexivity|]. split; [reflexivity|].
  split.
  { intros row Hin Hid. unfold settled_tasks in Hin. apply in_map_iff in Hin.
    destruct Hin as (x & Hx & _). subst row. unfold task_id_is in *.
    destruct (String.eqb_spec (Task.id x) cid) as [E|E]; [|contradiction].
    cbn. split; reflexivity. }
  split.
  { intros q Hin. apply settled_queue_In in Hin. tauto. }
  split.
  { intros row0 Hf Hdel n row Hn Hid.
    destruct (persist_resolution_active clock uuid cid remote_task row0 w Hf Hdel)
      as (w1 & Hp1 & Ht & _).
    fold cid in Hp1. rewrite Hp in Hp1. inversion Hp1; subst w1.
    rewrite settled_tasks_nth, Ht, nth_error_map, Hn. cbn [option_map].
    unfold task_id_is. rewrite (proj2 (String.eqb_eq _ _) Hid).
    cbn [write_row Task.id]. rewrite (proj2 (String.eqb_eq _ _) Hid).
    eexists. split; [reflexivity|]. cbn. repeat split. exact Hid. }
  split.
  { intros Hnone. rewrite (persist_resolution_missing _ _ _ _ _ Hnone) in Hp.
    inversion Hp. split; reflexivity. }
  intros n row Hn Hid.
  assert (Hother : nth_error (tasks w_p) n = Some row).
  { destruct (find (task_id_is cid) (tasks w)) as [row0|] eqn:Hf.
    - destruct (Task.is_deleted row0) eqn:Hdel.
      + rewrite persist_resolution_missing in Hp.
        * inversion Hp. exact Hn.
        * intros x Hx. rewrite Hf in Hx. now inversion Hx; subst.
      + destruct (persist_resolution_active clock uuid cid remote_task row0 w Hf Hdel)
          as (w1 & Hp1 & Ht & _).
        fold cid in Hp1. rewrite Hp in Hp1. inversion Hp1; subst w1.
        rewrite Ht, nth_error_map, Hn. cbn [option_map]. unfold task_id_is.
        now rewrite (proj2 (String.eqb_neq _ _) Hid).
    - rewrite persist_resolution_missing in Hp.
      + inversion Hp. exact Hn.
      + intros x Hx. rewrite Hf in Hx. discriminate. }
  rewrite settled_tasks_nth, Hother. cbn [option_map]. unfold task_id_is.
  now rewrite (proj2 (String.eqb_neq _ _) Hid).
Qed.

(** ** Worked examples *)

Example batch_loop_three_by_two :
  batch_loop (Num 2) 4 [fresh_entry; other_entry; third_entry] (Num 0) [] =
  Some [[fresh_entry; other_entry]; [third_entry]].
Proof. reflexivity. Qed.

Example sync_all_conflicts :
  sync sample_clock sample_uuid online conflict_server (Num 10) 3 conflict_world =
  (Ok (SyncResult.mk true 0 0 []),
   mkWorld
     [Task.mk "t1" "oat milk" EmptyString true 10 1001 false SyncStatus.synced
        (Some "srv-t1"%string) (Some 1003)]
     []
     [SelectSyncQueue; SelectTask "t1"; SelectTask "t1"; UpdateTask "t1";
      InsertSyncQueue "7d0c1a52" "t1"; UpdateSyncStatus "t1";
      DeleteSyncQueueByTask "t1"; SelectTask "t2"; UpdateSyncStatus "t2";
      DeleteSyncQueueByTask "t2"]
     5 1 2).
Proof. vm_compute. reflexivity. Qed.

Lemma conflict_server_answers (n : nat) (request : BatchSyncRequest.t) :
  exists response,
    conflict_server n request = inr response /\
    Forall (fun result =>
              ProcessedItem.status result = Status.conflict /\
              ProcessedItem.resolved_data result <> None)
      (BatchSyncResponse.processed_items response).
Proof.
  eexists. split; [reflexivity|]. cbn.
  induction (BatchSyncRequest.items request) as [|x l IH]; cbn; constructor.
  - cbn. split; [reflexivity | discriminate].
  - exact IH.
Qed.

(** A conflict with resolved data on the stored record [t1]. *)
Lemma process_result_conflict_settles_witness :
  exists w_p,
    persist_resolution sample_clock sample_uuid "t1" server_copy conflict_world =
      (Ok tt, w_p) /\
    result_of (process_result sample_clock sample_uuid [fresh_entry] data_conflict
                 (mkTotals 0 0 []) conflict_world) = Ok (mkTotals 0 0 []).
Proof.
  destruct (proj2 (process_result_conflict_settles sample_clock sample_uuid
                     [fresh_entry] data_conflict (mkTotals 0 0 []) conflict_world
                     eq_refl) server_copy eq_refl) as (w_p & H1 & H2 & _).
  exists w_p. split; [exact H1 | exact H2].
Defined.

(** C2 as stated fails in three ways.  A conflict outcome without resolved
    data changes nothing: the record stays [pending] and its queue entry
    stays queued.  With resolved data and the local record soft-deleted, the
    resolver is not called and the remote record is not persisted: the
    record keeps its title and is only settled.  With resolved data and an
    active local record the resolver returns the remote record, and what is
    stored is not that record: its title, description and flags are, but
    the creation date is the stored one and the modification date is the
    current date. *)
Lemma conflict_outcome_counterexamples :
  (process_result sample_clock sample_uuid [fresh_entry] bare_conflict
     (mkTotals 0 0 []) conflict_world = (Ok (mkTotals 0 0 []), conflict_world) /\
   tasks conflict_world = [local_row] /\
   Task.sync_status local_row = SyncStatus.pending /\
   In fresh_entry (sync_queue conflict_world) /\
   SyncQueueItem.task_id fresh_entry = ProcessedItem.client_id bare_conflict) /\
  (tasks (world_of (process_result sample_clock sample_uuid [fresh_entry] data_conflict
                      (mkTotals 0 0 []) deleted_world)) =
     [Task.mk "t1" "milk" EmptyString false 10 50 true SyncStatus.synced
        (Some "srv-t1"%string) (Some 1000)] /\
   Task.title server_copy = "oat milk"%string /\
   Task.is_deleted server_copy = false) /\
  (resolveConflict (TaskObject.held (mapRowToTask local_row))
     (TaskObject.parsed server_rewrite) = TaskObject.parsed server_rewrite /\
   tasks (world_of (process_result sample_clock sample_uuid [fresh_entry] rewrite_conflict
                      (mkTotals 0 0 []) conflict_world)) =
     [Task.mk "t1" "oat milk" EmptyString true 10 1000 false SyncStatus.synced
        (Some "srv-t1"%string) (Some 1002)] /\
   Task.created_at server_rewrite = 12 /\
   Task.updated_at server_rewrite = 80).
Proof.
  split; [|split].
  - split; [reflexivity|]. split; [reflexivity|]. split; [reflexivity|].
    split; [left; reflexivity | reflexivity].
  - split; [vm_compute; reflexivity|]. split; reflexivity.
  - split; [reflexivity|]. split; [vm_compute; reflexivity|]. split; reflexivity.
Qed.

Lemma sync_unreachable_leaves_database_witness :
  result_of (sync sample_clock sample_uuid offline failing_server (Num 10) 3
               conflict_world) =
    Ok (SyncResult.mk false 0 0
          [SyncError.mk "global" "sync" "Server not reachable" 1000]) /\
  sync_queue (world_of (sync sample_clock sample_uuid offline failing_server (Num 10) 3
                          conflict_world)) = [fresh_entry; other_entry].
Proof.
  destruct (sync_unreachable_leaves_database sample_clock sample_uuid offline
              failing_server (Num 10) 3 conflict_world eq_refl) as (H1 & H2 & _).
  split; [exact H1 | exact H2].
Defined.

Lemma batch_loop_partition_witness :
  exists batches,
    batch_loop (Num 2) 4 [fresh_entry; other_entry; third_entry] (Num 0) [] =
      Some batches /\
    List.concat batches = [fresh_entry; other_entry; third_entry] /\
    Z.of_nat (List.length batches) = 2.
Proof.
  destruct (batch_loop_partition 2 [fresh_entry; other_entry; third_entry] 4)
    as (batches & H1 & H2 & _ & H4 & _).
  - lia.
  - cbn. lia.
  - exists batches. split; [exact H1|]. split; [exact H2|]. exact H4.
Defined.

Lemma batch_loop_terminates_iff_positive_or_NaN_witness :
  result_of (sync sample_clock sample_uuid online conflict_server (Num 0) 5
               two_entries) = Diverge /\
  (exists res,
     result_of (sync sample_clock sample_uuid online conflict_server (Num 10) 3
                  two_entries) = Ok res) /\
  (exists res,
     result_of (sync sample_clock sample_uuid online conflict_server NaN 3
                  two_entries) = Ok res).
Proof.
  split; [|split].
  - apply (proj2 (proj2 (proj2 (proj2 (proj2
             (batch_loop_terminates_iff_positive_or_NaN sample_clock sample_uuid
                online conflict_server (Num 0)))) 0 eq_refl (Z.le_refl 0)))).
    + reflexivity.
    + discriminate.
  - apply (proj2 (proj1 (proj2 (batch_loop_terminates_iff_positive_or_NaN sample_clock
             sample_uuid online conflict_server (Num 10))) ltac:(cbn; lia)) two_entries).
    reflexivity.
  - apply (proj2 (proj1 (proj2 (batch_loop_terminates_iff_positive_or_NaN sample_clock
             sample_uuid online conflict_server NaN)) I) two_entries).
    reflexivity.
Defined.

(** C9 as stated fails: with the batch size [NaN], which is not at least 1,
    the loop returns on a snapshot of two entries, with one empty batch, and
    [sync] returns; both entries stay queued. *)
Lemma batch_size_NaN_terminates :
  positive_or_NaN NaN /\
  ~ (exists B, NaN = Num B /\ 1 <= B) /\
  snapshot two_entries = [fresh_entry; other_entry] /\
  batch_loop NaN 2 (snapshot two_entries) (Num 0) [] = Some [[]] /\
  sync sample_clock sample_uuid online conflict_server NaN 2 two_entries =
    (Ok (SyncResult.mk true 0 0 []),
     mkWorld [] [fresh_entry; other_entry] [SelectSyncQueue] 1 0 2).
Proof.
  split; [exact I|]. split; [intros (B & E & _); discriminate|].
  split; [vm_compute; reflexivity|]. split; vm_compute; reflexivity.
Qed.

(** Two snapshot entries, both answered with a conflict: the counts sum to 0. *)
Lemma conflict_outcomes_are_not_counted_witness :
  result_of (sync sample_clock sample_uuid online conflict_server (Num 10) 3
               conflict_world) = Ok (SyncResult.mk true 0 0 []) /\
  List.length (snapshot conflict_world) = 2%nat.
Proof.
  apply (proj2 (conflict_outcomes_are_not_counted sample_clock sample_uuid online
                  conflict_server 10 3 conflict_world)).
  - reflexivity.
  - lia.
  - cbn. lia.
  - exact conflict_server_answers.
Defined.

(** * Further properties *)

(** ** Relations that every step of a run keeps *)

Section Keeps.

Variable R : World -> World -> Prop.
Hypothesis R_refl : forall w, R w w.
Hypothesis R_trans : forall w1 w2 w3, R w1 w2 -> R w2 w3 -> R w1 w3.

Lemma keeps_ret {A : Type} (a : A) : keeps R (ret a).
Proof. intros w. apply R_refl. Qed.

Lemma keeps_throw {A : Type} (e : JsError.t) : keeps R (@throw A e).
Proof. intros w. apply R_refl. Qed.

Lemma keeps_gets {A : Type} (f : World -> A) : keeps R (gets f).
Proof. intros w. apply R_refl. Qed.

Lemma keeps_modify (f : World -> World) :
  (forall w, R w (f w)) -> keeps R (modify f).
Proof. intros H w. apply H. Qed.

Lemma keeps_bind {A B : Type} (m : M A) (k : A -> M B) :
  keeps R m -> (forall a, keeps R (k a)) -> keeps R (bind m k).
Proof.
  intros Hm Hk w. unfold bind. specialize (Hm w).
  destruct (m w) as [[a|e|] w1]; cbn in *; try assumption.
  eapply R_trans; [exact Hm | apply Hk].
Qed.

Lemma keeps_try_catch {A : Type} (m : M A) (handler : JsError.t -> M A) :
  keeps R m -> (forall e, keeps R (handler e)) -> keeps R (try_catch m handler).
Proof.
  intros Hm Hh w. unfold try_catch. specialize (Hm w).
  destruct (m w) as [[a|e|] w1]; cbn in *; try assumption.
  eapply R_trans; [exact Hm | apply Hh].
Qed.

Lemma keeps_for_each {A : Type} (xs : list A) (body : A -> M unit) :
  (forall x, keeps R (body x)) -> keeps R (for_each xs body).
Proof.
  intros H. induction xs as [|x xs IH]; cbn [for_each].
  - apply keeps_ret.
  - apply keeps_bind; [apply H | intros _; exact IH].
Qed.

End Keeps.

Ltac keeps_go refl trans tac :=
  repeat (lazymatch goal with
          | |- keeps _ (bind _ _) => apply (keeps_bind _ trans); [|intros ?]
          | |- keeps _ (try_catch _ _) => apply (keeps_try_catch _ trans); [|intros ?]
          | |- keeps _ (ret _) => apply (keeps_ret _ refl)
          | |- keeps _ (throw _) => apply (keeps_throw _ refl)
          | |- keeps _ (gets _) => apply (keeps_gets _ refl)
          | |- keeps _ (for_each _ _) => apply (keeps_for_each _ refl trans); intros ?
          | |- keeps _ (modify _) => apply keeps_modify; intros ?; tac
          | |- keeps _ (match ?x with _ => _ end) => destruct x
          end).

(** ** The records a cycle can touch *)

Lemma same_records_refl (w : World) : same_records w w.
Proof. split; reflexivity. Qed.

Lemma same_records_trans (w1 w2 w3 : World) :
  same_records w1 w2 -> same_records w2 w3 -> same_records w1 w3.
Proof. intros [A1 B1] [A2 B2]. split; congruence. Qed.

Lemma same_records_tasks (w w' : World) : tasks w' = tasks w -> same_records w w'.
Proof. intros E. unfold same_records. now rewrite E. Qed.

Lemma same_records_map (f : Task.t -> Task.t) (w : World) :
  (forall r, Task.id (f r) = Task.id r) ->
  (forall r, Task.created_at (f r) = Task.created_at r) ->
  same_records w (set_tasks (map f (tasks w)) w).
Proof.
  intros Hi Hc. split; cbn; rewrite map_map; apply map_ext; assumption.
Qed.

Ltac same_records_tac :=
  first [ apply same_records_tasks; reflexivity
        | apply same_records_map; intros r;
          repeat match goal with |- context [if ?b then _ else _] => destruct b end;
          reflexivity ].

Ltac keeps_records :=
  keeps_go same_records_refl same_records_trans same_records_tac.

Lemma keeps_records_new_Date (clock : nat -> Date) :
  keeps same_records (new_Date clock).
Proof. intros w. apply same_records_tasks. reflexivity. Qed.

Lemma keeps_records_uuidv4 (uuid : nat -> string) : keeps same_records (uuidv4 uuid).
Proof. intros w. apply same_records_tasks. reflexivity. Qed.

Lemma keeps_records_handleSyncError (item : SyncQueueItem.t) (err : JsError.t) :
  keeps same_records (handleSyncError item err).
Proof.
  unfold handleSyncError, update_retry_count, select_retry_count,
    delete_sync_queue_by_id. keeps_records.
Qed.

Lemma keeps_records_updateSyncStatus (clock : nat -> Date) (taskId : string)
  (status : SyncStatus.t) (serverData : option PartialTask.t) :
  keeps same_records (updateSyncStatus clock taskId status serverData).
Proof.
  unfold updateSyncStatus, update_sync_status, delete_sync_queue_by_task.
  apply (keeps_bind _ same_records_trans); [apply keeps_records_new_Date|intros now].
  keeps_records.
Qed.

Lemma keeps_records_getTask (id : string) : keeps same_records (getTask id).
Proof. unfold getTask, select_task. keeps_records. Qed.

Lemma keeps_records_addToSyncQueue (clock : nat -> Date) (uuid : nat -> string)
  (taskId : string) (operation : Operation.t) (data : PartialTask.t) :
  keeps same_records (addToSyncQueue clock uuid taskId operation data).
Proof.
  unfold addToSyncQueue, insert_sync_queue.
  apply (keeps_bind _ same_records_trans); [apply keeps_records_uuidv4|intros i].
  apply (keeps_bind _ same_records_trans); [apply keeps_records_new_Date|intros now].
  keeps_records.
Qed.

Lemma keeps_records_updateTask (clock : nat -> Date) (uuid : nat -> string)
  (id : string) (updates : PartialTask.t) :
  keeps same_records (updateTask clock uuid id updates).
Proof.
  unfold updateTask.
  apply (keeps_bind _ same_records_trans); [apply keeps_records_getTask|intros e].
  destruct e as [e|]; [|keeps_records].
  apply (keeps_bind _ same_records_trans); [apply keeps_records_new_Date|intros now].
  apply (keeps_bind _ same_records_trans).
  { unfold update_task_row. keeps_records. }
  intros _. apply (keeps_bind _ same_records_trans);
    [apply keeps_records_addToSyncQueue | intros _; keeps_records].
Qed.

Lemma keeps_records_process_result (clock : nat -> Date) (uuid : nat -> string)
  (batch : list SyncQueueItem.t) (result : ProcessedItem.t) (acc : Totals) :
  keeps same_records (process_result clock uuid batch result acc).
Proof.
  unfold process_result, persist_resolution.
  destruct (ProcessedItem.status result).
  - apply (keeps_bind _ same_records_trans);
      [apply keeps_records_updateSyncStatus | intros _; keeps_records].
  - destruct (ProcessedItem.resolved_data result) as [d|]; [|keeps_records].
    apply (keeps_bind _ same_records_trans).
    { apply (keeps_bind _ same_records_trans); [apply keeps_records_getTask|intros l].
      destruct l as [l|]; [|keeps_records].
      apply (keeps_bind _ same_records_trans);
        [apply keeps_records_updateTask | intros _; keeps_records]. }
    intros _. apply (keeps_bind _ same_records_trans);
      [apply keeps_records_updateSyncStatus | intros _; keeps_records].
  - apply (keeps_bind _ same_records_trans); [apply keeps_records_new_Date|intros now].
    destruct (find _ _) as [failedItem|]; [|keeps_records].
    apply (keeps_bind _ same_records_trans);
      [apply keeps_records_handleSyncError | intros _; keeps_records].
Qed.

Lemma keeps_records_process_results (clock : nat -> Date) (uuid : nat -> string)
  (batch : list SyncQueueItem.t) (results : list ProcessedItem.t) :
  forall acc, keeps same_records (process_results clock uuid batch results acc).
Proof.
  induction results as [|r results IH]; intros acc; cbn [process_results].
  - keeps_records.
  - apply (keeps_bind _ same_records_trans);
      [apply keeps_records_process_result | intros a; apply IH].
Qed.

Lemma keeps_records_processBatch (clock : nat -> Date)
  (remote : nat -> BatchSyncRequest.t -> JsError.t + BatchSyncResponse.t)
  (items : list SyncQueueItem.t) :
  keeps same_records (processBatch clock remote items).
Proof.
  unfold processBatch.
  apply (keeps_bind _ same_records_trans); [apply keeps_records_new_Date|intros now].
  intros w. destruct (remote _ _); apply same_records_tasks; reflexivity.
Qed.

Lemma keeps_records_process_batches (clock : nat -> Date) (uuid : nat -> string)
  (remote : nat -> BatchSyncRequest.t -> JsError.t + BatchSyncResponse.t)
  (batches : list (list SyncQueueItem.t)) :
  forall acc, keeps same_records (process_batches clock uuid remote batches acc).
Proof.
  induction batches as [|b batches IH]; intros acc; cbn [process_batches].
  - keeps_records.
  - apply (keeps_bind _ same_records_trans); [|intros a; apply IH].
    unfold process_batch. apply (keeps_try_catch _ same_records_trans).
    + apply (keeps_bind _ same_records_trans);
        [apply keeps_records_processBatch | intros a; apply keeps_records_process_results].
    + intros e. apply (keeps_bind _ same_records_trans); [|intros _; keeps_records].
      apply (keeps_for_each _ same_records_refl same_records_trans).
      intros x. apply keeps_records_handleSyncError.
Qed.

(** X1. Whatever the server answers, whatever the batch size and however the
    cycle ends, [sync] adds no record and removes none, and changes no id
    and no creation date: the records after the cycle are the records before
    it, one for one and in the same order. *)
Theorem sync_keeps_the_records
  (clock : nat -> Date) (uuid : nat -> string) (health : nat -> bool)
  (remote : nat -> BatchSyncRequest.t -> JsError.t + BatchSyncResponse.t)
  (batchSize : number) (fuel : nat) (w : World) :
  let w' := world_of (sync clock uuid health remote batchSize fuel w) in
  List.length (tasks w') = List.length (tasks w) /\
  map Task.id (tasks w') = map Task.id (tasks w) /\
  map Task.created_at (tasks w') = map Task.created_at (tasks w).
Proof.
  assert (H : keeps same_records (sync clock uuid health remote batchSize fuel)).
  { unfold sync. apply (keeps_try_catch _ same_records_trans).
    - apply (keeps_bind _ same_records_trans).
      { intros w0. apply same_records_tasks. reflexivity. }
      intros c. destruct (negb c); [keeps_records|].
      apply (keeps_bind _ same_records_trans).
      { unfold select_sync_queue. keeps_records. }
      intros items. destruct items as [|x l]; [keeps_records|].
      apply (keeps_bind _ same_records_trans).
      { intros w0. unfold make_batches. destruct (batch_loop _ _ _ _ _);
          apply same_records_refl. }
      intros batches. apply (keeps_bind _ same_records_trans);
        [apply keeps_records_process_batches | intros a; keeps_records].
    - intros e. apply (keeps_bind _ same_records_trans);
        [apply keeps_records_new_Date | intros now; keeps_records]. }
  intros w'. destruct (H w) as [Hi Hc]. fold (world_of (sync clock uuid health remote batchSize fuel w)) in Hi, Hc.
  fold w' in Hi, Hc. repeat split; try assumption.
  rewrite <- (length_map Task.id (tasks w')), Hi. apply length_map.
Qed.

(** ** The runs of [sync] and of its steps *)

Lemma sync_offline_run
  (clock : nat -> Date) (uuid : nat -> string) (health : nat -> bool)
  (remote : nat -> BatchSyncRequest.t -> JsError.t + BatchSyncResponse.t)
  (batchSize : number) (fuel : nat) (w : World) :
  health (requests w) = false ->
  sync clock uuid health remote batchSize fuel w =
  (Ok (SyncResult.mk false 0 0
         [SyncError.mk "global" "sync" "Server not reachable" (clock (dates w))]),
   after_dispatch w).
Proof.
  intros H. unfold sync, try_catch, bind, checkConnectivity. rewrite H. reflexivity.
Qed.

Lemma sync_empty_run
  (clock : nat -> Date) (uuid : nat -> string) (health : nat -> bool)
  (remote : nat -> BatchSyncRequest.t -> JsError.t + BatchSyncResponse.t)
  (batchSize : number) (fuel : nat) (w : World) :
  health (requests w) = true -> sync_queue w = [] ->
  sync clock uuid health remote batchSize fuel w =
  (Ok (SyncResult.mk true 0 0 []), world_after_snapshot w).
Proof.
  intros H Hq.
  unfold sync, try_catch, checkConnectivity, select_sync_queue, modify, gets, bind.
  rewrite H. cbn [negb next_request record_stmt sync_queue]. rewrite Hq. reflexivity.
Qed.

Lemma handleSyncError_returns_unit (item : SyncQueueItem.t) (err : JsError.t) (w : World) :
  handleSyncError item err w = (Ok tt, world_of (handleSyncError item err w)).
Proof.
  destruct (returns_handleSyncError item err w) as ([] & w' & E). now rewrite E.
Qed.

Lemma process_result_error_run (clock : nat -> Date) (uuid : nat -> string)
  (batch : list SyncQueueItem.t) (result : ProcessedItem.t) (acc : Totals) (w : World) :
  ProcessedItem.status result = Status.error ->
  process_result clock uuid batch result acc w =
  (Ok (failed_totals result (clock (dates w)) acc),
   match find (queue_id_is (ProcessedItem.client_id result)) batch with
   | Some failedItem =>
       world_of (handleSyncError failedItem (ledger_error result) (after_date w))
   | None => after_date w
   end).
Proof.
  intros Hs. unfold process_result. rewrite Hs. unfold bind at 1, new_Date.
  fold (after_date w).
  destruct (find _ _) as [failedItem|]; [|reflexivity].
  unfold bind. fold (ledger_error result).
  rewrite handleSyncError_returns_unit. reflexivity.
Qed.

Lemma for_each_returns_unit {A : Type} (xs : list A) (body : A -> M unit) (w : World) :
  (forall x, returns (body x)) ->
  for_each xs body w = (Ok tt, world_of (for_each xs body w)).
Proof.
  intros H. destruct (returns_for_each xs body H w) as ([] & w' & E). now rewrite E.
Qed.

Lemma process_batch_rejected (clock : nat -> Date) (uuid : nat -> string)
  (remote : nat -> BatchSyncRequest.t -> JsError.t + BatchSyncResponse.t)
  (batch : list SyncQueueItem.t) (acc : Totals) (w : World) (err : JsError.t) :
  remote (requests w) (BatchSyncRequest.mk batch (clock (dates w))) = inl err ->
  process_batch clock uuid remote batch acc w =
  (Ok (mkTotals (totalSynced acc) (totalFailed acc + Z.of_nat (List.length batch))
         (errors acc)),
   world_of (for_each batch (fun item => handleSyncError item err) (after_dispatch w))).
Proof.
  intros Hr. unfold process_batch, try_catch, processBatch, new_Date, bind.
  cbn [requests]. rewrite Hr. fold (after_dispatch w).
  rewrite (for_each_returns_unit batch (fun item => handleSyncError item err)).
  - reflexivity.
  - intros x. apply returns_handleSyncError.
Qed.

Lemma process_batch_answered (clock : nat -> Date) (uuid : nat -> string)
  (remote : nat -> BatchSyncRequest.t -> JsError.t + BatchSyncResponse.t)
  (batch : list SyncQueueItem.t) (acc : Totals) (w : World)
  (data : BatchSyncResponse.t) :
  remote (requests w) (BatchSyncRequest.mk batch (clock (dates w))) = inr data ->
  process_batch clock uuid remote batch acc w =
  process_results clock uuid batch (BatchSyncResponse.processed_items data) acc
    (after_dispatch w).
Proof.
  intros Hr. unfold process_batch, try_catch, processBatch, new_Date, bind.
  cbn [requests]. rewrite Hr.
  change (next_request (mkWorld (tasks w) (sync_queue w) (trace w) (S (dates w))
                          (uuids w) (requests w))) with (after_dispatch w).
  fold (process_results clock uuid batch).
  destruct (returns_process_results clock uuid batch
              (BatchSyncResponse.processed_items data) acc (after_dispatch w))
    as (a & w' & E).
  rewrite E. reflexivity.
Qed.

(** X2. With the gate open and nothing queued, [sync] returns
    [success = true], zero counts and no error for every batch size, zero
    or [NaN] included; the probe is its only request, the snapshot its only
    statement, and no record is touched. *)
Theorem sync_empty_queue
  (clock : nat -> Date) (uuid : nat -> string) (health : nat -> bool)
  (remote : nat -> BatchSyncRequest.t -> JsError.t + BatchSyncResponse.t)
  (batchSize : number) (fuel : nat) (w : World) :
  health (requests w) = true ->
  sync_queue w = [] ->
  let r := sync clock uuid health remote batchSize fuel w in
  result_of r = Ok (SyncResult.mk true 0 0 []) /\
  requests (world_of r) = S (requests w) /\
  trace (world_of r) = trace w ++ [SelectSyncQueue] /\
  tasks (world_of r) = tasks w /\
  sync_queue (world_of r) = [] /\
  dates (world_of r) = dates w.
Proof.
  intros H Hq r. subst r. rewrite sync_empty_run by assumption.
  unfold result_of, world_of, world_after_snapshot. cbn. rewrite Hq. repeat split.
Qed.

Lemma sync_empty_queue_witness :
  result_of (sync sample_clock sample_uuid online failing_server (Num 0) 0
               (mkWorld [local_row] [] [] 0 0 0)) =
  Ok (SyncResult.mk true 0 0 []).
Proof.
  apply (sync_empty_queue sample_clock sample_uuid online failing_server (Num 0) 0
           (mkWorld [local_row] [] [] 0 0 0) eq_refl eq_refl).
Defined.

(** ** Error outcomes *)

(** X3. An error outcome adds one to the failed count and appends one error
    entry: the client id of the outcome, the operation [unknown], the error
    text of the outcome or [Sync failed], and the current date.  No record
    is written.  When the batch holds an entry whose id is that client id,
    one failure is recorded on it, with the error text of the outcome or
    [Sync error]; when it holds none, the queue is left alone and no
    statement is run. *)
Theorem process_result_error_outcome
  (clock : nat -> Date) (uuid : nat -> string)
  (batch : list SyncQueueItem.t) (result : ProcessedItem.t) (acc : Totals) (w : World) :
  ProcessedItem.status result = Status.error ->
  let r := process_result clock uuid batch result acc w in
  let cid := ProcessedItem.client_id result in
  let text := or_default (ProcessedItem.error result) "Sync error" in
  (exists acc',
     result_of r = Ok acc' /\
     totalSynced acc' = totalSynced acc /\
     totalFailed acc' = totalFailed acc + 1 /\
     errors acc' =
       errors acc ++
       [SyncError.mk cid "unknown"
          (or_default (ProcessedItem.error result) "Sync failed") (clock (dates w))]) /\
  tasks (world_of r) = tasks w /\
  (find (queue_id_is cid) batch = None ->
   sync_queue (world_of r) = sync_queue w /\ trace (world_of r) = trace w) /\
  (forall item, find (queue_id_is cid) batch = Some item ->
   sync_queue (world_of r) =
     sync_queue (record_failures item [JsError.mk text] w) /\
   exists tr, trace (world_of r) = trace w ++ tr /\ retry_updates tr = [(cid, text)]).
Proof.
  intros Hs r cid text. subst r.
  rewrite (process_result_error_run clock uuid batch result acc w Hs).
  unfold result_of, world_of. cbn [fst snd]. fold cid.
  split; [eexists; split; [reflexivity|]; cbn; repeat split|].
  destruct (find (queue_id_is cid) batch) as [failedItem|] eqn:Hf.
  - destruct (handleSyncError_trace failedItem (ledger_error result) (after_date w))
      as (w' & tr & E & T & Ru & K).
    rewrite E. cbn [snd]. split; [exact K|]. split; [discriminate|].
    intros item Hi. inversion Hi; subst item. split.
    + pose proof (handleSyncError_queue failedItem (ledger_error result) (after_date w))
        as (_ & Hq & _).
      pose proof (handleSyncError_queue failedItem (JsError.mk text) w) as (_ & Hq' & _).
      cbn zeta in Hq, Hq'. rewrite E in Hq. cbn [world_of snd] in Hq.
      unfold record_failures. cbn [fold_left]. rewrite Hq, Hq'. reflexivity.
    + exists tr. split; [exact T|]. rewrite Ru.
      apply find_In_queue in Hf. destruct Hf as [_ Hid]. now rewrite Hid.
  - cbn. split; [reflexivity|]. split; [intros _; split; reflexivity|].
    intros item Hi. discriminate.
Qed.

Lemma process_result_error_outcome_witness :
  exists acc',
    result_of (process_result sample_clock sample_uuid [fresh_entry]
                 (ProcessedItem.mk "q1" None Status.error None None)
                 (mkTotals 0 0 []) two_entries) = Ok acc' /\
    totalFailed acc' = 1.
Proof.
  destruct (proj1 (process_result_error_outcome sample_clock sample_uuid [fresh_entry]
                     (ProcessedItem.mk "q1" None Status.error None None)
                     (mkTotals 0 0 []) two_entries eq_refl))
    as (acc' & H1 & _ & H3 & _).
  exists acc'. split; [exact H1 | exact H3].
Defined.

(** ** The counts of a cycle *)

Lemma totals_ok_start : totals_ok (mkTotals 0 0 []).
Proof. unfold totals_ok. cbn. lia. Qed.

Lemma process_result_totals (clock : nat -> Date) (uuid : nat -> string)
  (batch : list SyncQueueItem.t) (result : ProcessedItem.t) (acc : Totals) (w : World) :
  exists acc' w',
    process_result clock uuid batch result acc w = (Ok acc', w') /\
    (totals_ok acc -> totals_ok acc').
Proof.
  destruct (ProcessedItem.status result) eqn:Hs.
  - rewrite (process_result_success_run clock uuid batch result acc w Hs).
    eexists _, _. split; [reflexivity|]. unfold totals_ok. cbn. lia.
  - destruct (process_result_conflict clock uuid batch result acc Hs w) as (w' & E).
    exists acc, w'. split; [exact E | auto].
  - rewrite (process_result_error_run clock uuid batch result acc w Hs).
    eexists _, _. split; [reflexivity|]. unfold totals_ok, failed_totals. cbn.
    rewrite length_app. cbn. lia.
Qed.

Lemma process_results_totals (clock : nat -> Date) (uuid : nat -> string)
  (batch : list SyncQueueItem.t) (results : list ProcessedItem.t) :
  forall acc w, exists acc' w',
    process_results clock uuid batch results acc w = (Ok acc', w') /\
    (totals_ok acc -> totals_ok acc').
Proof.
  induction results as [|r results IH]; intros acc w; cbn [process_results].
  - exists acc, w. split; [reflexivity | auto].
  - destruct (process_result_totals clock uuid batch r acc w) as (a1 & w1 & E1 & H1).
    destruct (IH a1 w1) as (a2 & w2 & E2 & H2).
    exists a2, w2. unfold bind. rewrite E1. split; [exact E2 | auto].
Qed.

Lemma process_batch_totals (clock : nat -> Date) (uuid : nat -> string)
  (remote : nat -> BatchSyncRequest.t -> JsError.t + BatchSyncResponse.t)
  (batch : list SyncQueueItem.t) (acc : Totals) (w : World) :
  exists acc' w',
    process_batch clock uuid remote batch acc w = (Ok acc', w') /\
    (totals_ok acc -> totals_ok acc').
Proof.
  destruct (remote (requests w) (BatchSyncRequest.mk batch (clock (dates w))))
    as [err|data] eqn:Hr.
  - rewrite (process_batch_rejected clock uuid remote batch acc w err Hr).
    eexists _, _. split; [reflexivity|]. unfold totals_ok. cbn. lia.
  - rewrite (process_batch_answered clock uuid remote batch acc w data Hr).
    apply process_results_totals.
Qed.

Lemma process_batches_totals (clock : nat -> Date) (uuid : nat -> string)
  (remote : nat -> BatchSyncRequest.t -> JsError.t + BatchSyncResponse.t)
  (batches : list (list SyncQueueItem.t)) :
  forall acc w, exists acc' w',
    process_batches clock uuid remote batches acc w = (Ok acc', w') /\
    (totals_ok acc -> totals_ok acc').
Proof.
  induction batches as [|b batches IH]; intros acc w; cbn [process_batches].
  - exists acc, w. split; [reflexivity | auto].
  - destruct (process_batch_totals clock uuid remote b acc w) as (a1 & w1 & E1 & H1).
    destruct (IH a1 w1) as (a2 & w2 & E2 & H2).
    exists a2, w2. unfold bind. rewrite E1. split; [exact E2 | auto].
Qed.

(** X4. Whenever [sync] returns, its [success] flag is [true] exactly when
    [failed_items] is 0 and the error list is empty; the two counts are
    never negative; and a result either lists no error or reports failure. *)
Theorem sync_success_flag
  (clock : nat -> Date) (uuid : nat -> string) (health : nat -> bool)
  (remote : nat -> BatchSyncRequest.t -> JsError.t + BatchSyncResponse.t)
  (batchSize : number) (fuel : nat) (w : World) (res : SyncResult.t) :
  result_of (sync clock uuid health remote batchSize fuel w) = Ok res ->
  (SyncResult.success res = true <->
   SyncResult.failed_items res = 0 /\ SyncResult.errors res = []) /\
  0 <= SyncResult.synced_items res /\
  0 <= SyncResult.failed_items res /\
  (SyncResult.errors res = [] \/ SyncResult.success res = false).
Proof.
  intros Hres.
  destruct (health (requests w)) eqn:Hh.
  - destruct (sync_queue w) as [|x q] eqn:Hq.
    + rewrite sync_empty_run in Hres by assumption.
      inversion Hres; subst res. cbn. repeat split; auto; lia.
    + assert (Hne : sync_queue w <> []) by (rewrite Hq; discriminate).
      pose proof (sync_online_run clock uuid health remote batchSize fuel w Hh Hne) as Hrun.
      destruct (batch_loop batchSize fuel (snapshot w) (Num 0) []) as [batches|].
      * destruct Hrun as (acc & w' & E & Es). rewrite Es in Hres.
        inversion Hres; subst res. cbn.
        destruct (process_batches_totals clock uuid remote batches (mkTotals 0 0 [])
                    (world_after_snapshot w)) as (a & w2 & E2 & Hok).
        rewrite E2 in E. inversion E; subst a w2.
        destruct (Hok totals_ok_start) as (H1 & H2 & H3).
        assert (Hempty : totalFailed acc = 0 -> errors acc = []).
        { intros H0. rewrite H0 in H3. destruct (errors acc); [reflexivity|].
          cbn [List.length] in H3. lia. }
        destruct (Z.eqb_spec (totalFailed acc) 0) as [E0|E0].
        -- split; [split; [intros _; split; [exact E0 | exact (Hempty E0)] | reflexivity]|].
           split; [exact H1|]. split; [exact H2|]. left. exact (Hempty E0).
        -- split; [split; [discriminate | intros [F _]; contradiction]|].
           split; [exact H1|]. split; [exact H2|]. right. reflexivity.
      * rewrite Hrun in Hres. discriminate.
  - rewrite sync_offline_run in Hres by assumption.
    inversion Hres; subst res. cbn. repeat split; auto; try lia; try discriminate.
    intros [_ F]. discriminate.
Qed.

Lemma sync_success_flag_witness :
  SyncResult.success (SyncResult.mk true 0 0 []) = true <->
  SyncResult.failed_items (SyncResult.mk true 0 0 []) = 0 /\
  SyncResult.errors (SyncResult.mk true 0 0 []) = [].
Proof.
  apply (sync_success_flag sample_clock sample_uuid online conflict_server (Num 10) 3
           conflict_world (SyncResult.mk true 0 0 [])).
  reflexivity.
Defined.

(** ** Cycles of success outcomes *)

Lemma id_in_app (S1 S2 : list string) (i : string) :
  id_in (S1 ++ S2) i = id_in S1 i || id_in S2 i.
Proof. apply existsb_app. Qed.

Lemma id_in_true (S : list string) (i : string) : id_in S i = true <-> In i S.
Proof.
  unfold id_in. rewrite existsb_exists. split.
  - intros (x & Hx & E). apply String.eqb_eq in E. now subst.
  - intros H. exists i. split; [assumption | apply String.eqb_refl].
Qed.

Lemma id_in_false (S : list string) (i : string) : id_in S i = false <-> ~ In i S.
Proof.
  rewrite <- id_in_true. destruct (id_in S i); split; intros; congruence.
Qed.

Lemma queue_without_app (S1 S2 : list string) (q : list SyncQueueItem.t) :
  queue_without (S1 ++ S2) q = queue_without S2 (queue_without S1 q).
Proof.
  unfold queue_without. induction q as [|x q IH]; cbn; [reflexivity|].
  rewrite id_in_app. destruct (id_in S1 (SyncQueueItem.task_id x)); cbn.
  - exact IH.
  - destruct (id_in S2 (SyncQueueItem.task_id x)); cbn; now rewrite IH.
Qed.

Lemma queue_without_nil (q : list SyncQueueItem.t) : queue_without [] q = q.
Proof.
  unfold queue_without. induction q as [|x q IH]; cbn; [reflexivity|].
  f_equal. exact IH.
Qed.

Lemma queue_without_one (i : string) (q : list SyncQueueItem.t) :
  queue_without [i] q = settled_queue i q.
Proof.
  unfold queue_without, settled_queue, queue_task_is, id_in. apply filter_ext.
  intros x. cbn. now rewrite orb_false_r.
Qed.

Lemma queue_without_none (S : list string) (q : list SyncQueueItem.t) :
  (forall x, In x q -> ~ In (SyncQueueItem.task_id x) S) -> queue_without S q = q.
Proof.
  unfold queue_without. induction q as [|x q IH]; cbn; intros H; [reflexivity|].
  rewrite (proj2 (id_in_false S _) (H x (or_introl eq_refl))). cbn.
  f_equal. apply IH. intros y Hy. apply H. now right.
Qed.

Lemma queue_without_all (S : list string) (q : list SyncQueueItem.t) :
  (forall x, In x q -> In (SyncQueueItem.task_id x) S) -> queue_without S q = [].
Proof.
  unfold queue_without. induction q as [|x q IH]; cbn; intros H; [reflexivity|].
  rewrite (proj2 (id_in_true S _) (H x (or_introl eq_refl))). cbn.
  apply IH. intros y Hy. apply H. now right.
Qed.

Lemma settled_between_same (w w' : World) :
  tasks w' = tasks w -> sync_queue w' = sync_queue w -> settled_between [] w w'.
Proof.
  intros Ht Hq. unfold settled_between. rewrite Ht, Hq, queue_without_nil.
  split; [reflexivity|]. split; [reflexivity|].
  intros n row Hn. exists row. repeat split; auto. discriminate.
Qed.

Lemma settled_between_trans (S1 S2 : list string) (w1 w2 w3 : World) :
  settled_between S1 w1 w2 -> settled_between S2 w2 w3 ->
  settled_between (S1 ++ S2) w1 w3.
Proof.
  intros (Q1 & L1 & T1) (Q2 & L2 & T2). split; [|split].
  - rewrite Q2, Q1. symmetry. apply queue_without_app.
  - congruence.
  - intros n row Hn. destruct (T1 n row Hn) as (r1 & Hn1 & I1 & A1 & B1).
    destruct (T2 n r1 Hn1) as (r2 & Hn2 & I2 & A2 & B2).
    exists r2. split; [exact Hn2|]. split; [congruence|].
    rewrite id_in_app. rewrite I1 in A2, B2.
    destruct (id_in S2 (Task.id row)) eqn:E2.
    + split; [intros _; now apply A2 | rewrite orb_true_r; discriminate].
    + rewrite orb_false_r. rewrite (B2 eq_refl). split; assumption.
Qed.

Lemma settled_between_one (clock : nat -> Date) (i : string)
  (serverData : option PartialTask.t) (w : World) :
  settled_between [i] w
    (world_of (updateSyncStatus clock i SyncStatus.synced serverData w)).
Proof.
  rewrite updateSyncStatus_synced_run. unfold world_of. cbn [snd].
  split; [|split]; cbn [sync_queue tasks].
  - symmetry. apply queue_without_one.
  - unfold settled_tasks. apply length_map.
  - intros n row Hn. rewrite settled_tasks_nth, Hn. cbn [option_map].
    unfold id_in, task_id_is. cbn [existsb]. rewrite orb_false_r.
    destruct (String.eqb (Task.id row) i); eexists; repeat split; try discriminate.
Qed.

Lemma process_results_success (clock : nat -> Date) (uuid : nat -> string)
  (batch : list SyncQueueItem.t) (results : list ProcessedItem.t) :
  Forall (fun result => ProcessedItem.status result = Status.success) results ->
  forall acc w, exists w',
    process_results clock uuid batch results acc w =
      (Ok (mkTotals (totalSynced acc + Z.of_nat (List.length results))
             (totalFailed acc) (errors acc)), w') /\
    settled_between (map ProcessedItem.client_id results) w w'.
Proof.
  induction 1 as [|r results Hr _ IH]; intros acc w; cbn [process_results].
  - exists w. split.
    + cbn. rewrite Z.add_0_r. now destruct acc.
    + now apply settled_between_same.
  - unfold bind. rewrite (process_result_success_run clock uuid batch r acc w Hr).
    destruct (IH (mkTotals (totalSynced acc + 1) (totalFailed acc) (errors acc))
                (world_of (updateSyncStatus clock (ProcessedItem.client_id r)
                             SyncStatus.synced
                             (option_map PartialTask.of_Task
                                (ProcessedItem.resolved_data r)) w)))
      as (w' & E & Hs).
    exists w'. split.
    + rewrite E. cbn [totalSynced totalFailed errors List.length].
      do 2 f_equal. f_equal. lia.
    + cbn [map].
      apply (settled_between_trans [ProcessedItem.client_id r] _ _ _ _
               (settled_between_one clock _ _ w) Hs).
Qed.

Lemma process_batch_success (clock : nat -> Date) (uuid : nat -> string)
  (remote : nat -> BatchSyncRequest.t -> JsError.t + BatchSyncResponse.t)
  (key : SyncQueueItem.t -> string) (batch : list SyncQueueItem.t)
  (acc : Totals) (w : World) :
  answers_success key remote ->
  exists w',
    process_batch clock uuid remote batch acc w =
      (Ok (mkTotals (totalSynced acc + Z.of_nat (List.length batch))
             (totalFailed acc) (errors acc)), w') /\
    settled_between (map key batch) w w'.
Proof.
  intros Hr.
  destruct (Hr (requests w) (BatchSyncRequest.mk batch (clock (dates w))))
    as (data & E & Hs & Hk).
  rewrite (process_batch_answered clock uuid remote batch acc w data E).
  destruct (process_results_success clock uuid batch _ Hs acc (after_dispatch w))
    as (w' & E' & Hb).
  exists w'. cbn [BatchSyncRequest.items] in Hk. split.
  - pose proof (f_equal (@List.length _) Hk) as Hlen. rewrite !length_map in Hlen.
    rewrite E', Hlen. reflexivity.
  - rewrite Hk in Hb.
    apply (settled_between_trans [] (map key batch) w (after_dispatch w) w');
      [now apply settled_between_same | exact Hb].
Qed.

Lemma process_batches_success (clock : nat -> Date) (uuid : nat -> string)
  (remote : nat -> BatchSyncRequest.t -> JsError.t + BatchSyncResponse.t)
  (key : SyncQueueItem.t -> string) (batches : list (list SyncQueueItem.t)) :
  answers_success key remote ->
  forall acc w, exists w',
    process_batches clock uuid remote batches acc w =
      (Ok (mkTotals (totalSynced acc + Z.of_nat (List.length (List.concat batches)))
             (totalFailed acc) (errors acc)), w') /\
    settled_between (map key (List.concat batches)) w w'.
Proof.
  intros Hr. induction batches as [|b batches IH]; intros acc w; cbn [process_batches].
  - exists w. split.
    + cbn. rewrite Z.add_0_r. now destruct acc.
    + now apply settled_between_same.
  - destruct (process_batch_success clock uuid remote key b acc w Hr) as (w1 & E1 & H1).
    destruct (IH (mkTotals (totalSynced acc + Z.of_nat (List.length b))
                    (totalFailed acc) (errors acc)) w1) as (w2 & E2 & H2).
    exists w2. unfold bind. rewrite E1, E2. split.
    + cbn [totalSynced totalFailed errors List.concat]. rewrite length_app.
      do 3 f_equal. lia.
    + cbn [List.concat]. rewrite map_app.
      exact (settled_between_trans _ _ _ _ _ H1 H2).
Qed.

Lemma snapshot_key_In (key : SyncQueueItem.t -> string) (w : World) (i : string) :
  (forall r, key (mapRowToQueueItem r) = key r) ->
  (In i (map key (snapshot w)) <-> exists q, In q (sync_queue w) /\ key q = i).
Proof.
  intros Hk. unfold snapshot. rewrite map_map, in_map_iff. split.
  - intros (x & Hx & Hin). apply (proj1 (order_by_created_at_In _ _)) in Hin.
    exists x. split; [assumption|]. now rewrite <- Hk.
  - intros (q & Hin & Hq). exists q. split; [now rewrite Hk|].
    now apply (proj2 (order_by_created_at_In _ _)).
Qed.

(** A cycle against a server that answers every entry with success. *)
Lemma sync_success_cycle
  (clock : nat -> Date) (uuid : nat -> string) (health : nat -> bool)
  (remote : nat -> BatchSyncRequest.t -> JsError.t + BatchSyncResponse.t)
  (key : SyncQueueItem.t -> string) (B : Z) (fuel : nat) (w : World) :
  health (requests w) = true ->
  1 <= B ->
  (List.length (sync_queue w) < fuel)%nat ->
  answers_success key remote ->
  exists w',
    sync clock uuid health remote (Num B) fuel w =
      (Ok (SyncResult.mk true (Z.of_nat (List.length (sync_queue w))) 0 []), w') /\
    settled_between (map key (snapshot w)) w w'.
Proof.
  intros Hh HB Hfuel Hr. destruct (sync_queue w) as [|x q] eqn:Hq.
  - rewrite sync_empty_run by assumption. eexists. split; [reflexivity|].
    unfold snapshot. rewrite Hq. cbn [order_by_created_at fold_right map].
    now apply settled_between_same.
  - assert (Hne : sync_queue w <> []) by (rewrite Hq; discriminate).
    pose proof (sync_online_run clock uuid health remote (Num B) fuel w Hh Hne) as Hrun.
    destruct (batch_loop_from B (snapshot w) HB fuel 0 [])
      as (batches & Hb & Hcat & _); [lia | rewrite length_snapshot, Hq; lia |].
    cbn [app] in Hb. rewrite Hb in Hrun. cbn [Z.to_nat skipn] in Hcat.
    destruct Hrun as (acc & w' & E & Es).
    destruct (process_batches_success clock uuid remote key batches Hr
                (mkTotals 0 0 []) (world_after_snapshot w)) as (w2 & E2 & H2).
    rewrite E2 in E. inversion E; subst acc w'. clear E.
    exists w2. split.
    + rewrite Es. cbn [totalSynced totalFailed errors]. rewrite Hcat, length_snapshot, Hq.
      reflexivity.
    + rewrite Hcat in H2.
      apply (settled_between_trans [] _ w (world_after_snapshot w) w2);
        [now apply settled_between_same | exact H2].
Qed.

(** X5. With the gate open, a positive batch size and a server that answers
    every entry with a success outcome named after the record of the entry,
    a cycle reports every snapshot entry as synced, leaves the queue empty
    and every record that had a queue entry [synced]; the records without a
    queue entry are as before. *)
Theorem sync_success_by_record_drains_queue
  (clock : nat -> Date) (uuid : nat -> string) (health : nat -> bool)
  (remote : nat -> BatchSyncRequest.t -> JsError.t + BatchSyncResponse.t)
  (B : Z) (fuel : nat) (w : World) :
  health (requests w) = true ->
  1 <= B ->
  (List.length (sync_queue w) < fuel)%nat ->
  answers_success SyncQueueItem.task_id remote ->
  let r := sync clock uuid health remote (Num B) fuel w in
  result_of r =
    Ok (SyncResult.mk true (Z.of_nat (List.length (sync_queue w))) 0 []) /\
  sync_queue (world_of r) = [] /\
  (forall row', In row' (tasks (world_of r)) ->
     (exists q, In q (sync_queue w) /\ SyncQueueItem.task_id q = Task.id row') ->
     Task.sync_status row' = SyncStatus.synced) /\
  (forall n row, nth_error (tasks w) n = Some row ->
     (forall q, In q (sync_queue w) -> SyncQueueItem.task_id q <> Task.id row) ->
     nth_error (tasks (world_of r)) n = Some row).
Proof.
  intros Hh HB Hfuel Hr r. subst r.
  destruct (sync_success_cycle clock uuid health remote SyncQueueItem.task_id B fuel w
              Hh HB Hfuel Hr) as (w' & E & Hq & Hl & Ht).
  rewrite E. unfold result_of, world_of. cbn [fst snd].
  assert (Hkey : forall i, In i (map SyncQueueItem.task_id (snapshot w)) <->
                           exists q, In q (sync_queue w) /\ SyncQueueItem.task_id q = i).
  { intros i. apply snapshot_key_In. reflexivity. }
  split; [reflexivity|]. split; [|split].
  - rewrite Hq. apply queue_without_all. intros x Hx. apply Hkey. now exists x.
  - intros row' Hin Hex. apply In_nth_error in Hin. destruct Hin as (n & Hn).
    assert (Hsome : nth_error (tasks w) n <> None).
    { apply nth_error_Some. rewrite <- Hl. apply nth_error_Some. congruence. }
    destruct (nth_error (tasks w) n) as [row|] eqn:Hn0; [|contradiction].
    destruct (Ht n row Hn0) as (row2 & Hn2 & Hid & Hs & _).
    rewrite Hn in Hn2. inversion Hn2; subst row2.
    apply Hs. apply id_in_true, Hkey. rewrite <- Hid. exact Hex.
  - intros n row Hn Hno. destruct (Ht n row Hn) as (row2 & Hn2 & _ & _ & Hsame).
    rewrite Hn2. f_equal. apply Hsame. apply id_in_false. intros Hin.
    apply Hkey in Hin. destruct Hin as (q & Hq1 & Hq2). exact (Hno q Hq1 Hq2).
Qed.

Lemma success_server_answers : answers_success SyncQueueItem.task_id success_server.
Proof.
  intros n request. eexists. split; [reflexivity|]. cbn.
  induction (BatchSyncRequest.items request) as [|x l [IH1 IH2]]; cbn.
  - split; [constructor | reflexivity].
  - split; [constructor; [reflexivity | exact IH1] | now rewrite IH2].
Qed.

Lemma sync_success_by_record_drains_queue_witness :
  result_of (sync sample_clock sample_uuid online success_server (Num 1) 3
               conflict_world) = Ok (SyncResult.mk true 2 0 []) /\
  sync_queue (world_of (sync sample_clock sample_uuid online success_server (Num 1) 3
                          conflict_world)) = [].
Proof.
  destruct (sync_success_by_record_drains_queue sample_clock sample_uuid online
              success_server 1 3 conflict_world eq_refl) as (H1 & H2 & _).
  - lia.
  - cbn. lia.
  - exact success_server_answers.
  - split; [exact H1 | exact H2].
Defined.

Lemma batch_processed_items_spec (random : nat -> string)
  (items : list SyncQueueItem.t) :
  forall k,
  Forall (fun result => ProcessedItem.status result = Status.success)
    (batch_processed_items random k items) /\
  map ProcessedItem.client_id (batch_processed_items random k items) =
  map SyncQueueItem.id items.
Proof.
  induction items as [|x l IH]; intros k; cbn.
  - split; [constructor | reflexivity].
  - destruct (IH (S k)) as [IH1 IH2].
    split; [constructor; [reflexivity | exact IH1] | now rewrite IH2].
Qed.

Lemma batch_endpoint_answers (random : nat -> string) (server_clock : nat -> Date) :
  answers_success SyncQueueItem.id (batch_endpoint random server_clock).
Proof.
  intros n request. eexists. split; [reflexivity|]. cbn.
  apply batch_processed_items_spec.
Qed.

(** X6. When the server is the batch endpoint of this repository, which
    names every outcome after the id of the queue entry, and no queue entry
    id is the id of a record or the record of a queue entry, a cycle with an
    open gate and a positive batch size reports every snapshot entry as
    synced and changes neither the records nor the queue: every entry is
    still queued and every record keeps its synchronisation state. *)
Theorem sync_against_batch_endpoint_settles_nothing
  (clock : nat -> Date) (uuid : nat -> string) (health : nat -> bool)
  (random : nat -> string) (server_clock : nat -> Date)
  (B : Z) (fuel : nat) (w : World) :
  health (requests w) = true ->
  1 <= B ->
  (List.length (sync_queue w) < fuel)%nat ->
  (forall q t, In q (sync_queue w) -> In t (tasks w) ->
     Task.id t <> SyncQueueItem.id q) ->
  (forall q q', In q (sync_queue w) -> In q' (sync_queue w) ->
     SyncQueueItem.task_id q' <> SyncQueueItem.id q) ->
  let r := sync clock uuid health (batch_endpoint random server_clock) (Num B) fuel w in
  result_of r =
    Ok (SyncResult.mk true (Z.of_nat (List.length (sync_queue w))) 0 []) /\
  tasks (world_of r) = tasks w /\
  sync_queue (world_of r) = sync_queue w.
Proof.
  intros Hh HB Hfuel Htasks Hqueue r. subst r.
  destruct (sync_success_cycle clock uuid health (batch_endpoint random server_clock)
              SyncQueueItem.id B fuel w Hh HB Hfuel
              (batch_endpoint_answers random server_clock)) as (w' & E & Hq & Hl & Ht).
  rewrite E. unfold result_of, world_of. cbn [fst snd].
  assert (Hkey : forall i, In i (map SyncQueueItem.id (snapshot w)) <->
                           exists q, In q (sync_queue w) /\ SyncQueueItem.id q = i).
  { intros i. apply snapshot_key_In. reflexivity. }
  split; [reflexivity|]. split.
  - apply nth_error_ext. intros n.
    destruct (nth_error (tasks w) n) as [row|] eqn:Hn.
    + destruct (Ht n row Hn) as (row2 & Hn2 & _ & _ & Hsame).
      rewrite Hn2. f_equal. apply Hsame. apply id_in_false. intros Hin.
      apply Hkey in Hin. destruct Hin as (q & Hq1 & Hq2).
      apply nth_error_In in Hn. exact (Htasks q row Hq1 Hn (eq_sym Hq2)).
    + apply nth_error_None. rewrite Hl. now apply nth_error_None.
  - rewrite Hq. apply queue_without_none. intros x Hx Hin.
    apply Hkey in Hin. destruct Hin as (q & Hq1 & Hq2).
    exact (Hqueue q x Hq1 Hx (eq_sym Hq2)).
Qed.

Lemma sync_against_batch_endpoint_settles_nothing_witness :
  result_of (sync sample_clock sample_uuid online
               (batch_endpoint sample_random sample_clock) (Num 10) 3 conflict_world) =
    Ok (SyncResult.mk true 2 0 []) /\
  sync_queue (world_of (sync sample_clock sample_uuid online
                          (batch_endpoint sample_random sample_clock) (Num 10) 3
                          conflict_world)) = [fresh_entry; other_entry].
Proof.
  destruct (sync_against_batch_endpoint_settles_nothing sample_clock sample_uuid online
              sample_random sample_clock 10 3 conflict_world eq_refl)
    as (H1 & _ & H3).
  - lia.
  - cbn. lia.
  - cbn. intros q t [<-|[<-|[]]] [<-|[]]; discriminate.
  - cbn. intros q q' [<-|[<-|[]]] [<-|[<-|[]]]; discriminate.
  - split; [exact H1 | exact H3].
Defined.

(** ** Cycles of rejected dispatches *)

Lemma handleSyncError_fail_queue (item : SyncQueueItem.t) (err : JsError.t) (w : World) :
  sync_queue (world_of (handleSyncError item err w)) =
    fail_queue (SyncQueueItem.id item) (JsError.message err) (sync_queue w) /\
  tasks (world_of (handleSyncError item err w)) = tasks w.
Proof.
  destruct (handleSyncError_queue item err w) as (_ & Hq & Ht). split; assumption.
Qed.

Lemma fail_queue_other (i msg : string) (q : list SyncQueueItem.t) (x : SyncQueueItem.t) :
  SyncQueueItem.id x <> i -> (In x (fail_queue i msg q) <-> In x q).
Proof.
  intros Hx. unfold fail_queue.
  destruct (find _ _) as [y|]; [destruct (_ >? _)|];
    rewrite ?deleted_other by exact Hx; apply bumped_other; exact Hx.
Qed.

Lemma find_only_row (r : SyncQueueItem.t) (q : list SyncQueueItem.t) :
  only_row r q -> find (queue_id_is (SyncQueueItem.id r)) q = Some r.
Proof.
  intros [Hin Hu]. destruct (find (queue_id_is (SyncQueueItem.id r)) q) as [x|] eqn:Hf.
  - apply find_In_queue in Hf. destruct Hf as [Hx Hid]. f_equal. now apply Hu.
  - apply find_absent in Hf. exfalso. exact (Hf r Hin eq_refl).
Qed.

Lemma fail_queue_own (msg : string) (q : list SyncQueueItem.t) (r : SyncQueueItem.t) :
  only_row r q ->
  if SyncQueueItem.retry_count r + 1 >? maxRetries
  then absent (SyncQueueItem.id r) (fail_queue (SyncQueueItem.id r) msg q)
  else only_row (bump_retry msg r) (fail_queue (SyncQueueItem.id r) msg q).
Proof.
  intros Hr. pose proof (find_only_row r q Hr) as Hf. destruct Hr as [Hin Hu].
  unfold fail_queue. rewrite find_bumped, Hf. cbn [option_map].
  change (SyncQueueItem.retry_count (bump_retry msg r))
    with (SyncQueueItem.retry_count r + 1).
  destruct (SyncQueueItem.retry_count r + 1 >? maxRetries).
  - apply deleted_absent.
  - split.
    + unfold bumped_queue. apply in_map_iff. exists r. split; [|assumption].
      unfold queue_id_is. now rewrite String.eqb_refl.
    + intros x Hx Hid. unfold bumped_queue in Hx. apply in_map_iff in Hx.
      destruct Hx as (y & Hy & Hyin). cbn in Hid. unfold queue_id_is in Hy.
      destruct (String.eqb_spec (SyncQueueItem.id y) (SyncQueueItem.id r)) as [E|E].
      * rewrite (Hu y Hyin E) in Hy. now symmetry.
      * subst y. contradiction.
Qed.

Lemma fail_queue_all_other (steps : list (string * string)) (x : SyncQueueItem.t) :
  ~ In (SyncQueueItem.id x) (map fst steps) ->
  forall q, In x (fail_queue_all steps q) <-> In x q.
Proof.
  induction steps as [|[i msg] steps IH]; intros Hx q; [reflexivity|].
  cbn [fail_queue_all fold_left fst snd]. fold (fail_queue_all steps (fail_queue i msg q)).
  rewrite IH.
  - apply fail_queue_other. intros E. apply Hx. left. now symmetry.
  - intros H. apply Hx. now right.
Qed.

Lemma fail_queue_all_absent (steps : list (string * string)) (i : string) :
  ~ In i (map fst steps) ->
  forall q, absent i q -> absent i (fail_queue_all steps q).
Proof.
  intros Hi q Ha x Hx E. apply fail_queue_all_other in Hx; [|now rewrite E].
  exact (Ha x Hx E).
Qed.

Lemma fail_queue_all_only_row (steps : list (string * string)) (r : SyncQueueItem.t) :
  ~ In (SyncQueueItem.id r) (map fst steps) ->
  forall q, only_row r q -> only_row r (fail_queue_all steps q).
Proof.
  intros Hi q [Hin Hu]. split.
  - now apply fail_queue_all_other.
  - intros x Hx E. apply Hu; [|exact E].
    apply (fail_queue_all_other steps x); [now rewrite E | exact Hx].
Qed.

(** Every entry fails once: the row is bumped once, or dropped. *)
Lemma fail_queue_all_once (steps : list (string * string)) (r : SyncQueueItem.t) :
  NoDup (map fst steps) ->
  In (SyncQueueItem.id r) (map fst steps) ->
  forall q, only_row r q ->
  if SyncQueueItem.retry_count r + 1 >? maxRetries
  then absent (SyncQueueItem.id r) (fail_queue_all steps q)
  else exists msg, In (SyncQueueItem.id r, msg) steps /\
                   only_row (bump_retry msg r) (fail_queue_all steps q).
Proof.
  induction steps as [|[i msg] steps IH]; intros Hnd Hin q Hr; [destruct Hin|].
  cbn [map fst] in Hnd, Hin. inversion Hnd as [|? ? Hni Hnd']; subst.
  cbn [fail_queue_all fold_left fst snd]. fold (fail_queue_all steps (fail_queue i msg q)).
  destruct (String.eqb_spec i (SyncQueueItem.id r)) as [E|E].
  - subst i. pose proof (fail_queue_own msg q r Hr) as Hown.
    destruct (SyncQueueItem.retry_count r + 1 >? maxRetries).
    + now apply fail_queue_all_absent.
    + exists msg. split; [now left|].
      apply fail_queue_all_only_row; [exact Hni | exact Hown].
  - destruct Hin as [Hin|Hin]; [contradiction|].
    assert (Hr' : only_row r (fail_queue i msg q)).
    { destruct Hr as [Hrin Hu]. split.
      - apply fail_queue_other; [now intros F; apply E | exact Hrin].
      - intros x Hx Ex. apply Hu; [|exact Ex].
        apply (fail_queue_other i msg q x); [rewrite Ex; now intros F; apply E | exact Hx]. }
    specialize (IH Hnd' Hin _ Hr').
    destruct (SyncQueueItem.retry_count r + 1 >? maxRetries); [exact IH|].
    destruct IH as (m & Hm & Ho). exists m. split; [now right | exact Ho].
Qed.

(** ** The snapshot *)

Lemma insert_by_created_at_perm (x : SyncQueueItem.t) (l : list SyncQueueItem.t) :
  Permutation (insert_by_created_at x l) (x :: l).
Proof.
  induction l as [|y l IH]; cbn; [apply Permutation_refl|].
  destruct (text_leb _ _); [apply Permutation_refl|].
  eapply Permutation_trans; [apply perm_skip, IH | apply perm_swap].
Qed.

Lemma order_by_created_at_perm (l : list SyncQueueItem.t) :
  Permutation (order_by_created_at l) l.
Proof.
  unfold order_by_created_at. induction l as [|y l IH]; cbn; [constructor|].
  eapply Permutation_trans; [apply insert_by_created_at_perm | now apply perm_skip].
Qed.

(** ** A cycle in which every dispatch is rejected *)

Lemma fail_queue_all_app (s1 s2 : list (string * string)) (q : list SyncQueueItem.t) :
  fail_queue_all (s1 ++ s2) q = fail_queue_all s2 (fail_queue_all s1 q).
Proof. unfold fail_queue_all. apply fold_left_app. Qed.

Lemma for_each_handleSyncError_queue (err : JsError.t) (batch : list SyncQueueItem.t) :
  forall w,
  sync_queue (world_of (for_each batch (fun item => handleSyncError item err) w)) =
    fail_queue_all
      (map (fun item => (SyncQueueItem.id item, JsError.message err)) batch)
      (sync_queue w) /\
  tasks (world_of (for_each batch (fun item => handleSyncError item err) w)) = tasks w.
Proof.
  induction batch as [|x batch IH]; intros w; [split; reflexivity|].
  cbn [for_each]. unfold bind. rewrite handleSyncError_returns_unit.
  destruct (IH (world_of (handleSyncError x err w))) as [Hq Ht].
  destruct (handleSyncError_fail_queue x err w) as [Hq1 Ht1].
  split.
  - rewrite Hq, Hq1. reflexivity.
  - rewrite Ht, Ht1. reflexivity.
Qed.

Lemma process_batches_rejected (clock : nat -> Date) (uuid : nat -> string)
  (remote : nat -> BatchSyncRequest.t -> JsError.t + BatchSyncResponse.t)
  (batches : list (list SyncQueueItem.t)) :
  rejects_all remote ->
  forall acc w, exists w' steps,
    process_batches clock uuid remote batches acc w =
      (Ok (mkTotals (totalSynced acc)
             (totalFailed acc + Z.of_nat (List.length (List.concat batches)))
             (errors acc)), w') /\
    map fst steps = map SyncQueueItem.id (List.concat batches) /\
    sync_queue w' = fail_queue_all steps (sync_queue w) /\
    tasks w' = tasks w.
Proof.
  intros Hr. induction batches as [|b batches IH]; intros acc w; cbn [process_batches].
  - exists w, []. split; [|repeat split].
    cbn. rewrite Z.add_0_r. now destruct acc.
  - destruct (Hr (requests w) (BatchSyncRequest.mk b (clock (dates w)))) as (err & E).
    unfold bind. rewrite (process_batch_rejected clock uuid remote b acc w err E).
    destruct (for_each_handleSyncError_queue err b (after_dispatch w)) as [Hq Ht].
    destruct (IH (mkTotals (totalSynced acc) (totalFailed acc + Z.of_nat (List.length b))
                    (errors acc))
                (world_of (for_each b (fun item => handleSyncError item err)
                             (after_dispatch w))))
      as (w' & steps & E' & Hs & Hq' & Ht').
    exists w', (map (fun item => (SyncQueueItem.id item, JsError.message err)) b ++ steps).
    split; [|split; [|split]].
    + rewrite E'. cbn [totalSynced totalFailed errors List.concat]. rewrite length_app.
      do 3 f_equal. lia.
    + cbn [List.concat]. rewrite !map_app, Hs, map_map. reflexivity.
    + rewrite Hq', Hq, fail_queue_all_app. reflexivity.
    + rewrite Ht', Ht. reflexivity.
Qed.

Lemma NoDup_only_row (q : list SyncQueueItem.t) (r : SyncQueueItem.t) :
  NoDup (map SyncQueueItem.id q) -> In r q -> only_row r q.
Proof.
  intros Hnd Hin. split; [assumption|]. intros x Hx E.
  induction q as [|y q IH]; [destruct Hin|].
  cbn in Hnd. inversion Hnd as [|? ? Hni Hnd']; subst.
  destruct Hin as [->|Hin], Hx as [->|Hx]; auto.
  - exfalso. apply Hni. rewrite <- E. now apply in_map.
  - exfalso. apply Hni. rewrite E. now apply in_map.
Qed.

(** ** A batch whose dispatch is rejected *)

(** C8. When the dispatch of a batch of [K] entries is rejected, the batch
    adds exactly [K] to the failed count, leaves the synced count and the
    error list alone, and runs exactly [K] retry updates on the queue, one
    per entry of the batch in order, each with the text of the transport
    error; no record is written.  The updates are performed on the queue:
    it is the queue after one [handleSyncError] per entry, and when the
    entries of the batch have distinct ids, every queue row of an entry of
    the batch has its retry count raised by exactly one and carries the
    text of the error, its other columns kept, or is removed when the
    raised count exceeds 3; the rows of other entries are as before. *)
Theorem process_batch_transport_failure
  (clock : nat -> Date) (uuid : nat -> string)
  (remote : nat -> BatchSyncRequest.t -> JsError.t + BatchSyncResponse.t)
  (batch : list SyncQueueItem.t) (acc : Totals) (w : World) (err : JsError.t) :
  remote (requests w) (BatchSyncRequest.mk batch (clock (dates w))) = inl err ->
  let r := process_batch clock uuid remote batch acc w in
  exists acc' tr,
    result_of r = Ok acc' /\
    totalFailed acc' = totalFailed acc + Z.of_nat (List.length batch) /\
    totalSynced acc' = totalSynced acc /\
    errors acc' = errors acc /\
    trace (world_of r) = trace w ++ tr /\
    retry_updates tr =
      map (fun item => (SyncQueueItem.id item, JsError.message err)) batch /\
    List.length (retry_updates tr) = List.length batch /\
    tasks (world_of r) = tasks w /\
    sync_queue (world_of r) =
      fail_queue_all
        (map (fun item => (SyncQueueItem.id item, JsError.message err)) batch)
        (sync_queue w) /\
    (NoDup (map SyncQueueItem.id batch) ->
     forall row, only_row row (sync_queue w) ->
       In (SyncQueueItem.id row) (map SyncQueueItem.id batch) ->
       (SyncQueueItem.retry_count row + 1 <= 3 ->
        exists row',
          only_row row' (sync_queue (world_of r)) /\
          SyncQueueItem.id row' = SyncQueueItem.id row /\
          SyncQueueItem.retry_count row' = SyncQueueItem.retry_count row + 1 /\
          SyncQueueItem.error_message row' = Some (JsError.message err) /\
          SyncQueueItem.task_id row' = SyncQueueItem.task_id row /\
          SyncQueueItem.operation row' = SyncQueueItem.operation row /\
          SyncQueueItem.data row' = SyncQueueItem.data row /\
          SyncQueueItem.created_at row' = SyncQueueItem.created_at row) /\
       (3 < SyncQueueItem.retry_count row + 1 ->
        absent (SyncQueueItem.id row) (sync_queue (world_of r)))) /\
    (forall row, ~ In (SyncQueueItem.id row) (map SyncQueueItem.id batch) ->
       (In row (sync_queue (world_of r)) <-> In row (sync_queue w))).
Proof.
  intros Hr r.
  set (steps := map (fun item => (SyncQueueItem.id item, JsError.message err)) batch).
  assert (Hsteps : map fst steps = map SyncQueueItem.id batch).
  { unfold steps. rewrite map_map. reflexivity. }
  set (w0 := next_request (mkWorld (tasks w) (sync_queue w) (trace w)
                             (S (dates w)) (uuids w) (requests w))).
  assert (Hrun : exists w' tr,
            process_batch clock uuid remote batch acc w =
              (Ok (mkTotals (totalSynced acc)
                     (totalFailed acc + Z.of_nat (List.length batch)) (errors acc)), w') /\
            trace w' = trace w ++ tr /\
            retry_updates tr = steps /\
            tasks w' = tasks w /\
            sync_queue w' = fail_queue_all steps (sync_queue w)).
  { unfold process_batch, try_catch, processBatch, new_Date, bind.
    cbn [requests]. rewrite Hr. fold w0.
    destruct (for_each_handleSyncError err batch w0) as (w' & tr & E & T & R & K).
    pose proof (for_each_handleSyncError_queue err batch w0) as [Q _].
    rewrite E in Q |- *. exists w', tr. cbn in T, K, Q.
    repeat split; assumption. }
  destruct Hrun as (w' & tr & E & T & R & K & Q).
  subst r. rewrite E. eexists _, tr. unfold result_of, world_of.
  cbn [fst snd totalFailed totalSynced errors].
  split; [reflexivity|]. split; [reflexivity|]. split; [reflexivity|].
  split; [reflexivity|]. split; [exact T|]. split; [exact R|].
  split; [rewrite R; apply length_map|]. split; [exact K|]. split; [exact Q|].
  rewrite Q. split.
  - intros Hnd row Hrow Hin.
    pose proof (fail_queue_all_once steps row) as Honce.
    rewrite Hsteps in Honce. specialize (Honce Hnd Hin _ Hrow).
    change maxRetries with 3 in Honce.
    destruct (Z.gtb_spec (SyncQueueItem.retry_count row + 1) 3) as [G|G]; split.
    + intros; lia.
    + intros _. exact Honce.
    + intros _. destruct Honce as (msg & Hmsg & Ho).
      unfold steps in Hmsg. apply in_map_iff in Hmsg.
      destruct Hmsg as (item & Hitem & _). injection Hitem as _ <-.
      exists (bump_retry (JsError.message err) row).
      split; [exact Ho|]. cbn. repeat split.
    + intros; lia.
  - intros row Hrow. apply fail_queue_all_other. now rewrite Hsteps.
Qed.

(** Two fresh entries whose dispatch times out: both are counted as failed
    and both rows are kept with the retry count 1 and the text of the
    error. *)
Lemma process_batch_transport_failure_witness :
  exists acc' tr,
    result_of (process_batch sample_clock sample_uuid failing_server
                 [fresh_entry; other_entry] (mkTotals 0 0 []) two_entries) = Ok acc' /\
    totalFailed acc' = 2 /\
    retry_updates tr =
      [("q1", "timeout of 8000ms exceeded"); ("q2", "timeout of 8000ms exceeded")]%string /\
    map SyncQueueItem.retry_count
      (sync_queue (world_of (process_batch sample_clock sample_uuid failing_server
                               [fresh_entry; other_entry] (mkTotals 0 0 []) two_entries))) =
      [1; 1].
Proof.
  destruct (process_batch_transport_failure sample_clock sample_uuid failing_server
              [fresh_entry; other_entry] (mkTotals 0 0 []) two_entries timeout_error
              eq_refl) as (acc' & tr & H1 & H2 & _ & _ & _ & H6 & _ & _ & H9 & _).
  exists acc', tr. split; [exact H1|]. split; [exact H2|]. split; [exact H6|].
  rewrite H9. reflexivity.
Defined.

Lemma snapshot_ids (w : World) :
  Permutation (map SyncQueueItem.id (snapshot w)) (map SyncQueueItem.id (sync_queue w)).
Proof.
  unfold snapshot. rewrite map_map. cbn [mapRowToQueueItem SyncQueueItem.id].
  apply Permutation_map, order_by_created_at_perm.
Qed.

(** X8. With the gate open, a positive batch size and a server that rejects
    every request, a cycle over a queue that is not empty returns
    [success = false] with every snapshot entry counted as failed, none as
    synced, and an empty error list; no record is written.  When the ids of
    the queue are distinct, every entry has failed exactly once: an entry
    whose retry count was below [maxRetries] is still queued with the count
    raised by one and an error text, and an entry that had reached it is
    gone. *)
Theorem sync_all_dispatches_rejected
  (clock : nat -> Date) (uuid : nat -> string) (health : nat -> bool)
  (remote : nat -> BatchSyncRequest.t -> JsError.t + BatchSyncResponse.t)
  (B : Z) (fuel : nat) (w : World) :
  health (requests w) = true ->
  1 <= B ->
  (List.length (sync_queue w) < fuel)%nat ->
  sync_queue w <> [] ->
  rejects_all remote ->
  let r := sync clock uuid health remote (Num B) fuel w in
  result_of r =
    Ok (SyncResult.mk false 0 (Z.of_nat (List.length (sync_queue w))) []) /\
  tasks (world_of r) = tasks w /\
  (NoDup (map SyncQueueItem.id (sync_queue w)) ->
   forall row, In row (sync_queue w) ->
     (SyncQueueItem.retry_count row < maxRetries ->
      exists msg, In (bump_retry msg row) (sync_queue (world_of r))) /\
     (maxRetries <= SyncQueueItem.retry_count row ->
      absent (SyncQueueItem.id row) (sync_queue (world_of r)))).
Proof.
  intros Hh HB Hfuel Hne Hr r. subst r.
  pose proof (sync_online_run clock uuid health remote (Num B) fuel w Hh Hne) as Hrun.
  destruct (batch_loop_from B (snapshot w) HB fuel 0 [])
    as (batches & Hb & Hcat & _); [lia | rewrite length_snapshot; lia |].
  cbn [app] in Hb. rewrite Hb in Hrun. cbn [Z.to_nat skipn] in Hcat.
  destruct Hrun as (acc & w' & E & Es).
  destruct (process_batches_rejected clock uuid remote batches Hr
              (mkTotals 0 0 []) (world_after_snapshot w))
    as (w2 & steps & E2 & Hs & Hq & Ht).
  rewrite E2 in E. inversion E; subst acc w'. clear E.
  rewrite Es. unfold result_of, world_of. cbn [fst snd totalSynced totalFailed errors].
  rewrite Hcat, length_snapshot in *.
  split.
  { f_equal. f_equal. destruct (sync_queue w); [contradiction|]. reflexivity. }
  split; [exact Ht|].
  intros Hnd row Hin.
  assert (Hnd' : NoDup (map fst steps)).
  { rewrite Hs. eapply Permutation_NoDup; [|exact Hnd].
    apply Permutation_sym, snapshot_ids. }
  assert (Hin' : In (SyncQueueItem.id row) (map fst steps)).
  { rewrite Hs. eapply Permutation_in; [apply Permutation_sym, snapshot_ids|].
    now apply in_map. }
  pose proof (fail_queue_all_once steps row Hnd' Hin' (sync_queue w)
                (NoDup_only_row _ _ Hnd Hin)) as Honce.
  rewrite Hq. cbn [world_after_snapshot record_stmt sync_queue next_request].
  destruct (Z.gtb_spec (SyncQueueItem.retry_count row + 1) maxRetries) as [G|G].
  - split; [intros L; lia | intros _; exact Honce].
  - split; [|intros L; lia]. intros _. destruct Honce as (msg & _ & Ho & _).
    now exists msg.
Qed.

Lemma sync_all_dispatches_rejected_witness :
  result_of (sync sample_clock sample_uuid online failing_server (Num 1) 3 two_entries) =
    Ok (SyncResult.mk false 0 2 []) /\
  exists msg,
    In (bump_retry msg fresh_entry)
      (sync_queue (world_of (sync sample_clock sample_uuid online failing_server (Num 1)
                               3 two_entries))).
Proof.
  destruct (sync_all_dispatches_rejected sample_clock sample_uuid online failing_server
              1 3 two_entries eq_refl) as (H1 & _ & H3).
  - lia.
  - cbn. lia.
  - discriminate.
  - intros n request. now exists timeout_error.
  - split; [exact H1|].
    apply (H3 ltac:(repeat constructor; cbn; intuition discriminate)
             fresh_entry (or_introl eq_refl)).
    reflexivity.
Defined.

(** ** The record store *)

Lemma find_map_task (f : Task.t -> Task.t) (i : string) (l : list Task.t) :
  (forall r, Task.id (f r) = Task.id r) ->
  find (task_id_is i) (map f l) = option_map f (find (task_id_is i) l).
Proof.
  intros Hf. induction l as [|x l IH]; cbn; [reflexivity|].
  unfold task_id_is at 1 3. rewrite Hf.
  destruct (String.eqb (Task.id x) i); [reflexivity | exact IH].
Qed.

Lemma find_task_app_new (i : string) (l : list Task.t) (t : Task.t) :
  (forall row, In row l -> Task.id row <> i) -> Task.id t = i ->
  find (task_id_is i) (l ++ [t]) = Some t.
Proof.
  intros Hl Ht. induction l as [|x l IH]; cbn.
  - unfold task_id_is. now rewrite (proj2 (String.eqb_eq _ _) Ht).
  - unfold task_id_is at 1.
    rewrite (proj2 (String.eqb_neq _ _) (Hl x (or_introl eq_refl))).
    apply IH. intros row Hrow. apply Hl. now right.
Qed.

(** X9. [createTask] stores a new record under a fresh uuid with the title
    and description of its argument, [Untitled Task] and the empty
    description when they are missing or empty; whatever else the argument
    says, the record is not completed, not deleted, [pending], and created
    and modified at the current date.  It appends the record to the table
    and one [create] entry for it, with retry count 0, to the queue.  When
    no stored record has the new id, [getTask] on it returns the task that
    [createTask] returned. *)
Theorem createTask_then_getTask
  (clock : nat -> Date) (uuid : nat -> string) (taskData : PartialTask.t) (w : World) :
  (forall row, In row (tasks w) -> Task.id row <> uuid (uuids w)) ->
  let r := createTask clock uuid taskData w in
  exists t e,
    result_of r = Ok t /\
    t = Task.mk (uuid (uuids w))
          (or_default (PartialTask.title taskData) "Untitled Task")
          (or_default (PartialTask.description taskData) EmptyString)
          false (clock (dates w)) (clock (dates w)) false SyncStatus.pending
          None None /\
    tasks (world_of r) = tasks w ++ [t] /\
    sync_queue (world_of r) = sync_queue w ++ [e] /\
    SyncQueueItem.task_id e = Task.id t /\
    SyncQueueItem.operation e = Operation.create /\
    SyncQueueItem.data e = PartialTask.of_Task t /\
    SyncQueueItem.retry_count e = 0 /\
    SyncQueueItem.error_message e = None /\
    result_of (getTask (Task.id t) (world_of r)) = Ok (Some t).
Proof.
  intros Hfresh r. subst r. eexists _, _.
  split; [reflexivity|]. split; [reflexivity|].
  split; [reflexivity|]. split; [reflexivity|].
  repeat (split; [reflexivity|]).
  unfold getTask, select_task, modify, gets, bind, result_of, world_of.
  cbn [createTask fst snd tasks record_stmt Task.id].
  cbn. rewrite find_task_app_new; [reflexivity | exact Hfresh | reflexivity].
Qed.

Lemma createTask_then_getTask_witness :
  exists t,
    result_of (createTask sample_clock sample_uuid
                 (PartialTask.mk None None None (Some true) None None None None None None)
                 two_entries) = Ok t /\
    Task.title t = "Untitled Task"%string /\ Task.completed t = false.
Proof.
  destruct (createTask_then_getTask sample_clock sample_uuid
              (PartialTask.mk None None None (Some true) None None None None None None)
              two_entries) as (t & e & H1 & H2 & _).
  - intros row [].
  - exists t. split; [exact H1|]. rewrite H2. split; reflexivity.
Defined.

Lemma getTask_run (id : string) (w : World) :
  getTask id w =
  (Ok match find (task_id_is id) (tasks w) with
      | Some r => if Task.is_deleted r then None else Some (mapRowToTask r)
      | None => None
      end,
   record_stmt (SelectTask id) w).
Proof.
  unfold getTask, select_task, modify, gets, ret, bind. cbn [record_stmt tasks].
  destruct (find _ _) as [r|]; [destruct (Task.is_deleted r)|]; reflexivity.
Qed.

Lemma updateTask_active_run (clock : nat -> Date) (uuid : nat -> string)
  (id : string) (updates : PartialTask.t) (row : Task.t) (w : World) :
  find (task_id_is id) (tasks w) = Some row ->
  Task.is_deleted row = false ->
  let u := merge_updates (mapRowToTask row) updates (clock (dates w)) in
  exists w',
    updateTask clock uuid id updates w = (Ok (Some u), w') /\
    tasks w' = map (fun r => if task_id_is id r then write_row u r else r) (tasks w) /\
    sync_queue w' =
      sync_queue w ++
      [SyncQueueItem.mk (uuid (uuids w)) (Task.id u) Operation.update updates
         (clock (S (dates w))) 0 None].
Proof.
  intros Hf Hd u. subst u.
  unfold updateTask, update_task_row, addToSyncQueue, insert_sync_queue, uuidv4,
    new_Date, modify, ret. unfold bind at 1. rewrite getTask_run, Hf, Hd.
  unfold bind. cbn [record_stmt set_tasks set_sync_queue tasks sync_queue trace dates
                      uuids requests].
  eexists. split; [reflexivity|]. cbn [tasks sync_queue]. split; reflexivity.
Qed.

(** X10. [updateTask] on a stored record that is not soft-deleted returns
    the record with the given fields replaced, always [pending] and stamped
    with the current date, whatever the updates say of these two.  It writes
    the title, description, completion flag, soft-delete flag, date and
    state to every row of that id and nothing else: id, creation date,
    server id and last sync date of the row stay, also when the updates and
    the returned task carry others.  The other rows are not touched, and one
    [update] entry carrying the updates, with retry count 0, is appended to
    the queue. *)
Theorem updateTask_of_stored_record
  (clock : nat -> Date) (uuid : nat -> string)
  (id : string) (updates : PartialTask.t) (row : Task.t) (w : World) :
  find (task_id_is id) (tasks w) = Some row ->
  Task.is_deleted row = false ->
  let r := updateTask clock uuid id updates w in
  exists u e,
    result_of r = Ok (Some u) /\
    Task.sync_status u = SyncStatus.pending /\
    Task.updated_at u = clock (dates w) /\
    Task.title u = from_option (PartialTask.title updates) (Task.title row) /\
    Task.description u =
      from_option (PartialTask.description updates) (Task.description row) /\
    Task.completed u = from_option (PartialTask.completed updates) (Task.completed row) /\
    Task.is_deleted u = from_option (PartialTask.is_deleted updates) false /\
    Task.id u = from_option (PartialTask.id updates) id /\
    (forall n row0, nth_error (tasks w) n = Some row0 -> Task.id row0 = id ->
       nth_error (tasks (world_of r)) n =
       Some (Task.mk id (Task.title u) (Task.description u) (Task.completed u)
               (Task.created_at row0) (clock (dates w)) (Task.is_deleted u)
               SyncStatus.pending (Task.server_id row0) (Task.last_synced_at row0))) /\
    (forall n row0, nth_error (tasks w) n = Some row0 -> Task.id row0 <> id ->
       nth_error (tasks (world_of r)) n = Some row0) /\
    sync_queue (world_of r) = sync_queue w ++ [e] /\
    SyncQueueItem.task_id e = Task.id u /\
    SyncQueueItem.operation e = Operation.update /\
    SyncQueueItem.data e = updates /\
    SyncQueueItem.retry_count e = 0.
Proof.
  intros Hf Hd r. subst r.
  destruct (updateTask_active_run clock uuid id updates row w Hf Hd) as (w' & E & Ht & Hq).
  cbn zeta in E. rewrite E. unfold result_of, world_of. cbn [fst snd].
  pose proof (find_task_id _ _ _ Hf) as Hid.
  eexists _, _. split; [reflexivity|].
  split; [reflexivity|]. split; [reflexivity|]. split; [reflexivity|].
  split; [reflexivity|]. split; [reflexivity|].
  split; [cbn; now rewrite Hd|].
  split; [cbn; now rewrite Hid|].
  split; [|split].
  - intros n row0 Hn Hid0. rewrite Ht, nth_error_map, Hn. cbn [option_map].
    unfold task_id_is. rewrite (proj2 (String.eqb_eq _ _) Hid0).
    unfold write_row. now rewrite Hid0.
  - intros n row0 Hn Hid0. rewrite Ht, nth_error_map, Hn. cbn [option_map].
    unfold task_id_is. now rewrite (proj2 (String.eqb_neq _ _) Hid0).
  - split; [exact Hq|]. repeat split.
Qed.

Lemma updateTask_of_stored_record_witness :
  exists u,
    result_of (updateTask sample_clock sample_uuid "t1"
                 (PartialTask.mk None (Some "tea"%string) None None None (Some 5) None
                    (Some SyncStatus.synced) None None)
                 conflict_world) = Ok (Some u) /\
    Task.sync_status u = SyncStatus.pending /\
    Task.updated_at u = 1000.
Proof.
  destruct (updateTask_of_stored_record sample_clock sample_uuid "t1"
              (PartialTask.mk None (Some "tea"%string) None None None (Some 5) None
                 (Some SyncStatus.synced) None None)
              local_row conflict_world eq_refl eq_refl)
    as (u & e & H1 & H2 & H3 & _).
  exists u. split; [exact H1|]. split; [exact H2 | exact H3].
Defined.

Lemma getTask_missing (id : string) (w : World) :
  (forall row, find (task_id_is id) (tasks w) = Some row -> Task.is_deleted row = true) ->
  getTask id w = (Ok None, record_stmt (SelectTask id) w).
Proof.
  intros H. rewrite getTask_run.
  destruct (find (task_id_is id) (tasks w)) as [row|]; [|reflexivity].
  now rewrite (H row eq_refl).
Qed.

(** X11. For an id that no stored record has, or whose record is
    soft-deleted, [getTask] returns null, [updateTask] returns null and
    [deleteTask] returns false; none of them writes a row, queues an entry
    or reads the clock. *)
Theorem missing_record_is_refused
  (clock : nat -> Date) (uuid : nat -> string)
  (id : string) (updates : PartialTask.t) (w : World) :
  (forall row, find (task_id_is id) (tasks w) = Some row -> Task.is_deleted row = true) ->
  let unchanged (w' : World) :=
    tasks w' = tasks w /\ sync_queue w' = sync_queue w /\
    dates w' = dates w /\ uuids w' = uuids w in
  result_of (getTask id w) = Ok None /\
  unchanged (world_of (getTask id w)) /\
  result_of (updateTask clock uuid id updates w) = Ok None /\
  unchanged (world_of (updateTask clock uuid id updates w)) /\
  result_of (deleteTask clock uuid id w) = Ok false /\
  unchanged (world_of (deleteTask clock uuid id w)).
Proof.
  intros H unchanged. subst unchanged. cbn beta.
  unfold updateTask, deleteTask, bind. rewrite (getTask_missing id w H).
  unfold result_of, world_of. cbn. repeat split.
Qed.

Lemma missing_record_is_refused_witness :
  result_of (updateTask sample_clock sample_uuid "t9"
               (PartialTask.mk None (Some "tea"%string) None None None None None None
                  None None) conflict_world) = Ok None /\
  result_of (deleteTask sample_clock sample_uuid "t9" conflict_world) = Ok false.
Proof.
  destruct (missing_record_is_refused sample_clock sample_uuid "t9"
              (PartialTask.mk None (Some "tea"%string) None None None None None None
                 None None) conflict_world) as (_ & _ & H3 & _ & H5 & _).
  - intros row Hrow. discriminate.
  - split; [exact H3 | exact H5].
Defined.

Lemma deleteTask_active_run (clock : nat -> Date) (uuid : nat -> string)
  (id : string) (row : Task.t) (w : World) :
  find (task_id_is id) (tasks w) = Some row ->
  Task.is_deleted row = false ->
  exists w',
    deleteTask clock uuid id w = (Ok true, w') /\
    tasks w' =
      map (fun r => if task_id_is id r then soft_delete_row (clock (dates w)) r else r)
        (tasks w) /\
    sync_queue w' =
      sync_queue w ++
      [SyncQueueItem.mk (uuid (uuids w)) id Operation.delete
         (PartialTask.mk (Some id) None None None None None None None None None)
         (clock (S (dates w))) 0 None].
Proof.
  intros Hf Hd.
  unfold deleteTask, soft_delete_task, addToSyncQueue, insert_sync_queue, uuidv4,
    new_Date, modify, ret. unfold bind at 1. rewrite getTask_run, Hf, Hd.
  unfold bind. cbn [record_stmt set_tasks set_sync_queue tasks sync_queue trace dates
                      uuids requests].
  eexists. split; [reflexivity|]. cbn [tasks sync_queue]. split; reflexivity.
Qed.

(** X12. [deleteTask] on a stored record that is not soft-deleted returns
    true and deletes softly: every row of that id stays in the table with
    the soft-delete flag set, the state [pending] and the current date, its
    other fields kept, and one [delete] entry carrying only the id is
    queued.  From then on [getTask] returns null for the id, [getAllTasks]
    lists no task of that id, [getTasksNeedingSync] still lists the deleted
    record, and a second [deleteTask] returns false. *)
Theorem deleteTask_is_soft
  (clock : nat -> Date) (uuid : nat -> string) (id : string) (row : Task.t) (w : World) :
  find (task_id_is id) (tasks w) = Some row ->
  Task.is_deleted row = false ->
  let r := deleteTask clock uuid id w in
  let w' := world_of r in
  result_of r = Ok true /\
  List.length (tasks w') = List.length (tasks w) /\
  (forall n row0, nth_error (tasks w) n = Some row0 -> Task.id row0 = id ->
     nth_error (tasks w') n =
     Some (Task.mk id (Task.title row0) (Task.description row0) (Task.completed row0)
             (Task.created_at row0) (clock (dates w)) true SyncStatus.pending
             (Task.server_id row0) (Task.last_synced_at row0))) /\
  (forall n row0, nth_error (tasks w) n = Some row0 -> Task.id row0 <> id ->
     nth_error (tasks w') n = Some row0) /\
  (exists e, sync_queue w' = sync_queue w ++ [e] /\
     SyncQueueItem.task_id e = id /\
     SyncQueueItem.operation e = Operation.delete /\
     SyncQueueItem.data e =
       PartialTask.mk (Some id) None None None None None None None None None /\
     SyncQueueItem.retry_count e = 0) /\
  result_of (getTask id w') = Ok None /\
  (forall l, result_of (getAllTasks w') = Ok l ->
     forall t, In t l -> Task.id t <> id) /\
  (exists l t, result_of (getTasksNeedingSync w') = Ok l /\ In t l /\
     Task.id t = id /\ Task.is_deleted t = true) /\
  result_of (deleteTask clock uuid id w') = Ok false.
Proof.
  intros Hf Hd r w'. subst w' r.
  destruct (deleteTask_active_run clock uuid id row w Hf Hd) as (w' & E & Ht & Hq).
  rewrite E. unfold result_of, world_of. cbn [fst snd].
  pose proof (find_task_id _ _ _ Hf) as Hid.
  assert (Hfind : find (task_id_is id) (tasks w') =
                  Some (soft_delete_row (clock (dates w)) row)).
  { rewrite Ht, find_map_task.
    - rewrite Hf. cbn [option_map]. unfold task_id_is.
      now rewrite (proj2 (String.eqb_eq _ _) Hid).
    - intros x. now destruct (task_id_is id x). }
  assert (Hgone : forall row0, find (task_id_is id) (tasks w') = Some row0 ->
                               Task.is_deleted row0 = true).
  { intros row0 H0. rewrite Hfind in H0. now inversion H0. }
  split; [reflexivity|]. split; [rewrite Ht; apply length_map|].
  split; [|split; [|split; [|split; [|split; [|split]]]]].
  - intros n row0 Hn Hid0. rewrite Ht, nth_error_map, Hn. cbn [option_map].
    unfold task_id_is. rewrite (proj2 (String.eqb_eq _ _) Hid0).
    unfold soft_delete_row. now rewrite Hid0.
  - intros n row0 Hn Hid0. rewrite Ht, nth_error_map, Hn. cbn [option_map].
    unfold task_id_is. now rewrite (proj2 (String.eqb_neq _ _) Hid0).
  - eexists. split; [exact Hq|]. repeat split.
  - now rewrite (getTask_missing id w' Hgone).
  - intros l Hl t Hin. cbn in Hl. inversion Hl; subst l. clear Hl.
    apply in_map_iff in Hin. destruct Hin as (x & Hx & Hin). subst t.
    apply filter_In in Hin. destruct Hin as [Hin Hact].
    rewrite Ht in Hin. apply in_map_iff in Hin. destruct Hin as (y & Hy & _).
    cbn. intros Heq. unfold task_id_is in Hy.
    destruct (String.eqb_spec (Task.id y) id) as [E1|E1].
    + subst x. cbn in Hact. discriminate.
    + subst y. contradiction.
  - eexists _, (mapRowToTask (soft_delete_row (clock (dates w)) row)).
    split; [reflexivity|]. split; [|split; [exact Hid | reflexivity]].
    apply in_map. apply filter_In. split; [|reflexivity].
    apply find_some in Hfind. tauto.
  - unfold deleteTask, bind. now rewrite (getTask_missing id w' Hgone).
Qed.

Lemma deleteTask_is_soft_witness :
  result_of (deleteTask sample_clock sample_uuid "t1" conflict_world) = Ok true /\
  result_of (getTask "t1"
               (world_of (deleteTask sample_clock sample_uuid "t1" conflict_world))) =
    Ok None.
Proof.
  destruct (deleteTask_is_soft sample_clock sample_uuid "t1" local_row conflict_world
              eq_refl eq_refl) as (H1 & _ & _ & _ & _ & H6 & _).
  split; [exact H1 | exact H6].
Defined.

Lemma find_task_unique (l : list Task.t) (x : Task.t) :
  NoDup (map Task.id l) -> In x l -> find (task_id_is (Task.id x)) l = Some x.
Proof.
  induction l as [|y l IH]; intros Hnd Hin; [destruct Hin|].
  cbn in Hnd. inversion Hnd as [|? ? Hni Hnd']; subst. cbn.
  unfold task_id_is at 1.
  destruct (String.eqb_spec (Task.id y) (Task.id x)) as [E|E].
  - destruct Hin as [->|Hin]; [reflexivity|].
    exfalso. apply Hni. rewrite E. now apply in_map.
  - destruct Hin as [->|Hin]; [contradiction | now apply IH].
Qed.

(** X13. When the ids of the stored records are distinct, listing and lookup
    agree: a task is in the answer of [getAllTasks] exactly when [getTask]
    on its id returns it.  Without that condition every task that [getTask]
    returns is still listed. *)
Theorem getAllTasks_agrees_with_getTask (w : World) (t : Task.t) :
  exists l,
    result_of (getAllTasks w) = Ok l /\
    (result_of (getTask (Task.id t) w) = Ok (Some t) -> In t l) /\
    (NoDup (map Task.id (tasks w)) ->
     (In t l <-> result_of (getTask (Task.id t) w) = Ok (Some t))).
Proof.
  eexists. split; [reflexivity|].
  assert (Hback : result_of (getTask (Task.id t) w) = Ok (Some t) ->
                  In t (map mapRowToTask
                          (filter (fun r => negb (Task.is_deleted r)) (tasks w)))).
  { rewrite getTask_run. unfold result_of. cbn [fst].
    destruct (find _ _) as [r|] eqn:Hf; [|discriminate].
    destruct (Task.is_deleted r) eqn:Hd; [discriminate|].
    intros H. inversion H as [H1]. rewrite H1. rewrite <- H1.
    apply in_map, filter_In. apply find_some in Hf. split; [tauto|].
    now rewrite Hd. }
  split; [exact Hback|].
  intros Hnd. split; [|exact Hback].
  intros Hin. apply in_map_iff in Hin. destruct Hin as (x & Hx & Hin).
  apply filter_In in Hin. destruct Hin as [Hin Hact]. subst t.
  rewrite getTask_run. cbn [mapRowToTask Task.id].
  rewrite (find_task_unique _ _ Hnd Hin).
  destruct (Task.is_deleted x); [discriminate | reflexivity].
Qed.

Lemma needs_sync_settled (sid : option string) (now : Date) (r : Task.t) :
  needs_sync (settle_row SyncStatus.synced sid now r) = false.
Proof. reflexivity. Qed.

(** X14. [getTasksNeedingSync] follows the state of the records: right
    after a record was settled as synced no task of its id is listed, and
    the tasks of the other records are listed exactly as before; the task
    that [createTask] returns is listed right after the call. *)
Theorem getTasksNeedingSync_follows_the_state
  (clock : nat -> Date) (uuid : nat -> string) (taskId : string)
  (serverData : option PartialTask.t) (taskData : PartialTask.t) (w : World) :
  let settled := world_of (updateSyncStatus clock taskId SyncStatus.synced serverData w) in
  let created := createTask clock uuid taskData w in
  exists before after fresh,
    result_of (getTasksNeedingSync w) = Ok before /\
    result_of (getTasksNeedingSync settled) = Ok after /\
    result_of (getTasksNeedingSync (world_of created)) = Ok fresh /\
    (forall t, In t after -> Task.id t <> taskId) /\
    (forall t, Task.id t <> taskId -> (In t after <-> In t before)) /\
    (forall t, result_of created = Ok t -> In t fresh).
Proof.
  intros settled created. subst settled created.
  rewrite updateSyncStatus_synced_run. unfold world_of. cbn [snd].
  eexists _, _, _. split; [reflexivity|]. split; [reflexivity|].
  split; [reflexivity|]. cbn [tasks].
  assert (Hafter : forall t,
            In t (map mapRowToTask
                    (filter needs_sync
                       (settled_tasks taskId (provided_server_id serverData)
                          (clock (dates w)) (tasks w)))) <->
            exists x, In x (tasks w) /\ Task.id x <> taskId /\ needs_sync x = true /\
                      mapRowToTask x = t).
  { intros t. rewrite in_map_iff. split.
    - intros (y & Hy & Hin). apply filter_In in Hin. destruct Hin as [Hin Hn].
      unfold settled_tasks in Hin. apply in_map_iff in Hin.
      destruct Hin as (x & Hx & Hxin). unfold task_id_is in Hx.
      destruct (String.eqb_spec (Task.id x) taskId) as [E|E].
      + subst y. rewrite needs_sync_settled in Hn. discriminate.
      + subst y. now exists x.
    - intros (x & Hin & Hid & Hn & Hx). exists x. split; [exact Hx|].
      apply filter_In. split; [|exact Hn].
      unfold settled_tasks. apply in_map_iff. exists x. split; [|exact Hin].
      unfold task_id_is. now rewrite (proj2 (String.eqb_neq _ _) Hid). }
  split; [|split].
  - intros t Hin. apply Hafter in Hin. destruct Hin as (x & _ & Hid & _ & <-). exact Hid.
  - intros t Hid. rewrite Hafter, in_map_iff. split.
    + intros (x & Hin & _ & Hn & Hx). exists x. split; [exact Hx|].
      apply filter_In. now split.
    + intros (x & Hx & Hin). apply filter_In in Hin. destruct Hin as [Hin Hn].
      exists x. repeat split; try assumption. now subst t.
  - intros t Ht. cbn in Ht. inversion Ht; subst t. clear Ht.
    cbn. apply in_map_iff. eexists. split; [|apply filter_In; split;
      [apply in_or_app; right; left; reflexivity | reflexivity]].
    reflexivity.
Qed.

(** ** Running a sequence step by step *)

Lemma bind_run {A B : Type} (m : M A) (k : A -> M B) (w w' : World) (a : A) :
  m w = (Ok a, w') -> bind m k w = k a w'.
Proof. intros E. unfold bind. now rewrite E. Qed.

Lemma try_catch_run {A : Type} (m : M A) (handler : JsError.t -> M A)
  (w w' : World) (a : A) :
  m w = (Ok a, w') -> try_catch m handler w = (Ok a, w').
Proof. intros E. unfold try_catch. now rewrite E. Qed.

Lemma new_Date_run (clock : nat -> Date) (w : World) :
  new_Date clock w = (Ok (clock (dates w)), after_date w).
Proof. reflexivity. Qed.

Lemma uuidv4_run (uuid : nat -> string) (w : World) :
  uuidv4 uuid w =
  (Ok (uuid (uuids w)),
   mkWorld (tasks w) (sync_queue w) (trace w) (dates w) (S (uuids w)) (requests w)).
Proof. reflexivity. Qed.

Lemma addToSyncQueue_run (clock : nat -> Date) (uuid : nat -> string)
  (taskId : string) (operation : Operation.t) (data : PartialTask.t) (w : World) :
  addToSyncQueue clock uuid taskId operation data w =
  (Ok tt,
   mkWorld (tasks w)
     (sync_queue w ++
        [SyncQueueItem.mk (uuid (uuids w)) taskId operation data (clock (dates w)) 0 None])
     (trace w ++ [InsertSyncQueue (uuid (uuids w)) taskId])
     (S (dates w)) (S (uuids w)) (requests w)).
Proof. reflexivity. Qed.

Lemma createTask_run (clock : nat -> Date) (uuid : nat -> string)
  (taskData : PartialTask.t) (w : World) :
  let t := Task.mk (uuid (uuids w))
             (or_default (PartialTask.title taskData) "Untitled Task")
             (or_default (PartialTask.description taskData) EmptyString)
             false (clock (dates w)) (clock (dates w)) false SyncStatus.pending
             None None in
  createTask clock uuid taskData w =
  (Ok t,
   mkWorld (tasks w ++ [t])
     (sync_queue w ++
        [SyncQueueItem.mk (uuid (S (uuids w))) (uuid (uuids w)) Operation.create
           (PartialTask.of_Task t) (clock (S (dates w))) 0 None])
     (trace w ++ [InsertSyncQueue (uuid (S (uuids w))) (uuid (uuids w))])
     (S (S (dates w))) (S (S (uuids w))) (requests w)).
Proof. reflexivity. Qed.

(** ** The task router *)

Lemma or_default_self (s : string) : or_default (Some s) EmptyString = s.
Proof.
  unfold or_default, truthy. destruct (String.eqb_spec s EmptyString) as [E|E].
  - now subst s.
  - reflexivity.
Qed.

Lemma or_default_truthy (s : option string) (x d : string) :
  truthy s = Some x -> or_default (Some x) d = x.
Proof.
  intros H. apply truthy_Some in H. destruct H as [_ Hx].
  unfold or_default, truthy. now rewrite (proj2 (String.eqb_neq _ _) Hx).
Qed.

Lemma find_task_app_other (i : string) (l : list Task.t) (t : Task.t) :
  (forall row, In row l -> Task.id row <> i) -> Task.id t <> i ->
  find (task_id_is i) (l ++ [t]) = None.
Proof.
  intros Hl Ht. induction l as [|x l IH]; cbn.
  - unfold task_id_is. now rewrite (proj2 (String.eqb_neq _ _) Ht).
  - unfold task_id_is at 1.
    rewrite (proj2 (String.eqb_neq _ _) (Hl x (or_introl eq_refl))).
    apply IH. intros row Hrow. apply Hl. now right.
Qed.

(** X15. [POST /] without a title, or with an empty one, answers 400 and
    changes nothing.  With a title it answers 201 with a task under one
    uuid, while the record it stores, through [createTask], gets the next
    uuid and is never completed, whatever the body says; it queues two
    [create] entries, one for the stored record and one for the id it
    answered.  When the two uuids differ and no record has the answered id,
    [getTask] on the answered id returns null. *)
Theorem post_task_answers_an_id_it_does_not_store
  (clock : nat -> Date) (uuid : nat -> string) (body : TaskBody.t) (w : World) :
  let r := post_task clock uuid body w in
  (truthy (TaskBody.title body) = None ->
   r = (Ok (Response.mk 400 (Response.error_body "Title is required" None)), w)) /\
  (forall title, truthy (TaskBody.title body) = Some title ->
   exists answered stored e1 e2,
     result_of r = Ok (Response.mk 201 (Response.task answered)) /\
     Task.id answered = uuid (uuids w) /\
     Task.title answered = title /\
     Task.completed answered = from_option (TaskBody.completed body) false /\
     tasks (world_of r) = tasks w ++ [stored] /\
     Task.id stored = uuid (S (uuids w)) /\
     Task.title stored = title /\
     Task.description stored = Task.description answered /\
     Task.completed stored = false /\
     Task.sync_status stored = SyncStatus.pending /\
     sync_queue (world_of r) = sync_queue w ++ [e1; e2] /\
     SyncQueueItem.task_id e1 = Task.id stored /\
     SyncQueueItem.task_id e2 = Task.id answered /\
     SyncQueueItem.operation e1 = Operation.create /\
     SyncQueueItem.operation e2 = Operation.create /\
     (uuid (S (uuids w)) <> uuid (uuids w) ->
      (forall row, In row (tasks w) -> Task.id row <> uuid (uuids w)) ->
      result_of (getTask (Task.id answered) (world_of r)) = Ok None)).
Proof.
  intros r. subst r. split.
  - intros H. unfold post_task, try_catch. now rewrite H.
  - intros title H.
    assert (Hrun : exists w',
              post_task clock uuid body w =
                (Ok (Response.mk 201
                       (Response.task
                          (Task.mk (uuid (uuids w)) title
                             (from_option (TaskBody.description body) EmptyString)
                             (from_option (TaskBody.completed body) false)
                             (clock (dates w)) (clock (dates w)) false
                             SyncStatus.pending None None))), w') /\
              tasks w' =
                tasks w ++
                [Task.mk (uuid (S (uuids w))) title
                   (from_option (TaskBody.description body) EmptyString) false
                   (clock (S (dates w))) (clock (S (dates w))) false
                   SyncStatus.pending None None] /\
              exists e1 e2,
                sync_queue w' = sync_queue w ++ [e1; e2] /\
                SyncQueueItem.task_id e1 = uuid (S (uuids w)) /\
                SyncQueueItem.task_id e2 = uuid (uuids w) /\
                SyncQueueItem.operation e1 = Operation.create /\
                SyncQueueItem.operation e2 = Operation.create).
    { unfold post_task. rewrite H. eexists. split.
      - apply try_catch_run.
        rewrite (bind_run _ _ _ _ _ (new_Date_run clock w)). cbv beta.
        rewrite (bind_run _ _ _ _ _ (uuidv4_run uuid _)). cbv beta zeta.
        rewrite (bind_run _ _ _ _ _ (createTask_run clock uuid _ _)). cbv beta.
        rewrite (bind_run _ _ _ _ _ (addToSyncQueue_run clock uuid _ _ _ _)).
        reflexivity.
      - cbn [tasks sync_queue dates uuids after_date PartialTask.of_Task
               PartialTask.title PartialTask.description Task.id Task.title
               Task.description].
        rewrite (or_default_truthy _ _ _ H), or_default_self.
        split; [reflexivity|].
        eexists _, _. rewrite <- app_assoc. cbn [app].
        split; [reflexivity|]. repeat split. }
    destruct Hrun as (w' & E & Ht & e1 & e2 & Hq & H1 & H2 & H3 & H4).
    rewrite E. unfold result_of, world_of. cbn [fst snd].
    eexists _, _, e1, e2. split; [reflexivity|].
    split; [reflexivity|]. split; [reflexivity|]. split; [reflexivity|].
    split; [exact Ht|]. split; [reflexivity|]. split; [reflexivity|].
    split; [reflexivity|]. split; [reflexivity|]. split; [reflexivity|].
    split; [exact Hq|].
    split; [exact H1|]. split; [exact H2|]. split; [exact H3|]. split; [exact H4|].
    intros Hne Hfresh. rewrite getTask_run. cbn [fst Task.id]. rewrite Ht.
    rewrite find_task_app_other; [reflexivity | exact Hfresh | exact Hne].
Qed.

Lemma post_task_answers_an_id_it_does_not_store_witness :
  exists answered stored,
    result_of (post_task sample_clock
                 (fun n => match n with O => "a1" | _ => "b2" end)%string
                 (TaskBody.mk (Some "tea"%string) None (Some true)) two_entries) =
      Ok (Response.mk 201 (Response.task answered)) /\
    Task.id answered = "a1"%string /\ Task.completed answered = true /\
    tasks (world_of (post_task sample_clock
                       (fun n => match n with O => "a1" | _ => "b2" end)%string
                       (TaskBody.mk (Some "tea"%string) None (Some true)) two_entries)) =
      [stored] /\
    Task.id stored = "b2"%string /\ Task.completed stored = false.
Proof.
  destruct (proj2 (post_task_answers_an_id_it_does_not_store sample_clock
                     (fun n => match n with O => "a1" | _ => "b2" end)%string
                     (TaskBody.mk (Some "tea"%string) None (Some true)) two_entries)
              "tea"%string eq_refl)
    as (answered & stored & e1 & e2 & H1 & H2 & _ & H4 & H5 & H6 & _ & _ & H9 & _).
  exists answered, stored. repeat split; assumption.
Defined.

Lemma find_task_written (id : string) (u row : Task.t) (l : list Task.t) :
  find (task_id_is id) l = Some row ->
  find (task_id_is id) (map (fun r => if task_id_is id r then write_row u r else r) l) =
  Some (write_row u row).
Proof.
  intros Hf. rewrite find_map_task.
  - rewrite Hf. cbn [option_map].
    apply find_some in Hf. destruct Hf as [_ Hid]. now rewrite Hid.
  - intros x. now destruct (task_id_is id x).
Qed.

(** X16. [PUT /:id] answers 404 for an id that is missing or soft-deleted
    and then writes nothing.  For a stored record it answers the updated
    task, in which a field absent from the body keeps its stored value and a
    field present replaces it, an empty title included; it writes these
    fields to the record and appends two [update] entries for the record,
    with the same payload, to the queue: one from [updateTask] and one of
    its own. *)
Theorem put_task_queues_the_update_twice
  (clock : nat -> Date) (uuid : nat -> string)
  (id : string) (body : TaskBody.t) (w : World) :
  let r := put_task clock uuid id body w in
  ((forall row, find (task_id_is id) (tasks w) = Some row -> Task.is_deleted row = true) ->
   result_of r = Ok (Response.mk 404 (Response.error_body "Task not found" None)) /\
   tasks (world_of r) = tasks w /\ sync_queue (world_of r) = sync_queue w) /\
  (forall row, find (task_id_is id) (tasks w) = Some row ->
   Task.is_deleted row = false ->
   exists u e1 e2,
     result_of r = Ok (Response.mk 200 (Response.task_or_null (Some u))) /\
     Task.id u = id /\
     Task.title u = from_option (TaskBody.title body) (Task.title row) /\
     Task.description u = from_option (TaskBody.description body) (Task.description row) /\
     Task.completed u = from_option (TaskBody.completed body) (Task.completed row) /\
     Task.sync_status u = SyncStatus.pending /\
     (forall n row0, nth_error (tasks w) n = Some row0 -> Task.id row0 = id ->
        exists row', nth_error (tasks (world_of r)) n = Some row' /\
          Task.title row' = Task.title u /\
          Task.description row' = Task.description u /\
          Task.completed row' = Task.completed u /\
          Task.sync_status row' = SyncStatus.pending /\
          Task.is_deleted row' = false) /\
     sync_queue (world_of r) = sync_queue w ++ [e1; e2] /\
     SyncQueueItem.task_id e1 = id /\ SyncQueueItem.task_id e2 = id /\
     SyncQueueItem.operation e1 = Operation.update /\
     SyncQueueItem.operation e2 = Operation.update /\
     SyncQueueItem.data e1 = SyncQueueItem.data e2).
Proof.
  intros r. subst r. split.
  - intros H. unfold put_task.
    rewrite (try_catch_run _ _ w (record_stmt (SelectTask id) w)
               (Response.mk 404 (Response.error_body "Task not found" None))).
    + unfold result_of, world_of. cbn. repeat split.
    + rewrite (bind_run _ _ _ _ _ (getTask_missing id w H)). reflexivity.
  - intros row Hf Hd. pose proof (find_task_id _ _ _ Hf) as Hid.
    destruct (updateTask_active_run clock uuid id
                (put_updates body (mapRowToTask row)
                   (clock (dates (record_stmt (SelectTask id) w))))
                row (after_date (record_stmt (SelectTask id) w)) Hf Hd)
      as (w1 & E & Ht & Hq).
    cbn zeta in E.
    assert (Hrun : exists w',
              put_task clock uuid id body w =
                (Ok (Response.mk 200
                       (Response.task_or_null
                          (Some (merge_updates (mapRowToTask row)
                                   (put_updates body (mapRowToTask row) (clock (dates w)))
                                   (clock (S (dates w))))))), w') /\
              tasks w' = tasks w1 /\
              sync_queue w' =
                sync_queue w1 ++
                [SyncQueueItem.mk (uuid (uuids w1)) id Operation.update
                   (put_updates body (mapRowToTask row) (clock (dates w)))
                   (clock (dates w1)) 0 None]).
    { unfold put_task. eexists. split.
      - apply try_catch_run.
        rewrite (bind_run _ _ _ _ _ (getTask_run id w)). rewrite Hf, Hd.
        cbv beta iota.
        rewrite (bind_run _ _ _ _ _ (new_Date_run clock _)). cbv beta zeta.
        rewrite (bind_run _ _ _ _ _ E).
        rewrite (bind_run _ _ _ _ _ (addToSyncQueue_run clock uuid _ _ _ _)).
        reflexivity.
      - cbn [tasks sync_queue]. split; reflexivity. }
    destruct Hrun as (w' & E' & Ht' & Hq').
    rewrite E'. unfold result_of, world_of. cbn [fst snd].
    cbn [tasks sync_queue dates uuids after_date record_stmt] in Ht, Hq.
    eexists _, _, _. split; [reflexivity|].
    split; [exact Hid|].
    split; [reflexivity|]. split; [reflexivity|]. split; [reflexivity|].
    split; [reflexivity|].
    split.
    { intros n row0 Hn Hid0. rewrite Ht', Ht, nth_error_map, Hn. cbn [option_map].
      unfold task_id_is. rewrite (proj2 (String.eqb_eq _ _) Hid0).
      eexists. split; [reflexivity|]. cbn. rewrite Hd. repeat split. }
    split; [rewrite Hq', Hq, <- app_assoc; reflexivity|].
    split; [exact Hid|]. repeat split.
Qed.

Lemma put_task_queues_the_update_twice_witness :
  exists u e1 e2,
    result_of (put_task sample_clock sample_uuid "t1"
                 (TaskBody.mk None None (Some true)) conflict_world) =
      Ok (Response.mk 200 (Response.task_or_null (Some u))) /\
    Task.title u = "milk"%string /\ Task.completed u = true /\
    sync_queue (world_of (put_task sample_clock sample_uuid "t1"
                            (TaskBody.mk None None (Some true)) conflict_world)) =
      [fresh_entry; other_entry; e1; e2].
Proof.
  destruct (proj2 (put_task_queues_the_update_twice sample_clock sample_uuid "t1"
                     (TaskBody.mk None None (Some true)) conflict_world)
              local_row eq_refl eq_refl)
    as (u & e1 & e2 & H1 & _ & H3 & _ & H5 & _ & _ & H8 & _).
  exists u, e1, e2. repeat split; assumption.
Defined.

(** X17. [DELETE /:id] answers 404 for an id that is missing or
    soft-deleted and then writes nothing.  For a stored record it answers
    success, sets the soft-delete flag on the record through [updateTask],
    and appends two entries for the record with the same payload: an
    [update] entry and a [delete] entry.  Afterwards [GET /:id] and a second
    [DELETE /:id] answer 404. *)
Theorem delete_task_route_is_soft
  (clock : nat -> Date) (uuid : nat -> string) (id : string) (w : World) :
  let r := delete_task clock uuid id w in
  let not_found := Response.mk 404 (Response.error_body "Task not found" None) in
  ((forall row, find (task_id_is id) (tasks w) = Some row -> Task.is_deleted row = true) ->
   result_of r = Ok not_found /\
   tasks (world_of r) = tasks w /\ sync_queue (world_of r) = sync_queue w) /\
  (forall row, find (task_id_is id) (tasks w) = Some row ->
   Task.is_deleted row = false ->
   result_of r = Ok (Response.mk 200 Response.success_true) /\
   List.length (tasks (world_of r)) = List.length (tasks w) /\
   (forall n row0, nth_error (tasks w) n = Some row0 -> Task.id row0 = id ->
      exists row', nth_error (tasks (world_of r)) n = Some row' /\
        Task.is_deleted row' = true /\
        Task.sync_status row' = SyncStatus.pending /\
        Task.title row' = Task.title row) /\
   (exists e1 e2,
      sync_queue (world_of r) = sync_queue w ++ [e1; e2] /\
      SyncQueueItem.task_id e1 = id /\ SyncQueueItem.task_id e2 = id /\
      SyncQueueItem.operation e1 = Operation.update /\
      SyncQueueItem.operation e2 = Operation.delete /\
      SyncQueueItem.data e1 = SyncQueueItem.data e2) /\
   result_of (get_task id (world_of r)) = Ok not_found /\
   result_of (delete_task clock uuid id (world_of r)) = Ok not_found).
Proof.
  intros r not_found. subst r not_found.
  assert (Hmiss : forall w0,
            (forall row, find (task_id_is id) (tasks w0) = Some row ->
                         Task.is_deleted row = true) ->
            delete_task clock uuid id w0 =
              (Ok (Response.mk 404 (Response.error_body "Task not found" None)),
               record_stmt (SelectTask id) w0)).
  { intros w0 H. unfold delete_task. apply try_catch_run.
    rewrite (bind_run _ _ _ _ _ (getTask_missing id w0 H)). reflexivity. }
  split.
  - intros H. rewrite (Hmiss w H). unfold result_of, world_of. cbn. repeat split.
  - intros row Hf Hd. pose proof (find_task_id _ _ _ Hf) as Hid.
    destruct (updateTask_active_run clock uuid id
                (delete_updates (clock (dates (record_stmt (SelectTask id) w))))
                row (after_date (record_stmt (SelectTask id) w)) Hf Hd)
      as (w1 & E & Ht & Hq).
    cbn zeta in E.
    assert (Hrun : exists w',
              delete_task clock uuid id w =
                (Ok (Response.mk 200 Response.success_true), w') /\
              tasks w' = tasks w1 /\
              sync_queue w' =
                sync_queue w1 ++
                [SyncQueueItem.mk (uuid (uuids w1)) id Operation.delete
                   (delete_updates (clock (dates w))) (clock (dates w1)) 0 None]).
    { unfold delete_task. eexists. split.
      - apply try_catch_run.
        rewrite (bind_run _ _ _ _ _ (getTask_run id w)). rewrite Hf, Hd.
        cbv beta iota.
        rewrite (bind_run _ _ _ _ _ (new_Date_run clock _)). cbv beta zeta.
        rewrite (bind_run _ _ _ _ _ E).
        rewrite (bind_run _ _ _ _ _ (addToSyncQueue_run clock uuid _ _ _ _)).
        reflexivity.
      - cbn [tasks sync_queue]. split; reflexivity. }
    destruct Hrun as (w' & E' & Ht' & Hq').
    rewrite E'. unfold result_of, world_of. cbn [fst snd].
    cbn [tasks sync_queue dates uuids after_date record_stmt] in Ht, Hq.
    assert (Hgone : forall row0, find (task_id_is id) (tasks w') = Some row0 ->
                                 Task.is_deleted row0 = true).
    { intros row0 H0. rewrite Ht', Ht, (find_task_written id _ row _ Hf) in H0.
      injection H0 as <-. reflexivity. }
    split; [reflexivity|]. split; [rewrite Ht', Ht; apply length_map|].
    split; [|split; [|split]].
    + intros n row0 Hn Hid0. rewrite Ht', Ht, nth_error_map, Hn. cbn [option_map].
      unfold task_id_is. rewrite (proj2 (String.eqb_eq _ _) Hid0).
      eexists. split; [reflexivity|]. cbn. repeat split.
    + eexists _, _. split; [rewrite Hq', Hq, <- app_assoc; reflexivity|].
      split; [exact Hid|]. repeat split.
    + unfold get_task. rewrite (try_catch_run _ _ w' (record_stmt (SelectTask id) w')
                                  (Response.mk 404 (Response.error_body "Task not found" None))).
      * reflexivity.
      * rewrite (bind_run _ _ _ _ _ (getTask_missing id w' Hgone)). reflexivity.
    + now rewrite (Hmiss w' Hgone).
Qed.

Lemma delete_task_route_is_soft_witness :
  result_of (delete_task sample_clock sample_uuid "t1" conflict_world) =
    Ok (Response.mk 200 Response.success_true) /\
  result_of (get_task "t1"
               (world_of (delete_task sample_clock sample_uuid "t1" conflict_world))) =
    Ok (Response.mk 404 (Response.error_body "Task not found" None)).
Proof.
  destruct (proj2 (delete_task_route_is_soft sample_clock sample_uuid "t1" conflict_world)
              local_row eq_refl eq_refl) as (H1 & _ & _ & _ & H5 & _).
  split; [exact H1 | exact H5].
Defined.

(** ** The sync router *)

Lemma sync_never_throws
  (clock : nat -> Date) (uuid : nat -> string) (health : nat -> bool)
  (remote : nat -> BatchSyncRequest.t -> JsError.t + BatchSyncResponse.t)
  (batchSize : number) (fuel : nat) (w : World) :
  (exists res w', sync clock uuid health remote batchSize fuel w = (Ok res, w')) \/
  (exists w', sync clock uuid health remote batchSize fuel w = (Diverge, w')).
Proof.
  destruct (health (requests w)) eqn:Hh.
  - destruct (sync_queue w) as [|x q] eqn:Hq.
    + left. rewrite sync_empty_run by assumption. eexists _, _. reflexivity.
    + assert (Hne : sync_queue w <> []) by (rewrite Hq; discriminate).
      pose proof (sync_online_run clock uuid health remote batchSize fuel w Hh Hne) as Hrun.
      destruct (batch_loop batchSize fuel (snapshot w) (Num 0) []) as [batches|].
      * left. destruct Hrun as (acc & w' & _ & E). rewrite E. eexists _, _. reflexivity.
      * right. unfold result_of in Hrun.
        destruct (sync clock uuid health remote batchSize fuel w) as [res w'].
        cbn in Hrun. subst res. now exists w'.
  - left. rewrite sync_offline_run by assumption. eexists _, _. reflexivity.
Qed.

(** X18. [POST /sync] probes the server itself: when the probe fails it
    answers 503 without running a cycle or a statement.  When it succeeds
    the cycle runs, probing again, and the answer is 200 with the fields of
    the result of the cycle; the route never answers 500, and when the
    second probe fails it answers 200 with [success = false] and the single
    global error. *)
Theorem post_sync_route
  (clock : nat -> Date) (uuid : nat -> string) (health : nat -> bool)
  (remote : nat -> BatchSyncRequest.t -> JsError.t + BatchSyncResponse.t)
  (batchSize : number) (fuel : nat) (w : World) :
  let r := post_sync clock uuid health remote batchSize fuel w in
  let cycle := sync clock uuid health remote batchSize fuel (next_request w) in
  (health (requests w) = false ->
   r = (Ok (Response.mk 503
              (Response.error_body "Server not reachable. Try again later." None)),
        next_request w)) /\
  (health (requests w) = true ->
   (forall res, result_of cycle = Ok res ->
      r = (Ok (Response.mk 200 (Response.sync_result res)), world_of cycle)) /\
   (result_of cycle = Diverge -> result_of r = Diverge) /\
   (health (S (requests w)) = false ->
    result_of r =
      Ok (Response.mk 200
            (Response.sync_result
               (SyncResult.mk false 0 0
                  [SyncError.mk "global" "sync" "Server not reachable"
                     (clock (dates w))]))))) /\
  (forall response, result_of r = Ok response ->
     Response.status response = 200 \/ Response.status response = 503).
Proof.
  intros r cycle. subst r cycle.
  assert (Hon : health (requests w) = true ->
                post_sync clock uuid health remote batchSize fuel w =
                match sync clock uuid health remote batchSize fuel (next_request w) with
                | (Ok res, w') => (Ok (Response.mk 200 (Response.sync_result res)), w')
                | (Throw e, w') =>
                    (Ok (Response.mk 500
                           (Response.error_body "Sync failed" (Some (JsError.message e)))),
                     w')
                | (Diverge, w') => (Diverge, w')
                end).
  { intros Hh. unfold post_sync, try_catch, checkConnectivity, ret.
    unfold bind at 1. rewrite Hh. cbn [negb]. unfold bind.
    destruct (sync clock uuid health remote batchSize fuel (next_request w))
      as [[res|e|] w']; [destruct res|..]; reflexivity. }
  assert (Hoff : health (requests w) = false ->
                 post_sync clock uuid health remote batchSize fuel w =
                 (Ok (Response.mk 503
                        (Response.error_body "Server not reachable. Try again later."
                           None)), next_request w)).
  { intros Hh. unfold post_sync, try_catch, checkConnectivity, ret, bind.
    now rewrite Hh. }
  split; [exact Hoff|]. split.
  - intros Hh. rewrite (Hon Hh). split; [|split].
    + intros res Hres. unfold result_of, world_of in *.
      destruct (sync _ _ _ _ _ _ _) as [[res'|e|] w']; cbn in *; try discriminate.
      now inversion Hres.
    + intros Hd. unfold result_of in *.
      destruct (sync _ _ _ _ _ _ _) as [[res'|e|] w']; cbn in *; try discriminate.
      reflexivity.
    + intros H2. rewrite sync_offline_run by exact H2. reflexivity.
  - intros response Hresp. destruct (health (requests w)) eqn:Hh.
    + rewrite (Hon eq_refl) in Hresp.
      destruct (sync_never_throws clock uuid health remote batchSize fuel (next_request w))
        as [(res & w' & E)|(w' & E)]; rewrite E in Hresp; cbn in Hresp.
      * inversion Hresp. now left.
      * discriminate.
    + rewrite (Hoff eq_refl) in Hresp. inversion Hresp. now right.
Qed.

Lemma post_sync_route_witness :
  post_sync sample_clock sample_uuid offline failing_server (Num 10) 3 conflict_world =
  (Ok (Response.mk 503
         (Response.error_body "Server not reachable. Try again later." None)),
   next_request conflict_world).
Proof.
  apply (proj1 (post_sync_route sample_clock sample_uuid offline failing_server (Num 10) 3
                  conflict_world)).
  reflexivity.
Defined.

(** *** The order of the date columns *)

Example toISOString_epoch : toISOString 0 = "1970-01-01T00:00:00.000Z"%string.
Proof. reflexivity. Qed.

Example toISOString_leap_day :
  toISOString 1709251199999 = "2024-02-29T23:59:59.999Z"%string.
Proof. reflexivity. Qed.

Example toISOString_before_year_0 :
  toISOString (-62167219200001) = "-000001-12-31T23:59:59.999Z"%string.
Proof. reflexivity. Qed.

Example toISOString_year_10000 :
  toISOString 253402300800000 = "+010000-01-01T00:00:00.000Z"%string.
Proof. reflexivity. Qed.

(** The text of a date after the year 9999 sorts before that of any date
    with a four-digit year. *)
Remark text_leb_is_not_the_order_of_time :
  text_leb 253402300800000 0 = true /\ text_leb 0 253402300800000 = false.
Proof. split; reflexivity. Qed.

Lemma string_leb_trans (s1 s2 s3 : string) :
  String.leb s1 s2 = true -> String.leb s2 s3 = true -> String.leb s1 s3 = true.
Proof.
  unfold String.leb. revert s2 s3.
  induction s1 as [|a s1 IH]; intros [|b s2] [|c s3]; cbn [String.compare];
    try (intros; reflexivity || discriminate).
  unfold Ascii.compare.
  destruct (N.compare_spec (N_of_ascii a) (N_of_ascii b)) as [E1|L1|G1];
    destruct (N.compare_spec (N_of_ascii b) (N_of_ascii c)) as [E2|L2|G2];
    destruct (N.compare_spec (N_of_ascii a) (N_of_ascii c)) as [E3|L3|G3];
    try (intros; reflexivity || discriminate); try lia.
  apply IH.
Qed.

Lemma text_leb_trans (a b c : Date) :
  text_leb a b = true -> text_leb b c = true -> text_leb a c = true.
Proof. apply string_leb_trans. Qed.

Lemma text_leb_total (a b : Date) : text_leb a b = true \/ text_leb b a = true.
Proof. apply String.leb_total. Qed.

Lemma text_leb_refl (a : Date) : text_leb a a = true.
Proof. destruct (text_leb_total a a); assumption. Qed.

(** The answer of [MAX(last_synced_at)] is the date of some row, and the
    text of no row's date comes after its text. *)
Lemma max_last_synced_at_bounds (l : list Task.t) :
  (forall row d, In row l -> Task.last_synced_at row = Some d ->
     exists m, fold_right max_date None (map Task.last_synced_at l) = Some m /\
               text_leb d m = true) /\
  (forall m, fold_right max_date None (map Task.last_synced_at l) = Some m ->
     exists row, In row l /\ Task.last_synced_at row = Some m).
Proof.
  induction l as [|x l [IH1 IH2]]; split.
  - intros row d [].
  - intros m H. discriminate.
  - intros row d [->|Hin] Hd; cbn [map fold_right].
    + rewrite Hd. destruct (fold_right max_date None (map Task.last_synced_at l)) as [y|];
        cbn [max_date].
      * destruct (text_leb d y) eqn:E; eexists; (split; [reflexivity|]);
          [exact E | apply text_leb_refl].
      * eexists. split; [reflexivity | apply text_leb_refl].
    + destruct (IH1 row d Hin Hd) as (m & Em & Hm). rewrite Em.
      destruct (Task.last_synced_at x) as [y|]; cbn [max_date].
      * destruct (text_leb y m) eqn:E; eexists; (split; [reflexivity|]); [exact Hm|].
        apply (text_leb_trans d m y); [exact Hm|].
        destruct (text_leb_total m y) as [T|T]; [exact T | congruence].
      * eexists. split; [reflexivity | exact Hm].
  - intros m H. cbn [map fold_right] in H.
    destruct (Task.last_synced_at x) as [y|] eqn:Ex;
      destruct (fold_right max_date None (map Task.last_synced_at l)) as [z|] eqn:Ez;
      cbn [max_date] in H; try discriminate.
    + destruct (text_leb y z); inversion H; subst m.
      * destruct (IH2 z eq_refl) as (row & Hin & Hr). exists row. split; [now right|exact Hr].
      * exists x. split; [now left | exact Ex].
    + inversion H; subst m. exists x. split; [now left | exact Ex].
    + destruct (IH2 m H) as (row & Hin & Hr). exists row. split; [now right | exact Hr].
Qed.

(** X19. [GET /status] answers 200 with the number of records whose state
    is [pending] or [error], soft-deleted ones included, the
    [last_synced_at] of some record whose text no other record's comes
    after (null when no record has one), the answer of the probe, and a status that is [offline] exactly when the
    probe fails, [up_to_date] exactly when it succeeds and every record is
    [synced], and [sync_pending] otherwise.  It changes no table. *)
Theorem get_status_route (health : nat -> bool) (w : World) :
  exists pending last status,
    get_status health w =
      (Ok (Response.mk 200
             (Response.sync_status pending last (health (requests w)) status)),
       next_request w) /\
    pending = Z.of_nat (List.length (filter needs_sync (tasks w))) /\
    (forall row d, In row (tasks w) -> Task.last_synced_at row = Some d ->
       exists m, last = Some m /\ text_leb d m = true) /\
    (forall m, last = Some m ->
       exists row, In row (tasks w) /\ Task.last_synced_at row = Some m) /\
    (status = "offline"%string <-> health (requests w) = false) /\
    (status = "up_to_date"%string <->
     health (requests w) = true /\
     forall row, In row (tasks w) -> Task.sync_status row = SyncStatus.synced) /\
    (status = "sync_pending"%string <->
     health (requests w) = true /\
     exists row, In row (tasks w) /\ Task.sync_status row <> SyncStatus.synced).
Proof.
  pose proof (max_last_synced_at_bounds (tasks w)) as [Hmax1 Hmax2].
  assert (Hcount : List.length (filter needs_sync (tasks w)) = O <->
                   forall row, In row (tasks w) -> Task.sync_status row = SyncStatus.synced).
  { rewrite length_zero_iff_nil. split.
    - intros Hnil row Hin.
      destruct (needs_sync row) eqn:Hn.
      + assert (Hrow : In row (filter needs_sync (tasks w))) by (apply filter_In; now split).
        rewrite Hnil in Hrow. destruct Hrow.
      + unfold needs_sync in Hn. destruct (Task.sync_status row); congruence.
    - intros Hall. destruct (filter needs_sync (tasks w)) as [|x l] eqn:Ef; [reflexivity|].
      assert (Hx : In x (filter needs_sync (tasks w))) by (rewrite Ef; now left).
      apply filter_In in Hx. destruct Hx as [Hin Hx].
      unfold needs_sync in Hx. rewrite (Hall x Hin) in Hx. discriminate. }
  assert (Hsome : List.length (filter needs_sync (tasks w)) <> O <->
                  exists row, In row (tasks w) /\ Task.sync_status row <> SyncStatus.synced).
  { split.
    - intros Hn. destruct (filter needs_sync (tasks w)) as [|x l] eqn:Ef; [contradiction|].
      assert (Hx : In x (filter needs_sync (tasks w))) by (rewrite Ef; now left).
      apply filter_In in Hx. destruct Hx as [Hin Hx]. exists x. split; [exact Hin|].
      unfold needs_sync in Hx. destruct (Task.sync_status x); congruence.
    - intros (row & Hin & Hr) H0. exact (Hr (proj1 Hcount H0 row Hin)). }
  eexists _, _, _. split.
  { unfold get_status, try_catch, getTasksNeedingSync, select_tasks_needing_sync,
      select_max_last_synced_at, checkConnectivity, gets, ret, bind. reflexivity. }
  rewrite length_map.
  split; [reflexivity|]. split; [exact Hmax1|]. split; [exact Hmax2|].
  destruct (health (requests w)).
  - destruct (List.length (filter needs_sync (tasks w))) as [|k] eqn:Ek.
    + cbn. split; [split; discriminate|]. split.
      * split; [intros _; split; [reflexivity | exact (proj1 Hcount eq_refl)] | reflexivity].
      * split; [discriminate|]. intros [_ H]. destruct (proj2 Hsome H eq_refl).
    + assert (Hpos : (Z.of_nat (S k) >? 0) = true) by (apply Z.gtb_lt; lia).
      rewrite Hpos. split; [split; discriminate|]. split.
      * split; [discriminate|]. intros [_ H]. pose proof (proj2 Hcount H). congruence.
      * split; [intros _; split; [reflexivity | apply (proj1 Hsome); discriminate]
               | reflexivity].
  - split; [split; reflexivity|]. split; split; try discriminate; intros [F _]; discriminate.
Qed.

Lemma batch_processed_items_nth (random : nat -> string) (l : list SyncQueueItem.t) :
  forall k0 k,
  nth_error (batch_processed_items random k0 l) k =
  option_map (fun item =>
                ProcessedItem.mk (SyncQueueItem.id item)
                  (Some (batch_server_id (random (k0 + k)%nat) item))
                  Status.success None None)
    (nth_error l k).
Proof.
  induction l as [|x l IH]; intros k0 k.
  - now destruct k.
  - destruct k as [|k]; cbn.
    + now rewrite Nat.add_0_r.
    + rewrite IH. now rewrite Nat.add_succ_r.
Qed.

(** X20. [POST /batch] answers 400 when the body has no array of items.
    Otherwise it answers 200 with one outcome per submitted entry, in order:
    the client id is the id of the queue entry, not of its record, the
    status is always [success], there is no resolved data, and the server id
    is [srv-] followed by the record id of the entry when that is not
    empty. *)
Theorem post_batch_route
  (clock : nat -> Date) (random : nat -> string)
  (items : option (list SyncQueueItem.t)) (w : World) :
  let r := post_batch clock random items w in
  (items = None ->
   r = (Ok (Response.mk 400
              (Response.error_body "Invalid batch request: items missing or invalid"
                 None)), w)) /\
  (forall l, items = Some l ->
   exists outcomes,
     r = (Ok (Response.mk 200
                (Response.batch (BatchSyncResponse.mk outcomes (clock (dates w))))),
          after_date w) /\
     List.length outcomes = List.length l /\
     forall k item, nth_error l k = Some item ->
       exists outcome, nth_error outcomes k = Some outcome /\
         ProcessedItem.client_id outcome = SyncQueueItem.id item /\
         ProcessedItem.status outcome = Status.success /\
         ProcessedItem.resolved_data outcome = None /\
         ProcessedItem.error outcome = None /\
         (SyncQueueItem.task_id item <> EmptyString ->
          ProcessedItem.server_id outcome =
            Some (String.append "srv-" (SyncQueueItem.task_id item)))).
Proof.
  intros r. subst r. split.
  - intros ->. reflexivity.
  - intros l ->. eexists. split; [reflexivity|]. split.
    + pose proof (proj2 (batch_processed_items_spec random l 0%nat)) as H.
      apply (f_equal (@List.length _)) in H. now rewrite !length_map in H.
    + intros k item Hk. rewrite batch_processed_items_nth, Hk. cbn [option_map].
      eexists. split; [reflexivity|]. cbn. repeat split.
      intros Hne. unfold batch_server_id, or_default, truthy.
      now rewrite (proj2 (String.eqb_neq _ _) Hne).
Qed.

(** ** A conflict on a record that was edited locally *)



(** ** The number of requests of a cycle *)

Lemma no_request_refl (w : World) : no_request w w.
Proof. reflexivity. Qed.

Lemma no_request_trans (w1 w2 w3 : World) :
  no_request w1 w2 -> no_request w2 w3 -> no_request w1 w3.
Proof. unfold no_request. congruence. Qed.

Ltac keeps_quiet := keeps_go no_request_refl no_request_trans ltac:(reflexivity).

Lemma quiet_new_Date (clock : nat -> Date) : keeps no_request (new_Date clock).
Proof. intros w. reflexivity. Qed.

Lemma quiet_uuidv4 (uuid : nat -> string) : keeps no_request (uuidv4 uuid).
Proof. intros w. reflexivity. Qed.

Lemma quiet_handleSyncError (item : SyncQueueItem.t) (err : JsError.t) :
  keeps no_request (handleSyncError item err).
Proof.
  unfold handleSyncError, update_retry_count, select_retry_count,
    delete_sync_queue_by_id. keeps_quiet.
Qed.

Lemma quiet_updateSyncStatus (clock : nat -> Date) (taskId : string)
  (status : SyncStatus.t) (serverData : option PartialTask.t) :
  keeps no_request (updateSyncStatus clock taskId status serverData).
Proof.
  unfold updateSyncStatus, update_sync_status, delete_sync_queue_by_task.
  apply (keeps_bind _ no_request_trans); [apply quiet_new_Date|intros now].
  keeps_quiet.
Qed.

Lemma quiet_getTask (id : string) : keeps no_request (getTask id).
Proof. unfold getTask, select_task. keeps_quiet. Qed.

Lemma quiet_addToSyncQueue (clock : nat -> Date) (uuid : nat -> string)
  (taskId : string) (operation : Operation.t) (data : PartialTask.t) :
  keeps no_request (addToSyncQueue clock uuid taskId operation data).
Proof.
  unfold addToSyncQueue, insert_sync_queue.
  apply (keeps_bind _ no_request_trans); [apply quiet_uuidv4|intros i].
  apply (keeps_bind _ no_request_trans); [apply quiet_new_Date|intros now].
  keeps_quiet.
Qed.

Lemma quiet_updateTask (clock : nat -> Date) (uuid : nat -> string)
  (id : string) (updates : PartialTask.t) :
  keeps no_request (updateTask clock uuid id updates).
Proof.
  unfold updateTask.
  apply (keeps_bind _ no_request_trans); [apply quiet_getTask|intros e].
  destruct e as [e|]; [|keeps_quiet].
  apply (keeps_bind _ no_request_trans); [apply quiet_new_Date|intros now].
  apply (keeps_bind _ no_request_trans).
  { unfold update_task_row. keeps_quiet. }
  intros _. apply (keeps_bind _ no_request_trans);
    [apply quiet_addToSyncQueue | intros _; keeps_quiet].
Qed.

Lemma quiet_process_result (clock : nat -> Date) (uuid : nat -> string)
  (batch : list SyncQueueItem.t) (result : ProcessedItem.t) (acc : Totals) :
  keeps no_request (process_result clock uuid batch result acc).
Proof.
  unfold process_result, persist_resolution.
  destruct (ProcessedItem.status result).
  - apply (keeps_bind _ no_request_trans);
      [apply quiet_updateSyncStatus | intros _; keeps_quiet].
  - destruct (ProcessedItem.resolved_data result) as [d|]; [|keeps_quiet].
    apply (keeps_bind _ no_request_trans).
    { apply (keeps_bind _ no_request_trans); [apply quiet_getTask|intros l].
      destruct l as [l|]; [|keeps_quiet].
      apply (keeps_bind _ no_request_trans);
        [apply quiet_updateTask | intros _; keeps_quiet]. }
    intros _. apply (keeps_bind _ no_request_trans);
      [apply quiet_updateSyncStatus | intros _; keeps_quiet].
  - apply (keeps_bind _ no_request_trans); [apply quiet_new_Date|intros now].
    destruct (find _ _) as [failedItem|]; [|keeps_quiet].
    apply (keeps_bind _ no_request_trans);
      [apply quiet_handleSyncError | intros _; keeps_quiet].
Qed.

Lemma quiet_process_results (clock : nat -> Date) (uuid : nat -> string)
  (batch : list SyncQueueItem.t) (results : list ProcessedItem.t) :
  forall acc, keeps no_request (process_results clock uuid batch results acc).
Proof.
  induction results as [|r results IH]; intros acc; cbn [process_results].
  - keeps_quiet.
  - apply (keeps_bind _ no_request_trans);
      [apply quiet_process_result | intros a; apply IH].
Qed.

(** A batch costs one request, answered or not. *)
Lemma process_batch_requests (clock : nat -> Date) (uuid : nat -> string)
  (remote : nat -> BatchSyncRequest.t -> JsError.t + BatchSyncResponse.t)
  (batch : list SyncQueueItem.t) (acc : Totals) (w : World) :
  requests (snd (process_batch clock uuid remote batch acc w)) = S (requests w).
Proof.
  destruct (remote (requests w) (BatchSyncRequest.mk batch (clock (dates w))))
    as [err|data] eqn:Hr.
  - rewrite (process_batch_rejected clock uuid remote batch acc w err Hr).
    cbn [snd]. unfold world_of.
    rewrite (keeps_for_each _ no_request_refl no_request_trans batch
               (fun item => handleSyncError item err)
               (fun x => quiet_handleSyncError x err) (after_dispatch w)).
    reflexivity.
  - rewrite (process_batch_answered clock uuid remote batch acc w data Hr).
    rewrite (quiet_process_results clock uuid batch _ acc (after_dispatch w)).
    reflexivity.
Qed.

Lemma process_batches_requests (clock : nat -> Date) (uuid : nat -> string)
  (remote : nat -> BatchSyncRequest.t -> JsError.t + BatchSyncResponse.t)
  (batches : list (list SyncQueueItem.t)) :
  forall acc w,
  requests (snd (process_batches clock uuid remote batches acc w)) =
  (requests w + List.length batches)%nat.
Proof.
  induction batches as [|b batches IH]; intros acc w; cbn [process_batches].
  - cbn. lia.
  - unfold bind. pose proof (process_batch_requests clock uuid remote b acc w) as Hb.
    destruct (process_batch_totals clock uuid remote b acc w) as (a1 & w1 & E1 & _).
    rewrite E1 in Hb |- *. cbn [snd] in Hb. rewrite IH, Hb. cbn [List.length]. lia.
Qed.

(** X22. With the gate open and a positive batch size [B], a cycle over [N]
    queued entries makes exactly [1 + ceil (N / B)] requests, the probe
    included, whatever the server answers or rejects. *)
Theorem sync_request_count
  (clock : nat -> Date) (uuid : nat -> string) (health : nat -> bool)
  (remote : nat -> BatchSyncRequest.t -> JsError.t + BatchSyncResponse.t)
  (B : Z) (fuel : nat) (w : World) :
  health (requests w) = true ->
  1 <= B ->
  (List.length (sync_queue w) < fuel)%nat ->
  let r := sync clock uuid health remote (Num B) fuel w in
  let N := Z.of_nat (List.length (sync_queue w)) in
  Z.of_nat (requests (world_of r)) = Z.of_nat (requests w) + 1 + (N + B - 1) / B.
Proof.
  intros Hh HB Hfuel r N. subst r N.
  destruct (sync_queue w) as [|x q] eqn:Hq.
  - rewrite sync_empty_run by assumption. unfold world_of. cbn.
    rewrite Z.div_small by lia. lia.
  - assert (Hne : sync_queue w <> []) by (rewrite Hq; discriminate).
    pose proof (sync_online_run clock uuid health remote (Num B) fuel w Hh Hne) as Hrun.
    destruct (batch_loop_from B (snapshot w) HB fuel 0 [])
      as (batches & Hb & _ & Hlen & _); [lia | rewrite length_snapshot, Hq; lia |].
    cbn [app] in Hb. rewrite Hb in Hrun. destruct Hrun as (acc & w' & E & Es).
    rewrite Es. unfold world_of. cbn [snd].
    pose proof (process_batches_requests clock uuid remote batches (mkTotals 0 0 [])
                  (world_after_snapshot w)) as Hreq.
    rewrite E in Hreq. cbn [snd] in Hreq. rewrite Hreq.
    unfold world_after_snapshot. cbn [record_stmt next_request requests].
    rewrite Nat2Z.inj_add, Hlen, length_snapshot, Hq. unfold batches_left.
    rewrite Nat2Z.inj_succ.
    destruct (Z.ltb_spec 0 (Z.of_nat (List.length (x :: q)))) as [L|L];
      [|cbn [List.length] in L; lia].
    rewrite Z.sub_0_r. lia.
Qed.

Lemma sync_request_count_witness :
  requests (world_of (sync sample_clock sample_uuid online failing_server (Num 1) 3
                        two_entries)) = 3%nat.
Proof.
  pose proof (sync_request_count sample_clock sample_uuid online
                failing_server 1 3 two_entries eq_refl ltac:(lia) ltac:(cbn; lia)) as H.
  cbn zeta in H. change (Z.of_nat (requests two_entries)) with 0 in H.
  change (Z.of_nat (List.length (sync_queue two_entries))) with 2 in H.
  change ((2 + 1 - 1) / 1) with 2 in H.
  apply Nat2Z.inj. exact H.
Defined.
